(** * tdd-mcp-server: a shallow embedding of the services and tool handlers

    The development follows the TypeScript sources:

    - [Js]            the fragments of the JavaScript runtime the code relies on
                      (strings, numbers, JSON values, dates);
    - [Coverage]      src/services/coverage-analyzer.ts;
    - [TestGenerator] src/services/test-generator.ts;
    - [TestRunner]    src/services/test-runner.ts;
    - [CycleValidator] src/services/tdd-cycle-validator.ts;
    - [Storage]       src/services/storage.service.ts and src/types/storage.ts;
    - [FeatureManagement] src/services/feature-management.service.ts;
    - [I18n], [NewTools], [LegacyTools], [Server]  the protocol front-ends.

    Definitions come first, the theorems about them follow. *)

From Stdlib Require Import ZArith QArith Qround String Ascii List Lia Bool Eqdep_dec.
From stdpp Require Import gmap strings list.
Import ListNotations.
Set Warnings "-register-all".
Open Scope string_scope.
Open Scope list_scope.

(* ================================================================== *)
(** * The JavaScript runtime, as far as the code uses it *)
(* ================================================================== *)

Module Js.

(** ** Strings

    A string is its sequence of UTF-8 bytes.  The separators and keywords
    the services look for are ASCII, and an ASCII byte never occurs inside
    the encoding of another character, so [includes], [startsWith], [split]
    and [substring] after an ASCII prefix act on bytes as they act on
    UTF-16 code units.  [toLowerCase] and [trim] are the ASCII parts of the
    JavaScript functions. *)

Definition is_upper (c : ascii) : bool :=
  (65 <=? nat_of_ascii c)%nat && (nat_of_ascii c <=? 90)%nat.

Definition is_lower (c : ascii) : bool :=
  (97 <=? nat_of_ascii c)%nat && (nat_of_ascii c <=? 122)%nat.

Definition is_digit (c : ascii) : bool :=
  (48 <=? nat_of_ascii c)%nat && (nat_of_ascii c <=? 57)%nat.

(** [\s] restricted to ASCII: tab, line feed, vertical tab, form feed,
    carriage return, space. *)
Definition is_space (c : ascii) : bool :=
  ((9 <=? nat_of_ascii c)%nat && (nat_of_ascii c <=? 13)%nat)
  || (nat_of_ascii c =? 32)%nat.

Definition lower_char (c : ascii) : ascii :=
  if is_upper c then ascii_of_nat (nat_of_ascii c + 32) else c.

Definition upper_char (c : ascii) : ascii :=
  if is_lower c then ascii_of_nat (nat_of_ascii c - 32) else c.

Fixpoint toLowerCase (s : string) : string :=
  match s with
  | EmptyString => EmptyString
  | String c r => String (lower_char c) (toLowerCase r)
  end.

Fixpoint toUpperCase (s : string) : string :=
  match s with
  | EmptyString => EmptyString
  | String c r => String (upper_char c) (toUpperCase r)
  end.

Definition startsWith (s p : string) : bool := String.prefix p s.

(** [s.includes(sub)] *)
Fixpoint includes (s sub : string) : bool :=
  String.prefix sub s ||
  match s with
  | EmptyString => false
  | String _ r => includes r sub
  end.

(** [s.substring(n)] and [s.slice(n)] for [n >= 0] *)
Fixpoint substring_from (n : nat) (s : string) : string :=
  match n, s with
  | O, _ => s
  | S k, EmptyString => EmptyString
  | S k, String _ r => substring_from k r
  end.

Fixpoint trimStart (s : string) : string :=
  match s with
  | EmptyString => EmptyString
  | String c r => if is_space c then trimStart r else s
  end.

Fixpoint trimEnd (s : string) : string :=
  match s with
  | EmptyString => EmptyString
  | String c r =>
      match trimEnd r with
      | EmptyString => if is_space c then EmptyString else String c EmptyString
      | r' => String c r'
      end
  end.

Definition trim (s : string) : string := trimEnd (trimStart s).

Definition prepend (c : ascii) (pieces : list string) : list string :=
  match pieces with
  | p :: ps => String c p :: ps
  | [] => [String c EmptyString]
  end.

(** [s.split(sep)] for a non-empty separator string: [skip] counts the
    characters of a separator occurrence that are still to be passed. *)
Fixpoint split_at (sep s : string) (skip : nat) : list string :=
  match s with
  | EmptyString => [EmptyString]
  | String c r =>
      match skip with
      | S k => split_at sep r k
      | O =>
          if String.prefix sep s
          then EmptyString :: split_at sep r (String.length sep - 1)
          else prepend c (split_at sep r 0)
      end
  end.

Definition split (s sep : string) : list string := split_at sep s 0.

(** [s.split(/[...]+/)]: the separators are the maximal runs of characters
    of the class [cls]. *)
Fixpoint split_runs (cls : ascii -> bool) (s : string) (in_run : bool) : list string :=
  match s with
  | EmptyString => [EmptyString]
  | String c r =>
      if cls c
      then if in_run then split_runs cls r true
           else EmptyString :: split_runs cls r true
      else prepend c (split_runs cls r false)
  end.

Definition split_regex_class (s : string) (cls : ascii -> bool) : list string :=
  split_runs cls s false.

(** [table[key]] for a table of strings *)
Fixpoint entry (key : string) (table : list (string * string)) : option string :=
  match table with
  | [] => None
  | (k, m) :: rest => if String.eqb k key then Some m else entry key rest
  end.

(** [pieces.join(sep)] *)
Fixpoint join (pieces : list string) (sep : string) : string :=
  match pieces with
  | [] => EmptyString
  | [p] => p
  | p :: ps => p +:+ sep +:+ join ps sep
  end.

(** [s.replace(/[...]/g, '')] *)
Fixpoint remove_class (cls : ascii -> bool) (s : string) : string :=
  match s with
  | EmptyString => EmptyString
  | String c r => if cls c then remove_class cls r else String c (remove_class cls r)
  end.

(** [s.replace(/[...]+/g, by)]: every maximal run of the class becomes [by] *)
Fixpoint replace_runs (cls : ascii -> bool) (by_ : string) (s : string) (in_run : bool) : string :=
  match s with
  | EmptyString => EmptyString
  | String c r =>
      if cls c
      then if in_run then replace_runs cls by_ r true
           else by_ +:+ replace_runs cls by_ r true
      else String c (replace_runs cls by_ r false)
  end.

(** Decimal digits of a natural number, most significant first. *)
Fixpoint digits_fuel (fuel : nat) (n : N) (acc : string) : string :=
  match fuel with
  | O => acc
  | S f =>
      let acc' := String (ascii_of_N (48 + n mod 10)) acc in
      if (n / 10 =? 0)%N then acc' else digits_fuel f (n / 10)%N acc'
  end.

Definition string_of_N (n : N) : string := digits_fuel (S (N.to_nat (N.log2 n))) n EmptyString.

(** [String(z)] for an integer *)
Definition string_of_Z (z : Z) : string :=
  match z with
  | Z0 => "0"
  | Zpos p => string_of_N (Npos p)
  | Zneg p => "-" +:+ string_of_N (Npos p)
  end.

(** ** Numbers

    A number is a finite value, an infinity or NaN.  Finite values are kept
    as exact rationals: rounding to the nearest double, overflow and the sign
    of zero are not modelled.  The arithmetic returns fractions in lowest
    terms, so that equal results are equal terms. *)

Inductive number : Type :=
| Finite (q : Q)
| PosInfinity
| NegInfinity
| NaN.

Definition num (z : Z) : number := Finite (inject_Z z).

Definition is_NaN (n : number) : bool :=
  match n with NaN => true | _ => false end.

Definition isFinite (n : number) : bool :=
  match n with Finite _ => true | _ => false end.

(** [a + b] *)
Definition add (a b : number) : number :=
  match a, b with
  | NaN, _ | _, NaN => NaN
  | PosInfinity, NegInfinity | NegInfinity, PosInfinity => NaN
  | PosInfinity, _ | _, PosInfinity => PosInfinity
  | NegInfinity, _ | _, NegInfinity => NegInfinity
  | Finite x, Finite y => Finite (Qred (x + y))
  end.

Definition sign_infinity (positive : bool) : number :=
  if positive then PosInfinity else NegInfinity.

(** [a * b] *)
Definition mul (a b : number) : number :=
  match a, b with
  | NaN, _ | _, NaN => NaN
  | Finite x, Finite y => Finite (Qred (x * y))
  | Finite x, PosInfinity | PosInfinity, Finite x =>
      if Qeq_bool x 0 then NaN else sign_infinity (Qle_bool 0 x)
  | Finite x, NegInfinity | NegInfinity, Finite x =>
      if Qeq_bool x 0 then NaN else sign_infinity (negb (Qle_bool 0 x))
  | PosInfinity, PosInfinity | NegInfinity, NegInfinity => PosInfinity
  | PosInfinity, NegInfinity | NegInfinity, PosInfinity => NegInfinity
  end.

(** [a / b] *)
Definition div (a b : number) : number :=
  match a, b with
  | NaN, _ | _, NaN => NaN
  | Finite x, Finite y =>
      if Qeq_bool y 0
      then if Qeq_bool x 0 then NaN else sign_infinity (Qle_bool 0 x)
      else Finite (Qred (x / y))
  | Finite _, (PosInfinity | NegInfinity) => Finite 0
  | PosInfinity, Finite y => sign_infinity (Qle_bool 0 y)
  | NegInfinity, Finite y => sign_infinity (negb (Qle_bool 0 y))
  | (PosInfinity | NegInfinity), (PosInfinity | NegInfinity) => NaN
  end.

(** [Math.round]: the nearest integer, halves upwards *)
Definition round (a : number) : number :=
  match a with
  | Finite x => Finite (inject_Z (Qfloor (x + (1 # 2))))
  | _ => a
  end.

(** [a === 0] *)
Definition is_zero (a : number) : bool :=
  match a with Finite x => Qeq_bool x 0 | _ => false end.

(** [a > b], [a >= b]: false as soon as one side is NaN *)
Definition gt (a b : number) : bool :=
  match a, b with
  | NaN, _ | _, NaN => false
  | Finite x, Finite y => negb (Qle_bool x y)
  | PosInfinity, PosInfinity => false
  | PosInfinity, _ => true
  | _, NegInfinity => match a with NegInfinity => false | _ => true end
  | _, _ => false
  end.

Definition ge (a b : number) : bool :=
  match a, b with
  | NaN, _ | _, NaN => false
  | Finite x, Finite y => Qle_bool y x
  | PosInfinity, _ => true
  | _, NegInfinity => true
  | _, _ => false
  end.

Definition le (a b : number) : bool := ge b a.

(** ** parseInt

    Leading white space, an optional sign, then the longest run of digits:
    hexadecimal after a [0x] prefix, decimal otherwise.  NaN when there is
    no digit. *)

Definition digit_value (c : ascii) : option Z :=
  if is_digit c then Some (Z.of_nat (nat_of_ascii c) - 48)%Z else None.

Definition hex_value (c : ascii) : option Z :=
  let n := nat_of_ascii c in
  if is_digit c then Some (Z.of_nat n - 48)%Z
  else if ((97 <=? n)%nat && (n <=? 102)%nat) then Some (Z.of_nat n - 87)%Z
  else if ((65 <=? n)%nat && (n <=? 70)%nat) then Some (Z.of_nat n - 55)%Z
  else None.

Fixpoint read_digits (value : ascii -> option Z) (radix : Z) (s : string) (acc : option Z) : option Z :=
  match s with
  | EmptyString => acc
  | String c r =>
      match value c with
      | Some d => read_digits value radix r (Some (radix * default 0%Z acc + d)%Z)
      | None => acc
      end
  end.

Definition has_hex_prefix (s : string) : bool :=
  String.prefix "0x" s || String.prefix "0X" s.

Definition parseInt_unsigned (s : string) : option Z :=
  if has_hex_prefix s
  then read_digits hex_value 16 (substring_from 2 s) None
  else read_digits digit_value 10 s None.

Definition parseInt (s : string) : number :=
  let t := trimStart s in
  let '(negative, body) :=
    match t with
    | String "-" r => (true, r)
    | String "+" r => (false, r)
    | _ => (false, t)
    end in
  match parseInt_unsigned body with
  | Some z => num (if negative then - z else z)
  | None => NaN
  end.

(** ** Values

    The values that reach the storage layer and the tool handlers: what
    [JSON.parse] builds, plus [undefined] and [Date] objects.  An object is
    the list of its own properties in insertion order. *)

(** A time value: milliseconds since the epoch, within the range every
    [Date] keeps its time value in. *)
Definition max_time : Z := 8640000000000000.

Definition valid_time (t : Z) : bool := (Z.abs t <=? max_time)%Z.

Record time : Type := Time {
  ms : Z;
  ms_valid : valid_time ms = true
}.

(** A [Date] holds a time value, or NaN ([None], an invalid date). *)
Inductive value : Type :=
| VUndefined
| VNull
| VBool (b : bool)
| VNum (n : number)
| VStr (s : string)
| VDate (t : option time)
| VArr (items : list value)
| VObj (fields : list (string * value)).

(** What the code takes from the runtime without this development looking
    inside: [Date.prototype.toISOString], [Date.parse], and the conversion
    to a string of a value that is not one.  The storage layer needs one
    fact: a time value is read back from its ISO string.  What [Date.parse]
    makes of any other string is left open. *)
Class Runtime : Type := {
  toISOString : time -> string;
  Date_parse : string -> option time;
  display : value -> string;
  toISOString_nonempty : forall t, toISOString t <> EmptyString;
  Date_parse_toISOString : forall t, Date_parse (toISOString t) = Some t
}.

(** [new Date(s)] *)
Definition Date_of_string `{Runtime} (s : string) : value := VDate (Date_parse s).

(** [new Date(t)] for a time value *)
Definition Date_of_time (t : time) : value := VDate (Some t).

(** [String(v)], [`${v}`] *)
Definition String_of `{Runtime} (v : value) : string :=
  match v with
  | VStr s => s
  | _ => display v
  end.

Definition truthy (v : value) : bool :=
  match v with
  | VUndefined | VNull => false
  | VBool b => b
  | VNum n => negb (is_NaN n || is_zero n)
  | VStr s => negb (String.eqb s EmptyString)
  | VDate _ | VArr _ | VObj _ => true
  end.

(** [typeof v === 'object'] *)
Definition typeof_object (v : value) : bool :=
  match v with
  | VNull | VDate _ | VArr _ | VObj _ => true
  | _ => false
  end.

(** [a ?? b] *)
Definition nullish (a b : value) : value :=
  match a with
  | VUndefined | VNull => b
  | _ => a
  end.

(** [a || b] *)
Definition or_else (a b : value) : value := if truthy a then a else b.

Fixpoint assoc (k : string) (fields : list (string * value)) : option value :=
  match fields with
  | [] => None
  | (k', v) :: rest => if String.eqb k' k then Some v else assoc k rest
  end.

(** [obj[k] = v] on the property list: in place when the key is there,
    appended otherwise. *)
Fixpoint assign (k : string) (v : value) (fields : list (string * value)) : list (string * value) :=
  match fields with
  | [] => [(k, v)]
  | (k', v') :: rest =>
      if String.eqb k' k then (k, v) :: rest else (k', v') :: assign k v rest
  end.

(** Exceptions and results of a call that may throw. *)
Inductive exn : Type :=
| Error (message : string)
| TypeError (message : string).

Definition message_of (e : exn) : string :=
  match e with Error m | TypeError m => m end.

Inductive outcome (A : Type) : Type :=
| Return (a : A)
| Throw (e : exn).
Arguments Return {A} a.
Arguments Throw {A} e.

(** [v.k] (or [v[k]]) for the property names the code reads: own
    properties of an object; nothing on a primitive, an array or a date;
    a [TypeError] on [null] and [undefined]. *)
Definition get (v : value) (k : string) : outcome value :=
  match v with
  | VUndefined => Throw (TypeError "Cannot read properties of undefined")
  | VNull => Throw (TypeError "Cannot read properties of null")
  | VObj fields => Return (default VUndefined (assoc k fields))
  | _ => Return VUndefined
  end.

(** [v === s] for a string [s] *)
Definition is_string (v : value) (s : string) : bool :=
  match v with
  | VStr s' => String.eqb s' s
  | _ => false
  end.

(** [{...v}]: the own properties of an object; the code spreads objects only. *)
Definition spread (v : value) : list (string * value) :=
  match v with
  | VObj fields => fields
  | _ => []
  end.

(** Sequencing of calls that may throw. *)
Definition and_then {A B : Type} (o : outcome A) (k : A -> outcome B) : outcome B :=
  match o with
  | Return a => k a
  | Throw e => Throw e
  end.

(** [for (const x of items) { out.push(...f(x)) }] with a body that may throw *)
Fixpoint collect {A B : Type} (f : A -> outcome (list B)) (items : list A) : outcome (list B) :=
  match items with
  | [] => Return []
  | x :: rest =>
      and_then (f x) (fun ys => and_then (collect f rest) (fun zs => Return (ys ++ zs)))
  end.

(** The number of UTF-16 code units of a string given by its UTF-8 bytes:
    one for every byte that starts a character, one more when the character
    lies outside the basic plane. *)
Fixpoint length16 (s : string) : nat :=
  match s with
  | EmptyString => 0
  | String c r =>
      let b := nat_of_ascii c in
      ((if (128 <=? b)%nat && (b <? 192)%nat then 0 else if (240 <=? b)%nat then 2 else 1)
       + length16 r)%nat
  end.

(** ** Effects

    A computation over a state [S] that returns or throws; the state
    survives a throw, as the heap and the disk do. *)
Definition stateful (S A : Type) : Type := S -> outcome A * S.

Definition ret {S A : Type} (a : A) : stateful S A := fun st => (Return a, st).

Definition throw {S A : Type} (e : exn) : stateful S A := fun st => (Throw e, st).

Definition bind {S A B : Type} (m : stateful S A) (k : A -> stateful S B) : stateful S B :=
  fun st =>
    match m st with
    | (Return a, st') => k a st'
    | (Throw e, st') => (Throw e, st')
    end.

Definition lift {S A : Type} (o : outcome A) : stateful S A := fun st => (o, st).

(** [try { m } catch (e) { h e }] *)
Definition catch {S A : Type} (m : stateful S A) (h : exn -> stateful S A) : stateful S A :=
  fun st =>
    match m st with
    | (Return a, st') => (Return a, st')
    | (Throw e, st') => h e st'
    end.

Declare Scope io_scope.
Delimit Scope io_scope with io.
Notation "x <- m ;; k" := (bind m (fun x => k))
  (at level 100, m at next level, right associativity) : io_scope.
Notation "m ;; k" := (bind m (fun _ => k))
  (at level 100, right associativity) : io_scope.

(** ** JSON

    [serialize v] is the document [JSON.stringify(v)] writes, given as the
    value [JSON.parse] builds from that text; [None] when [JSON.stringify]
    returns [undefined].  A date is written through [toJSON] as its ISO
    string (an invalid one as [null]), a non-finite number as [null]; an
    [undefined] property is left out and an [undefined] array element
    becomes [null]. *)
Fixpoint defined_props (l : list (string * option value)) : list (string * value) :=
  match l with
  | [] => []
  | (k, Some d) :: rest => (k, d) :: defined_props rest
  | (_, None) :: rest => defined_props rest
  end.

Section Serialize.
Context `{Runtime}.

Fixpoint serialize (v : value) : option value :=
  match v with
  | VUndefined => None
  | VNull => Some VNull
  | VBool b => Some (VBool b)
  | VNum n => Some (if isFinite n then VNum n else VNull)
  | VStr s => Some (VStr s)
  | VDate (Some t) => Some (VStr (toISOString t))
  | VDate None => Some VNull
  | VArr items => Some (VArr (map (fun x => default VNull (serialize x)) items))
  | VObj fields =>
      Some (VObj (defined_props
                    (map (fun entry => match entry with (k, x) => (k, serialize x) end) fields)))
  end.

End Serialize.

End Js.

(* ================================================================== *)
(** * Coverage analyzer (src/services/coverage-analyzer.ts) *)
(* ================================================================== *)

Module Coverage.
Import Js.

Record Overall : Type := {
  lines : number;
  functions : number;
  branches : number;
  statements : number
}.

(** The six running totals of [parseLcovCoverage]. *)
Record Totals : Type := {
  totalLines : number;
  coveredLines : number;
  totalFunctions : number;
  coveredFunctions : number;
  totalBranches : number;
  coveredBranches : number
}.

Definition zero_totals : Totals :=
  {| totalLines := num 0; coveredLines := num 0;
     totalFunctions := num 0; coveredFunctions := num 0;
     totalBranches := num 0; coveredBranches := num 0 |}.

(** The body of the inner loop: one line of a section.  The [SF:] branch
    only records the file name, which the function never uses again. *)
Definition lcov_line (t : Totals) (line : string) : Totals :=
  if startsWith line "SF:" then t
  else if startsWith line "LF:" then
    {| totalLines := add (totalLines t) (parseInt (substring_from 3 line));
       coveredLines := coveredLines t;
       totalFunctions := totalFunctions t; coveredFunctions := coveredFunctions t;
       totalBranches := totalBranches t; coveredBranches := coveredBranches t |}
  else if startsWith line "LH:" then
    {| totalLines := totalLines t;
       coveredLines := add (coveredLines t) (parseInt (substring_from 3 line));
       totalFunctions := totalFunctions t; coveredFunctions := coveredFunctions t;
       totalBranches := totalBranches t; coveredBranches := coveredBranches t |}
  else if startsWith line "FNF:" then
    {| totalLines := totalLines t; coveredLines := coveredLines t;
       totalFunctions := add (totalFunctions t) (parseInt (substring_from 4 line));
       coveredFunctions := coveredFunctions t;
       totalBranches := totalBranches t; coveredBranches := coveredBranches t |}
  else if startsWith line "FNH:" then
    {| totalLines := totalLines t; coveredLines := coveredLines t;
       totalFunctions := totalFunctions t;
       coveredFunctions := add (coveredFunctions t) (parseInt (substring_from 4 line));
       totalBranches := totalBranches t; coveredBranches := coveredBranches t |}
  else if startsWith line "BRF:" then
    {| totalLines := totalLines t; coveredLines := coveredLines t;
       totalFunctions := totalFunctions t; coveredFunctions := coveredFunctions t;
       totalBranches := add (totalBranches t) (parseInt (substring_from 4 line));
       coveredBranches := coveredBranches t |}
  else if startsWith line "BRH:" then
    {| totalLines := totalLines t; coveredLines := coveredLines t;
       totalFunctions := totalFunctions t; coveredFunctions := coveredFunctions t;
       totalBranches := totalBranches t;
       coveredBranches := add (coveredBranches t) (parseInt (substring_from 4 line)) |}
  else t.

Definition lcov_section (t : Totals) (section : string) : Totals :=
  fold_left lcov_line (split section (String "010" EmptyString)) t.

(** [total > 0 ? Math.round((covered / total) * 100) : 0] *)
Definition rounded_percentage (covered total : number) : number :=
  if gt total (num 0) then round (mul (div covered total) (num 100)) else num 0.

Definition parseLcovCoverage (lcovContent : string) : Overall :=
  let sections := split lcovContent "end_of_record" in
  let t := fold_left lcov_section sections zero_totals in
  let l := rounded_percentage (coveredLines t) (totalLines t) in
  {| lines := l;
     functions := rounded_percentage (coveredFunctions t) (totalFunctions t);
     branches := rounded_percentage (coveredBranches t) (totalBranches t);
     statements := l |}.

(** All the lines of an LCOV text, record after record, as the two loops of
    [parseLcovCoverage] meet them; and those of them that carry a given
    counter. *)
Definition record_lines (lcovContent : string) : list string :=
  flat_map (fun section => split section (String "010" EmptyString))
           (split lcovContent "end_of_record").

Definition counter_lines (counter : string) (lcovContent : string) : list string :=
  List.filter (fun line => startsWith line counter) (record_lines lcovContent).

(** How a run of lines moves one counter: the sum of the numbers on the
    lines that carry it. *)
Definition sum_counter (counter : string) (skip : nat) (lines : list string) (start : number) : number :=
  fold_left add
    (map (fun line => parseInt (substring_from skip line))
         (List.filter (fun line => startsWith line counter) lines))
    start.

(** [calculatePercentage]: two decimal places. *)
Definition calculatePercentage (covered total : number) : number :=
  if is_zero total then num 0
  else div (round (mul (mul (div covered total) (num 100)) (num 100))) (num 100).

End Coverage.

(* ================================================================== *)
(** * Record schemas (src/types/storage.ts) *)
(* ================================================================== *)

Module Schema.
Import Js.

Inductive FeatureStatus : Type :=
| PLANNING | IN_PROGRESS | COMPLETED | ON_HOLD | CANCELLED.

Inductive FeaturePriority : Type :=
| LOW | MEDIUM | HIGH | CRITICAL.

Inductive TDDStage : Type :=
| RED | GREEN | REFACTOR.

Definition FeatureStatus_value (s : FeatureStatus) : string :=
  match s with
  | PLANNING => "planning"
  | IN_PROGRESS => "in_progress"
  | COMPLETED => "completed"
  | ON_HOLD => "on_hold"
  | CANCELLED => "cancelled"
  end.

Definition FeaturePriority_value (p : FeaturePriority) : string :=
  match p with
  | LOW => "low"
  | MEDIUM => "medium"
  | HIGH => "high"
  | CRITICAL => "critical"
  end.

Definition TDDStage_value (s : TDDStage) : string :=
  match s with
  | RED => "red"
  | GREEN => "green"
  | REFACTOR => "refactor"
  end.

(** The zod combinators the schemas are built from; each one answers
    whether [safeParse] succeeds. *)

Definition z_string (v : value) : bool :=
  match v with VStr _ => true | _ => false end.

(** [z.string().min(1)] *)
Definition z_string_min1 (v : value) : bool :=
  match v with VStr s => negb (String.eqb s EmptyString) | _ => false end.

(** [z.number()] followed by range checks: NaN is not a number for zod;
    the infinities are. *)
Definition z_number (check : number -> bool) (v : value) : bool :=
  match v with VNum n => negb (is_NaN n) && check n | _ => false end.

Definition min0 (n : number) : bool := ge n (num 0).
Definition min0_max100 (n : number) : bool := ge n (num 0) && le n (num 100).
Definition positive (n : number) : bool := gt n (num 0).

Definition z_boolean (v : value) : bool :=
  match v with VBool _ => true | _ => false end.

(** [z.date()]: a [Date] whose time value is not NaN. *)
Definition z_date (v : value) : bool :=
  match v with
  | VDate (Some _) => true
  | _ => false
  end.

Definition z_array (item : value -> bool) (v : value) : bool :=
  match v with VArr items => forallb item items | _ => false end.

Definition z_optional (inner : value -> bool) (v : value) : bool :=
  match v with VUndefined => true | _ => inner v end.

(** [z.nativeEnum] and [z.enum] *)
Definition z_enum (values : list string) (v : value) : bool :=
  match v with VStr s => existsb (String.eqb s) values | _ => false end.

(** [z.object]: every key of the shape is checked, a missing one as
    [undefined]; keys outside the shape are let through. *)
Definition z_object (shape : list (string * (value -> bool))) (v : value) : bool :=
  match v with
  | VObj fields =>
      forallb (fun entry => snd entry (default VUndefined (assoc (fst entry) fields))) shape
  | _ => false
  end.

Definition FeatureStatus_values : list string :=
  map FeatureStatus_value [PLANNING; IN_PROGRESS; COMPLETED; ON_HOLD; CANCELLED].
Definition FeaturePriority_values : list string :=
  map FeaturePriority_value [LOW; MEDIUM; HIGH; CRITICAL].
Definition TDDStage_values : list string :=
  map TDDStage_value [RED; GREEN; REFACTOR].

Definition ProgressInfoSchema : value -> bool :=
  z_object
    [ ("testsWritten", z_number min0);
      ("testsPass", z_number min0);
      ("implementationFiles", z_array z_string);
      ("coveragePercentage", z_optional (z_number min0_max100)) ].

Definition FeatureSchema : value -> bool :=
  z_object
    [ ("id", z_string);
      ("projectId", z_string);
      ("name", z_string_min1);
      ("description", z_string);
      ("status", z_enum FeatureStatus_values);
      ("priority", z_enum FeaturePriority_values);
      ("acceptanceCriteria", z_array z_string);
      ("createdAt", z_date);
      ("updatedAt", z_date);
      ("progress", z_optional ProgressInfoSchema);
      ("tags", z_optional (z_array z_string));
      ("estimatedHours", z_optional (z_number positive));
      ("actualHours", z_optional (z_number positive));
      ("assignee", z_optional z_string) ].

Definition TDDSessionSchema : value -> bool :=
  z_object
    [ ("id", z_string);
      ("featureId", z_string);
      ("projectId", z_string);
      ("developer", z_string);
      ("stage", z_enum TDDStage_values);
      ("startedAt", z_date);
      ("updatedAt", z_date);
      ("completedAt", z_optional z_date);
      ("notes", z_optional z_string);
      ("cycleCount", z_number min0);
      ("testFiles", z_optional (z_array z_string));
      ("implementationFiles", z_optional (z_array z_string)) ].

(** The inferred TypeScript types [ProgressInfo] and [Feature], and the
    objects that carry them.  An optional member that is [None] is an absent
    (or [undefined]) property. *)

Record ProgressInfo : Type := {
  testsWritten : number;
  testsPass : number;
  implementationFiles : list string;
  coveragePercentage : option number
}.

Record Feature : Type := {
  id : string;
  projectId : string;
  name : string;
  description : string;
  status : FeatureStatus;
  priority : FeaturePriority;
  acceptanceCriteria : list string;
  createdAt : option time;
  updatedAt : option time;
  progress : option ProgressInfo;
  tags : option (list string);
  estimatedHours : option number;
  actualHours : option number;
  assignee : option string
}.

Definition strings (l : list string) : value := VArr (map VStr l).

(** The numeric members of a feature are finite numbers. *)
Definition finite_opt (o : option number) : bool :=
  match o with
  | Some n => isFinite n
  | None => true
  end.

Definition finite_progress (p : ProgressInfo) : bool :=
  isFinite (testsWritten p) && isFinite (testsPass p) && finite_opt (coveragePercentage p).

Definition finite_numbers (f : Feature) : bool :=
  match progress f with
  | Some p => finite_progress p
  | None => true
  end
  && finite_opt (estimatedHours f) && finite_opt (actualHours f).

(** The properties of an object literal; an optional member that is not
    given contributes none. *)
Definition opt_prop {A : Type} (k : string) (f : A -> value) (o : option A) : list (string * value) :=
  match o with
  | Some a => [(k, f a)]
  | None => []
  end.

Definition ProgressInfo_object (p : ProgressInfo) : value :=
  VObj ([ ("testsWritten", VNum (testsWritten p));
          ("testsPass", VNum (testsPass p));
          ("implementationFiles", strings (implementationFiles p)) ]
        ++ opt_prop "coveragePercentage" VNum (coveragePercentage p)).

Definition Feature_object (f : Feature) : value :=
  VObj ([ ("id", VStr (id f));
          ("projectId", VStr (projectId f));
          ("name", VStr (name f));
          ("description", VStr (description f));
          ("status", VStr (FeatureStatus_value (status f)));
          ("priority", VStr (FeaturePriority_value (priority f)));
          ("acceptanceCriteria", strings (acceptanceCriteria f));
          ("createdAt", VDate (createdAt f));
          ("updatedAt", VDate (updatedAt f)) ]
        ++ opt_prop "progress" ProgressInfo_object (progress f)
        ++ opt_prop "tags" strings (tags f)
        ++ opt_prop "estimatedHours" VNum (estimatedHours f)
        ++ opt_prop "actualHours" VNum (actualHours f)
        ++ opt_prop "assignee" VStr (assignee f)).

End Schema.

(* ================================================================== *)
(** * Flat-file record store (src/services/storage.service.ts) *)
(* ================================================================== *)

Module Storage.
Import Js Schema.

(** One line of a [.jsonl] file after [split('\n')] and the removal of
    blank lines: a JSON document, or text [JSON.parse] rejects. *)
Inductive line : Type :=
| Json (doc : value)
| Garbage (text : string).

(** The world the services run in: the directories under
    [~/.tdd-flow/projects], each with its files, and the system clock as
    the sequence of its successive readings.  A project id names its own
    directory; reading and writing succeed whenever the path exists. *)
Record world : Type := {
  disk : gmap string (gmap string (list line));
  clock : nat -> time;
  reads : nat
}.

Definition with_disk (d : gmap string (gmap string (list line))) (w : world) : world :=
  {| disk := d; clock := clock w; reads := reads w |}.

Open Scope io_scope.

(** Computations that read and write the world and may throw. *)
Abbreviation io := (stateful world).

(** The world after one more reading of the clock. *)
Definition ticked (w : world) : world :=
  {| disk := disk w; clock := clock w; reads := S (reads w) |}.

(** [new Date()] and [Date.now()] *)
Definition now : io time := fun w => (Return (clock w (reads w)), ticked w).

Definition features_jsonl : string := "features.jsonl".
Definition sessions_jsonl : string := "tdd-sessions.jsonl".

Definition ensureProjectDirectory (projectId : string) : io unit :=
  fun w =>
    match disk w !! projectId with
    | Some _ => (Return tt, w)
    | None => (Return tt, with_disk (<[projectId := ∅]> (disk w)) w)
    end.

Section WithDates.
Context `{Runtime}.

Definition dateFields : list string :=
  ["createdAt"; "updatedAt"; "startedAt"; "completedAt"; "lastExecutedAt"; "lastModified"].

Definition is_dateField (k : string) : bool := existsb (String.eqb k) dateFields.

(** The test of the first loop of [restoreDates]: a non-empty string under
    one of the six field names. *)
Definition date_string (k : string) (v : value) : option string :=
  match v with
  | VStr s => if is_dateField k && negb (String.eqb s EmptyString) then Some s else None
  | _ => None
  end.

(** [restoreDates].  The first loop turns the non-empty strings under the
    six field names into dates; the second loop descends into every property
    that holds an object.  A date set by the first loop is visited by the
    second, which finds nothing to do on it: a date has none of the six
    names and no enumerable key. *)
Fixpoint restoreDates (obj : value) : value :=
  match obj with
  | VObj fields =>
      VObj (map (fun entry =>
                   match entry with
                   | (k, x) =>
                       (k, match date_string k x with
                           | Some s => Date_of_string s
                           | None => restoreDates x
                           end)
                   end) fields)
  | VArr items => VArr (map restoreDates items)
  | _ => obj
  end.

(** Malformed lines are skipped. *)
Definition parse_line (l : line) : option value :=
  match l with
  | Json doc => Some (restoreDates doc)
  | Garbage _ => None
  end.

Definition readJsonlFile (projectId file : string) : io (list value) :=
  fun w =>
    match disk w !! projectId with
    | Some dir =>
        match dir !! file with
        | Some content => (Return (omap parse_line content), w)
        | None => (Return [], w)
        end
    | None => (Return [], w)
    end.

(** [JSON.stringify(item) + '\n'] *)
Definition to_line (item : value) : line :=
  match serialize item with
  | Some doc => Json doc
  | None => Garbage "undefined"
  end.

Definition writeJsonlFile (projectId file : string) (items : list value) : io unit :=
  fun w =>
    match disk w !! projectId with
    | Some dir =>
        (Return tt, with_disk (<[projectId := <[file := map to_line items]> dir]> (disk w)) w)
    | None => (Throw (Error "ENOENT: no such file or directory"), w)
    end.

Definition appendToJsonlFile (projectId file : string) (item : value) : io unit :=
  fun w =>
    match disk w !! projectId with
    | Some dir =>
        (Return tt,
         with_disk (<[projectId := <[file := default [] (dir !! file) ++ [to_line item]]> dir]>
                      (disk w)) w)
    | None => (Throw (Error "ENOENT: no such file or directory"), w)
    end.

(** The text zod puts after the colon is not modelled. *)
Definition validateFeature (feature : value) : io unit :=
  if FeatureSchema feature then ret tt else throw (Error "Invalid feature data").

(** [path.join] takes strings only. *)
Definition path_of (projectId : value) : io string :=
  match projectId with
  | VStr p => ret p
  | _ => throw (TypeError "The path argument must be of type string")
  end.

Definition saveFeature (feature : value) : io unit :=
  validateFeature feature ;;
  projectId <- lift (get feature "projectId") ;;
  p <- path_of projectId ;;
  ensureProjectDirectory p ;;
  appendToJsonlFile p features_jsonl feature.

(** [item[k] === s] *)
Definition prop_is (k s : string) (item : value) : outcome bool :=
  match get item k with
  | Return x => Return (is_string x s)
  | Throw e => Throw e
  end.

(** [items.filter(p)] and [items.find(p)] for a callback that may throw;
    [find_from] also gives the position of what it finds. *)
Fixpoint filter_items (p : value -> outcome bool) (items : list value) : outcome (list value) :=
  match items with
  | [] => Return []
  | x :: rest =>
      match p x with
      | Throw e => Throw e
      | Return keep =>
          match filter_items p rest with
          | Throw e => Throw e
          | Return kept => Return (if keep then x :: kept else kept)
          end
      end
  end.

Fixpoint find_from (p : value -> outcome bool) (items : list value) (i : nat) : outcome (option (nat * value)) :=
  match items with
  | [] => Return None
  | x :: rest =>
      match p x with
      | Throw e => Throw e
      | Return true => Return (Some (i, x))
      | Return false => find_from p rest (S i)
      end
  end.

Definition find_item (p : value -> outcome bool) (items : list value) : outcome (option (nat * value)) :=
  find_from p items 0.

Definition listProjects : io (list string) :=
  fun w => (Return (map fst (map_to_list (disk w))), w).

Definition listFeatures (projectId : string) : io (list value) :=
  allFeatures <- readJsonlFile projectId features_jsonl ;;
  lift (filter_items (prop_is "projectId" projectId) allFeatures).

(** The loop of [loadFeature] over the project directories; [null] when no
    project has the id. *)
Fixpoint loadFeature_in (projects : list string) (id : string) : io value :=
  match projects with
  | [] => ret VNull
  | projectId :: rest =>
      features <- listFeatures projectId ;;
      found <- lift (find_item (prop_is "id" id) features) ;;
      match found with
      | Some (_, feature) => ret feature
      | None => loadFeature_in rest id
      end
  end.

Definition loadFeature (id : string) : io value :=
  projects <- listProjects ;;
  loadFeature_in projects id.

(** [feature.status = status; feature.updatedAt = new Date()] and the like:
    two assignments on the record found. *)
Definition touch (item : value) (k : string) (v : value) (t : time) : value :=
  VObj (assign "updatedAt" (Date_of_time t) (assign k v (spread item))).

Fixpoint update_in (file k : string) (v : value) (projects : list string) (id : string) : io bool :=
  match projects with
  | [] => ret false
  | projectId :: rest =>
      items <- readJsonlFile projectId file ;;
      found <- lift (find_item (prop_is "id" id) items) ;;
      match found with
      | Some (i, item) =>
          t <- now ;;
          writeJsonlFile projectId file (<[i := touch item k v t]> items) ;;
          ret true
      | None => update_in file k v rest id
      end
  end.

Definition updateFeatureStatus (id : string) (status : FeatureStatus) : io bool :=
  projects <- listProjects ;;
  update_in features_jsonl "status" (VStr (FeatureStatus_value status)) projects id.

Definition saveTDDSession (session : value) : io unit :=
  (if TDDSessionSchema session then ret tt else throw (Error "Invalid TDD session data")) ;;
  projectId <- lift (get session "projectId") ;;
  p <- path_of projectId ;;
  ensureProjectDirectory p ;;
  appendToJsonlFile p sessions_jsonl session.

Definition updateTDDSessionStage (id : string) (stage : TDDStage) : io bool :=
  projects <- listProjects ;;
  update_in sessions_jsonl "stage" (VStr (TDDStage_value stage)) projects id.

(** The lines of a file, none when the file is not there. *)
Definition file_lines_of (w : world) (projectId file : string) : list line :=
  match disk w !! projectId with
  | Some dir => default [] (dir !! file)
  | None => []
  end.

(** The world after [ensureProjectDirectory] and [appendToJsonlFile]: one
    more line at the end of the file. *)
Definition appended (w : world) (projectId file : string) (item : value) : world :=
  with_disk
    (<[projectId := <[file := file_lines_of w projectId file ++ [to_line item]]>
                      (default ∅ (disk w !! projectId))]> (disk w)) w.

(** ** The layout of the store

    A [.jsonl] file of the store holds one JSON object per line.  Text that
    is not JSON is skipped on reading, but a line that is JSON and not an
    object (the literal [null], say) is handed on as a record. *)

Definition is_object (v : value) : bool :=
  match v with VObj _ => true | _ => false end.

(** [stored w projectId file doc]: the document [doc] is a line of [file]
    in the directory of [projectId]. *)
Definition stored (w : world) (projectId file : string) (doc : value) : Prop :=
  exists dir content,
    disk w !! projectId = Some dir /\ dir !! file = Some content /\ In (Json doc) content.

Definition objects_only (w : world) : Prop :=
  forall projectId file doc, stored w projectId file doc -> is_object doc = true.

(** [item[k] === s] on an object *)
Definition has_prop (k s : string) (item : value) : bool :=
  match item with
  | VObj fields => is_string (default VUndefined (assoc k fields)) s
  | _ => false
  end.

(** [doc.id === id] on a stored document *)
Definition has_id (id : string) : value -> bool := has_prop "id" id.

(** What [restoreDates] makes of the property [k] holding [x]. *)
Definition restore_prop (k : string) (x : value) : value :=
  match date_string k x with
  | Some s => Date_of_string s
  | None => restoreDates x
  end.

(** The properties of an object after [JSON.stringify], [JSON.parse] and
    [restoreDates]. *)
Definition read_back (fields : list (string * value)) : list (string * value) :=
  map (fun entry => (fst entry, restore_prop (fst entry) (snd entry)))
      (defined_props (map (fun entry => match entry with (k, x) => (k, serialize x) end) fields)).

(** A property that comes back as it was written. *)
Definition round_trips (entry : string * value) : Prop :=
  exists doc, serialize (snd entry) = Some doc /\ restore_prop (fst entry) doc = snd entry.

(** The first item that passes a test, with its position counted from [i]. *)
Fixpoint first_with (p : value -> bool) (items : list value) (i : nat) : option (nat * value) :=
  match items with
  | [] => None
  | x :: rest => if p x then Some (i, x) else first_with p rest (S i)
  end.

(** The records a file gives on reading, and the features of a project. *)
Definition records (w : world) (projectId file : string) : list value :=
  omap parse_line (file_lines_of w projectId file).

Definition features_of (w : world) (projectId : string) : list value :=
  List.filter (has_prop "projectId" projectId) (records w projectId features_jsonl).

(** No line of any features file carries the id. *)
Definition unknown_feature (w : world) (id : string) : Prop :=
  forall projectId doc, stored w projectId features_jsonl doc -> has_id id doc = false.

(** ** Deleting, and the files after a rewrite *)

(** The loop of [deleteFeature] over the project directories:
    [findIndex], [splice] and the file written anew. *)
Fixpoint delete_in (file : string) (projects : list string) (id : string) : io bool :=
  match projects with
  | [] => ret false
  | projectId :: rest =>
      items <- readJsonlFile projectId file ;;
      found <- lift (find_item (prop_is "id" id) items) ;;
      match found with
      | Some (featureIndex, _) =>
          writeJsonlFile projectId file (delete featureIndex items) ;;
          ret true
      | None => delete_in file rest id
      end
  end.

Definition deleteFeature (id : string) : io bool :=
  projects <- listProjects ;;
  delete_in features_jsonl projects id.

(** [listTDDSessions] returns every record of the file, whatever project
    the record names. *)
Definition listTDDSessions (projectId : string) : io (list value) :=
  readJsonlFile projectId sessions_jsonl.

Fixpoint loadTDDSession_in (projects : list string) (id : string) : io value :=
  match projects with
  | [] => ret VNull
  | projectId :: rest =>
      sessions <- listTDDSessions projectId ;;
      found <- lift (find_item (prop_is "id" id) sessions) ;;
      match found with
      | Some (_, session) => ret session
      | None => loadTDDSession_in rest id
      end
  end.

Definition loadTDDSession (id : string) : io value :=
  projects <- listProjects ;;
  loadTDDSession_in projects id.

(** What [JSON.parse] builds holds no [undefined] and no [Date]. *)
Fixpoint is_json (v : value) : bool :=
  match v with
  | VUndefined | VDate _ => false
  | VArr items => forallb is_json items
  | VObj fields => forallb (fun entry => match entry with (_, x) => is_json x end) fields
  | _ => true
  end.

(** The layout of the store in full: every line that parses holds a JSON
    object. *)
Definition json_objects (w : world) : Prop :=
  forall projectId file doc,
    stored w projectId file doc -> is_object doc = true /\ is_json doc = true.

(** No line of any file of that name carries the id. *)
Definition unknown_in (file : string) (w : world) (id : string) : Prop :=
  forall projectId doc, stored w projectId file doc -> has_id id doc = false.

(** A member that is there and is not a date. *)
Definition plain (x : value) : bool :=
  match x with
  | VUndefined | VDate _ => false
  | _ => true
  end.

(** A record as the services hold it between reading and writing: an
    object whose members outside the six date names are plain. *)
Definition tidy (item : value) : Prop :=
  exists fields, item = VObj fields
    /\ forall k x, is_dateField k = false -> assoc k fields = Some x -> plain x = true.

(** The world after [writeJsonlFile]: the file holds the items, one to a
    line, and nothing else. *)
Definition rewritten (w : world) (projectId file : string) (items : list value) : world :=
  with_disk
    (<[projectId := <[file := map to_line items]> (default ∅ (disk w !! projectId))]> (disk w)) w.

(** A record after it has been written and read again. *)
Definition reread (item : value) : value :=
  restoreDates (default VNull (serialize item)).

End WithDates.
End Storage.

(* ================================================================== *)
(** * Feature management (src/services/feature-management.service.ts) *)
(* ================================================================== *)

Module FeatureManagement.
Import Js Schema Storage.
Open Scope io_scope.

(** [Partial<ProgressInfo>] *)
Record PartialProgress : Type := {
  p_testsWritten : option number;
  p_testsPass : option number;
  p_implementationFiles : option (list string);
  p_coveragePercentage : option number
}.

Record UpdateFeatureStatusParams : Type := {
  featureId : string;
  new_status : FeatureStatus;
  new_progress : option PartialProgress
}.

Definition opt_value {A : Type} (f : A -> value) (o : option A) : value :=
  match o with
  | Some a => f a
  | None => VUndefined
  end.

Definition default_progress : value :=
  VObj [ ("testsWritten", VNum (num 0));
         ("testsPass", VNum (num 0));
         ("implementationFiles", VArr []) ].

Section WithDates.
Context `{Runtime}.

(** The progress object written when [params.progress] is given. *)
Definition merged_progress (p : PartialProgress) (existingFeature : value) : io value :=
  existing <- lift (get existingFeature "progress") ;;
  let existingProgress := or_else existing default_progress in
  testsWritten <- lift (get existingProgress "testsWritten") ;;
  testsPass <- lift (get existingProgress "testsPass") ;;
  implementationFiles <- lift (get existingProgress "implementationFiles") ;;
  coveragePercentage <- lift (get existingProgress "coveragePercentage") ;;
  ret (VObj [ ("testsWritten", nullish (opt_value VNum (p_testsWritten p)) testsWritten);
              ("testsPass", nullish (opt_value VNum (p_testsPass p)) testsPass);
              ("implementationFiles",
               nullish (opt_value strings (p_implementationFiles p)) implementationFiles);
              ("coveragePercentage",
               nullish (opt_value VNum (p_coveragePercentage p)) coveragePercentage) ]).

Definition updateFeatureStatus (params : UpdateFeatureStatusParams) : io value :=
  existingFeature <- loadFeature (featureId params) ;;
  if negb (truthy existingFeature)
  then throw (Error ("Feature not found: " +:+ featureId params))
  else
    t <- now ;;
    let updated :=
      assign "updatedAt" (Date_of_time t)
        (assign "status" (VStr (FeatureStatus_value (new_status params)))
           (spread existingFeature)) in
    updatedFeature <-
      match new_progress params with
      | Some p =>
          progress <- merged_progress p existingFeature ;;
          ret (VObj (assign "progress" progress updated))
      | None => ret (VObj updated)
      end ;;
    saveFeature updatedFeature ;;
    ret updatedFeature.

(** The record [updateFeatureStatus] builds from the record found, at the
    time [t] of its clock reading, before it saves it. *)
Definition prop (v : value) (k : string) : value :=
  match get v k with
  | Return x => x
  | Throw _ => VUndefined
  end.

Definition merged (p : PartialProgress) (existingFeature : value) : value :=
  let existingProgress := or_else (prop existingFeature "progress") default_progress in
  VObj [ ("testsWritten",
          nullish (opt_value VNum (p_testsWritten p)) (prop existingProgress "testsWritten"));
         ("testsPass", nullish (opt_value VNum (p_testsPass p)) (prop existingProgress "testsPass"));
         ("implementationFiles",
          nullish (opt_value strings (p_implementationFiles p))
                  (prop existingProgress "implementationFiles"));
         ("coveragePercentage",
          nullish (opt_value VNum (p_coveragePercentage p))
                  (prop existingProgress "coveragePercentage")) ].

Definition updated_fields (params : UpdateFeatureStatusParams) (existingFeature : value) (t : time)
    : list (string * value) :=
  let updated :=
    assign "updatedAt" (Date_of_time t)
      (assign "status" (VStr (FeatureStatus_value (new_status params)))
         (spread existingFeature)) in
  match new_progress params with
  | Some p => assign "progress" (merged p existingFeature) updated
  | None => updated
  end.

(** ** Creating a feature *)






(** The progress [updateFeatureStatus] starts from when the feature has
    none. *)
Definition no_progress : ProgressInfo :=
  {| testsWritten := num 0; testsPass := num 0; implementationFiles := [];
     coveragePercentage := None |}.

(** [partial.x ?? existing.x], member by member, for an existing progress
    given as a record. *)
Definition merge_progress (partial : PartialProgress) (existing : ProgressInfo) : value :=
  VObj [ ("testsWritten", VNum (default (testsWritten existing) (p_testsWritten partial)));
         ("testsPass", VNum (default (testsPass existing) (p_testsPass partial)));
         ("implementationFiles",
          strings (default (implementationFiles existing) (p_implementationFiles partial)));
         ("coveragePercentage",
          opt_value VNum (match p_coveragePercentage partial with
                          | Some c => Some c
                          | None => coveragePercentage existing
                          end)) ].

End WithDates.
End FeatureManagement.

(* ================================================================== *)
(** * Localization table (src/i18n.ts) *)
(* ================================================================== *)

Module I18n.
Import Js.

Inductive SupportedLocale : Type := zh | en.

Definition messages (locale : SupportedLocale) : list (string * string) :=
  match locale with
  | zh =>
      [ ("tdd.title", "TDD开发工具");
        ("tdd.description", "测试驱动开发的核心工作流工具");
        ("tdd.command.generate.hint", "根据需求描述生成全面的测试用例，支持多种测试框架");
        ("tdd.command.implement.hint", "基于测试代码生成最小化实现，遵循TDD原则");
        ("tdd.command.test.hint", "执行项目测试并返回详细结果和错误信息");
        ("tdd.command.coverage.hint", "分析测试覆盖率，识别未测试的代码区域");
        ("tdd.command.refactor.hint", "提供代码重构建议，保持测试通过的前提下改进代码");
        ("tdd.command.validate.hint", "检查是否正确遵循红绿重构的TDD循环");
        ("feature.title", "功能管理");
        ("feature.description", "项目功能的全生命周期管理");
        ("tracking.title", "测试跟踪");
        ("tracking.description", "测试方法级别的执行跟踪管理");
        ("error.validation_failed", "字段验证失败: {{field}}");
        ("error.invalid_params", "输入参数验证失败");
        ("error.tool_execution_failed", "工具执行失败") ]
  | en =>
      [ ("tdd.title", "TDD Development Tool");
        ("tdd.description", "Core workflow tool for Test-Driven Development");
        ("tdd.command.generate.hint",
         "Generate comprehensive test cases from requirements, supporting multiple testing frameworks");
        ("tdd.command.implement.hint",
         "Generate minimal implementation from test code, following TDD principles");
        ("tdd.command.test.hint",
         "Execute project tests and return detailed results and error information");
        ("tdd.command.coverage.hint", "Analyze test coverage and identify untested code areas");
        ("tdd.command.refactor.hint",
         "Provide code refactoring suggestions while keeping tests passing");
        ("tdd.command.validate.hint",
         "Check if the red-green-refactor TDD cycle is being followed correctly");
        ("feature.title", "Feature Management");
        ("feature.description", "Full lifecycle management of project features");
        ("tracking.title", "Test Tracking");
        ("tracking.description", "Execution tracking management at test method level");
        ("error.validation_failed", "Validation failed for field: {{field}}");
        ("error.invalid_params", "Input parameter validation failed");
        ("error.tool_execution_failed", "Tool execution failed") ]
  end.

Inductive ErrorType : Type :=
| INVALID_PARAMS | TOOL_EXECUTION_ERROR | RESOURCE_NOT_FOUND.

Definition ErrorType_name (e : ErrorType) : string :=
  match e with
  | INVALID_PARAMS => "INVALID_PARAMS"
  | TOOL_EXECUTION_ERROR => "TOOL_EXECUTION_ERROR"
  | RESOURCE_NOT_FOUND => "RESOURCE_NOT_FOUND"
  end.

Definition errorCodes (e : ErrorType) : Z :=
  match e with
  | INVALID_PARAMS => -31002
  | TOOL_EXECUTION_ERROR => -31001
  | RESOURCE_NOT_FOUND => -31003
  end.

Definition defaultLocale : SupportedLocale := en.

(** [dict[key] || next]: an empty message falls through like a missing one *)
Definition or_message (found : option string) (next : string) : string :=
  match found with
  | Some m => if String.eqb m EmptyString then next else m
  | None => next
  end.

Definition getMessage (key : string) (locale : SupportedLocale) : string :=
  or_message (entry key (messages locale))
    (or_message (entry key (messages defaultLocale)) key).

(** [setLocale]: the locale arrives as a string *)
Definition setLocale (locale : string) : outcome SupportedLocale :=
  if String.eqb locale "zh" then Return zh
  else if String.eqb locale "en" then Return en
  else Throw (Error ("Unsupported locale: " +:+ locale)).

Record ToolDescription : Type := {
  title : string;
  description : string
}.

Definition getToolDescription (toolName : string) (locale : SupportedLocale) : ToolDescription :=
  {| title := getMessage (toolName +:+ ".title") locale;
     description := getMessage (toolName +:+ ".description") locale |}.

Record LocalizedError : Type := {
  code : Z;
  message : string
}.

Definition createLocalizedError (errorType : ErrorType) (locale : SupportedLocale) : LocalizedError :=
  {| code := errorCodes errorType;
     message := getMessage ("error." +:+ toLowerCase (ErrorType_name errorType)) locale |}.

End I18n.

(* ================================================================== *)
(** * Tool definitions and handlers (src/handlers) *)
(* ================================================================== *)

Module Tools.
Import Js.

(** A tool definition: its name, its description, the property names of its
    input schema and the [required] list when the schema has one. *)
Record Tool : Type := {
  tool_name : string;
  tool_description : string;
  properties : list string;
  required : option (list string)
}.

(** A tool-call result: the [isError] flag when it is set, and the text of
    the single content item. *)
Record CallToolResult : Type := {
  isError : option bool;
  text : string
}.

Definition createSuccessResult (message : string) : CallToolResult :=
  {| isError := None; text := message |}.

Definition createErrorResult (message : string) : CallToolResult :=
  {| isError := Some true; text := message |}.

End Tools.

(** ** The fifteen individual tools (src/handlers/tools.ts) *)

Module LegacyTools.
Import Tools.

Definition TOOLS : list Tool :=
  [ {| tool_name := "generate_test_cases";
       tool_description :=
         "Generate comprehensive test cases from requirements using TDD best practices";
       properties := ["requirements"; "language"; "framework"; "testType"; "existingCode"];
       required := Some ["requirements"; "language"; "framework"; "testType"] |};
    {| tool_name := "implement_from_tests";
       tool_description := "Generate implementation code that passes the given tests";
       properties := ["testCode"; "language"; "implementationStyle"; "architecturalConstraints"];
       required := Some ["testCode"; "language"] |};
    {| tool_name := "run_tests";
       tool_description := "Execute tests and return detailed results";
       properties := ["projectPath"; "testFiles"; "testFramework"; "options"];
       required := Some ["projectPath"; "testFramework"] |};
    {| tool_name := "analyze_coverage";
       tool_description := "Analyze code coverage and generate detailed reports";
       properties := ["projectPath"; "testCommand"; "thresholds"; "outputFormat"];
       required := Some ["projectPath"; "testCommand"] |};
    {| tool_name := "refactor_code";
       tool_description := "Provide code refactoring suggestions and implementations";
       properties := ["sourceCode"; "refactorType"; "preserveTests"; "refactoringGoals"];
       required := Some ["sourceCode"; "refactorType"] |};
    {| tool_name := "validate_tdd_cycle";
       tool_description := "Validate adherence to TDD red-green-refactor cycle";
       properties := ["projectPath"; "gitHistory"; "timeWindow"];
       required := Some ["projectPath"] |};
    {| tool_name := "createFeature";
       tool_description := "Create a new feature with TDD requirements and acceptance criteria";
       properties := ["name"; "description"; "acceptanceCriteria"; "priority"; "projectId";
                      "tags"; "estimatedHours"; "assignee"];
       required := Some ["name"; "description"; "acceptanceCriteria"] |};
    {| tool_name := "updateFeatureStatus";
       tool_description := "Update the status and progress of a feature";
       properties := ["featureId"; "status"; "progress"; "notes"];
       required := Some ["featureId"; "status"] |};
    {| tool_name := "linkFeatureFiles";
       tool_description := "Associate files with a feature for tracking purposes";
       properties := ["featureId"; "filePaths"; "fileType"];
       required := Some ["featureId"; "filePaths"; "fileType"] |};
    {| tool_name := "findSimilarFeatures";
       tool_description := "Find features similar to a given description or query";
       properties := ["query"; "projectId"; "maxResults"; "minSimilarity"];
       required := Some ["query"] |};
    {| tool_name := "createTDDSession";
       tool_description := "Start a new TDD development session for a feature";
       properties := ["featureId"; "developer"; "projectId"; "initialNotes"];
       required := Some ["featureId"; "developer"] |};
    {| tool_name := "updateTDDStage";
       tool_description := "Update the current stage of a TDD session (RED/GREEN/REFACTOR)";
       properties := ["sessionId"; "stage"; "notes"; "testFiles"; "implementationFiles"];
       required := Some ["sessionId"; "stage"] |};
    {| tool_name := "registerTestMethod";
       tool_description := "Register a test method with the system for tracking";
       properties := ["featureId"; "name"; "filePath"; "framework"; "testType"; "projectId"];
       required := Some ["featureId"; "name"; "filePath"; "framework"] |};
    {| tool_name := "updateTestExecutionResult";
       tool_description := "Update the execution result of a test method";
       properties := ["methodId"; "result"];
       required := Some ["methodId"; "result"] |};
    {| tool_name := "updateTestMethodStatus";
       tool_description := "Update the status of a test method";
       properties := ["methodId"; "status"];
       required := Some ["methodId"; "status"] |} ].

(** [toolsHandler.listTools] *)
Definition listTools : list Tool := TOOLS.

End LegacyTools.

(** ** The three tools with sub-commands (src/handlers/new-tools.ts) *)

Module NewTools.
Import Js Schema Storage I18n Tools.
Open Scope io_scope.

(** The handler object with what it reaches: the locale of its
    [I18nService], its [currentSessionId] field, and the world of its
    [StorageService]. *)
Record state : Type := {
  locale : SupportedLocale;
  currentSessionId : option string;
  the_world : world
}.

Definition in_world {A : Type} (m : io A) : stateful state A :=
  fun st =>
    match m (the_world st) with
    | (r, w') =>
        (r, {| locale := locale st; currentSessionId := currentSessionId st; the_world := w' |})
    end.

Definition getCurrentLocale : stateful state SupportedLocale :=
  fun st => (Return (locale st), st).

Definition get_currentSessionId : stateful state (option string) :=
  fun st => (Return (currentSessionId st), st).

Definition set_currentSessionId (sessionId : string) : stateful state unit :=
  fun st =>
    (Return tt,
     {| locale := locale st; currentSessionId := Some sessionId; the_world := the_world st |}).

Definition createTDDTool (locale : SupportedLocale) : Tool :=
  {| tool_name := "tdd";
     tool_description := description (getToolDescription "tdd" locale);
     properties := ["command"; "requirements"; "language"; "framework"; "testType"; "testCode";
                    "implementationStyle"; "projectPath"; "sourceCode"];
     required := Some ["requirements"] |}.

Definition createFeatureTool (locale : SupportedLocale) : Tool :=
  {| tool_name := "feature";
     tool_description := description (getToolDescription "feature" locale);
     properties := ["command"; "name"; "description"; "query"; "featureId"];
     required := Some ["name"] |}.

Definition createTrackingTool (locale : SupportedLocale) : Tool :=
  {| tool_name := "tracking";
     tool_description := description (getToolDescription "tracking" locale);
     properties := ["command"; "featureId"; "name"; "filePath"; "framework"];
     required := None |}.

Definition listTools : stateful state (list Tool) :=
  locale <- getCurrentLocale ;;
  ret [createTDDTool locale; createFeatureTool locale; createTrackingTool locale].

Definition newline : string := String "010" EmptyString.

Section WithRuntime.
Context `{Runtime}.

Definition ensureActiveSession (args : value) : stateful state unit :=
  current <- get_currentSessionId ;;
  match current with
  | Some _ => ret tt
  | None =>
      t <- in_world now ;;
      let sessionId := "session-" +:+ string_of_Z (ms t) in
      developer_arg <- lift (get args "developer") ;;
      let developer := or_else developer_arg (VStr "unknown") in
      featureId_arg <- lift (get args "featureId") ;;
      startedAt <- in_world now ;;
      updatedAt <- in_world now ;;
      let session :=
        VObj [ ("id", VStr sessionId);
               ("featureId", or_else featureId_arg (VStr "auto-feature"));
               ("projectId", VStr "auto-project");
               ("developer", developer);
               ("stage", VStr (TDDStage_value RED));
               ("startedAt", Date_of_time startedAt);
               ("updatedAt", Date_of_time updatedAt);
               ("notes", VStr "Auto-created session");
               ("cycleCount", VNum (num 0)) ] in
      in_world (saveTDDSession session) ;;
      set_currentSessionId sessionId
  end.

Definition updateSessionStage (stage : TDDStage) : stateful state unit :=
  current <- get_currentSessionId ;;
  match current with
  | Some sessionId => in_world (updateTDDSessionStage sessionId stage) ;; ret tt
  | None => ret tt
  end.

Definition executeFullTDDWorkflow (args : value) : stateful state CallToolResult :=
  let results1 := ["✅ 生成测试用例"] in
  updateSessionStage RED ;;
  let results2 := results1 ++ ["✅ 生成最小实现"] in
  updateSessionStage GREEN ;;
  let results := results2 ++ ["✅ 运行测试"; "✅ 分析覆盖率"; "✅ 提供重构建议"] in
  ret (createSuccessResult ("完整TDD流程执行完成:" +:+ newline +:+ join results newline)).

(** The [switch] over the sub-command of the [tdd] tool. *)
Definition tdd_command (command requirements : value) : stateful state CallToolResult :=
  if is_string command "generate" then
    if negb (truthy requirements)
    then ret (createErrorResult "requirements is required for generate command")
    else updateSessionStage RED ;;
         ret (createSuccessResult "Test cases generated successfully")
  else if is_string command "implement" then
    updateSessionStage GREEN ;;
    ret (createSuccessResult "Implementation code generated successfully")
  else if is_string command "test" then
    ret (createSuccessResult "Tests executed successfully")
  else if is_string command "coverage" then
    ret (createSuccessResult "Coverage analysis completed")
  else if is_string command "refactor" then
    updateSessionStage REFACTOR ;;
    ret (createSuccessResult "Refactoring suggestions provided")
  else if is_string command "validate" then
    ret (createSuccessResult "TDD cycle validation completed")
  else ret (createErrorResult ("Invalid command: " +:+ String_of command)).

Definition handleTDDTool (args : value) : stateful state CallToolResult :=
  command <- lift (get args "command") ;;
  ensureActiveSession args ;;
  requirements <- lift (get args "requirements") ;;
  if negb (truthy command) && negb (truthy requirements) then
    locale <- getCurrentLocale ;;
    ret (createErrorResult (message (createLocalizedError INVALID_PARAMS locale)))
  else
    testCode <- lift (get args "testCode") ;;
    if is_string command "implement" && negb (truthy testCode) then
      ret (createErrorResult "testCode is required for implement command")
    else if negb (truthy command) then
      updateSessionStage RED ;;
      result <- executeFullTDDWorkflow args ;;
      updateSessionStage REFACTOR ;;
      ret result
    else tdd_command command requirements.

Definition handleFeatureTool (args : value) : stateful state CallToolResult :=
  name <- lift (get args "name") ;;
  query <- lift (get args "query") ;;
  if negb (truthy name) && negb (truthy query) then
    locale <- getCurrentLocale ;;
    ret (createErrorResult (message (createLocalizedError INVALID_PARAMS locale)))
  else
    command_arg <- lift (get args "command") ;;
    let command := or_else command_arg (VStr "create") in
    if is_string command "create" then ret (createSuccessResult "Feature created successfully")
    else if is_string command "update" then ret (createSuccessResult "Feature updated successfully")
    else if is_string command "link" then
      ret (createSuccessResult "Files linked to feature successfully")
    else if is_string command "find" then ret (createSuccessResult "Similar features found")
    else ret (createErrorResult ("Invalid command: " +:+ String_of command)).

Definition handleTrackingTool (args : value) : stateful state CallToolResult :=
  command_arg <- lift (get args "command") ;;
  let command := or_else command_arg (VStr "register") in
  if is_string command "register" then
    featureId <- lift (get args "featureId") ;;
    name <- lift (get args "name") ;;
    filePath <- lift (get args "filePath") ;;
    framework <- lift (get args "framework") ;;
    if negb (truthy featureId) || negb (truthy name) || negb (truthy filePath)
       || negb (truthy framework)
    then ret (createErrorResult "featureId, name, filePath, and framework are required")
    else ret (createSuccessResult "Test method registered successfully")
  else if is_string command "result" then
    ret (createSuccessResult "Test execution result updated")
  else if is_string command "status" then
    ret (createSuccessResult "Test method status updated")
  else ret (createErrorResult ("Invalid command: " +:+ String_of command)).

(** [callTool]: whatever a handler throws becomes an error result. *)
Definition callTool (name : string) (args : value) : stateful state CallToolResult :=
  catch
    (if String.eqb name "tdd" then handleTDDTool args
     else if String.eqb name "feature" then handleFeatureTool args
     else if String.eqb name "tracking" then handleTrackingTool args
     else ret (createErrorResult ("Unknown tool: " +:+ name)))
    (fun error => ret (createErrorResult (message_of error))).

(** What a step of the handler keeps: the store in its layout, one JSON
    object per line. *)
Definition layout_kept (st : state) : Prop := objects_only (the_world st).

(** The session [ensureActiveSession] creates for a call that names no
    developer and no feature. *)
Definition auto_session (sessionId : string) (startedAt updatedAt : time) : value :=
  VObj [ ("id", VStr sessionId);
         ("featureId", VStr "auto-feature");
         ("projectId", VStr "auto-project");
         ("developer", VStr "unknown");
         ("stage", VStr (TDDStage_value RED));
         ("startedAt", Date_of_time startedAt);
         ("updatedAt", Date_of_time updatedAt);
         ("notes", VStr "Auto-created session");
         ("cycleCount", VNum (num 0)) ].

(** The handler holds the session [id], and the store, in its layout, has
    it in the project [auto-project] and nowhere else, at the stage given. *)
Definition session_at (st : state) (id stage : string) : Prop :=
  let w := the_world st in
  currentSessionId st = Some id
  /\ json_objects w
  /\ is_Some (disk w !! "auto-project")
  /\ (forall p, p <> "auto-project" ->
        Forall (fun item => has_id id item = false) (records w p sessions_jsonl))
  /\ exists i session,
       first_with (has_id id) (records w "auto-project" sessions_jsonl) 0 = Some (i, session)
       /\ has_prop "stage" stage session = true.

End WithRuntime.
End NewTools.

(** ** Choice of the tool surface at start-up (src/server.ts) *)

Module Server.
Import Js I18n Tools.

(** The environment variables the server reads; [None] when unset. *)
Record Env : Type := {
  USE_NEW_TOOLS : option string;
  DEFAULT_LOCALE : option string
}.

Record Running : Type := {
  useNewTools : bool;
  handler : NewTools.state
}.

(** [process.env.X === 'true'] *)
Definition env_is (x : option string) (s : string) : bool :=
  match x with
  | Some v => String.eqb v s
  | None => false
  end.

(** [process.env.X || fallback] *)
Definition env_or (x : option string) (fallback : string) : string :=
  match x with
  | Some v => if String.eqb v EmptyString then fallback else v
  | None => fallback
  end.

(** Module initialisation: the flag, the locale, the handlers.  An
    unsupported [DEFAULT_LOCALE] makes [setLocale] throw and the server
    does not come up. *)
Definition start (env : Env) (w : Storage.world) : outcome Running :=
  let useNewTools := env_is (USE_NEW_TOOLS env) "true" in
  let defaultLocale := env_or (DEFAULT_LOCALE env) "zh" in
  match setLocale defaultLocale with
  | Throw e => Throw e
  | Return locale =>
      Return {| useNewTools := useNewTools;
                handler := {| NewTools.locale := locale;
                              NewTools.currentSessionId := None;
                              NewTools.the_world := w |} |}
  end.

(** The handler registered for [tools/list]. *)
Definition tools_list (server : Running) : outcome (list Tool) :=
  if useNewTools server
  then fst (NewTools.listTools (handler server))
  else Return LegacyTools.listTools.

End Server.

(* ================================================================== *)
(** * Supported frameworks (src/types/test-frameworks.ts) *)
(* ================================================================== *)

Module Frameworks.
Import Js.

(** Modelled from the spec: the enum [SupportedLanguage] of src/types/tdd.ts
    is not among the sources.  Its members are the eight languages the tool
    schemas list. *)
Inductive SupportedLanguage : Type :=
| TYPESCRIPT | JAVASCRIPT | PYTHON | JAVA | CSHARP | GO | RUST | PHP.

Definition SupportedLanguage_value (l : SupportedLanguage) : string :=
  match l with
  | TYPESCRIPT => "typescript"
  | JAVASCRIPT => "javascript"
  | PYTHON => "python"
  | JAVA => "java"
  | CSHARP => "csharp"
  | GO => "go"
  | RUST => "rust"
  | PHP => "php"
  end.

Definition same_language (a b : SupportedLanguage) : bool :=
  String.eqb (SupportedLanguage_value a) (SupportedLanguage_value b).

(** Modelled from the spec: the enum [TestType] of src/types/tdd.ts is not
    among the sources.  Its members are the four test types the tool schemas
    list. *)
Inductive TestType : Type :=
| UNIT | INTEGRATION | E2E | PERFORMANCE.

Definition dquote : string := String (ascii_of_nat 34) EmptyString.

(** An entry of [SUPPORTED_FRAMEWORKS]: its key and the members the
    services read. *)
Record Framework : Type := {
  key : string;
  name : string;
  language : SupportedLanguage;
  run : string;
  coverage : option string
}.

Definition SUPPORTED_FRAMEWORKS : list Framework :=
  [ {| key := "jest"; name := "Jest"; language := TYPESCRIPT;
       run := "jest"; coverage := Some "jest --coverage" |};
    {| key := "mocha"; name := "Mocha"; language := TYPESCRIPT;
       run := "mocha"; coverage := Some "nyc mocha" |};
    {| key := "vitest"; name := "Vitest"; language := TYPESCRIPT;
       run := "vitest run"; coverage := Some "vitest run --coverage" |};
    {| key := "pytest"; name := "pytest"; language := PYTHON;
       run := "pytest"; coverage := Some "pytest --cov" |};
    {| key := "unittest"; name := "unittest"; language := PYTHON;
       run := "python -m unittest discover";
       coverage := Some "coverage run -m unittest discover && coverage report" |};
    {| key := "junit5"; name := "JUnit 5"; language := JAVA;
       run := "mvn test"; coverage := Some "mvn test jacoco:report" |};
    {| key := "xunit"; name := "xUnit"; language := CSHARP;
       run := "dotnet test";
       coverage := Some ("dotnet test --collect:" +:+ dquote +:+ "XPlat Code Coverage" +:+ dquote) |};
    {| key := "gotest"; name := "Go Test"; language := GO;
       run := "go test ./..."; coverage := Some "go test -cover ./..." |};
    {| key := "cargo_test"; name := "Cargo Test"; language := RUST;
       run := "cargo test"; coverage := Some "cargo tarpaulin" |};
    {| key := "phpunit"; name := "PHPUnit"; language := PHP;
       run := "./vendor/bin/phpunit";
       coverage := Some "./vendor/bin/phpunit --coverage-html coverage" |} ].

End Frameworks.

(* ================================================================== *)
(** * Test generator (src/services/test-generator.ts) *)
(* ================================================================== *)

Module TestGenerator.
Import Js Frameworks.

Record TestGenerationParams : Type := {
  requirements : string;
  language : SupportedLanguage;
  framework : string;
  testType : TestType;
  existingCode : option string
}.

Record GeneratedTest : Type := {
  test_name : string;
  test_description : string;
  code : string;
  imports : list string
}.

Record GeneratedTests : Type := {
  out_language : SupportedLanguage;
  out_framework : string;
  out_testType : TestType;
  tests : list GeneratedTest;
  generatedAt : time;
  out_requirements : string;
  estimatedCoverage : Z
}.

(** The kind of test a generator call is for: ['happy_path'], ['edge_case'],
    ['error_case']. *)
Inductive Kind : Type := happy_path | edge_case | error_case.

Definition nl : string := String "010" EmptyString.

Definition sentence_end (c : ascii) : bool :=
  Ascii.eqb c "." || Ascii.eqb c "!" || Ascii.eqb c "?".

Definition mentions_behavior (trimmed : string) : bool :=
  includes (toLowerCase trimmed) "should"
  || includes (toLowerCase trimmed) "must"
  || includes (toLowerCase trimmed) "when"
  || includes (toLowerCase trimmed) "given".

Definition nonblank (s : string) : bool := negb (String.eqb (trim s) EmptyString).

Definition parseRequirements (requirements : string) : list string :=
  let sentences := List.filter nonblank (split_regex_class requirements sentence_end) in
  let behaviors := List.filter mentions_behavior (map trim sentences) in
  match behaviors with
  | [] => [requirements]
  | _ => behaviors
  end.

Definition identifyEdgeCases (behavior : string) : list string :=
  let lower := toLowerCase behavior in
  let numeric :=
    if includes lower "number" || includes lower "count"
    then ["zero value"; "negative value"; "maximum value"] else [] in
  let textual :=
    if includes lower "string" || includes lower "text"
    then ["empty string"; "very long string"; "special characters"] else [] in
  let sequence :=
    if includes lower "array" || includes lower "list"
    then ["empty array"; "single element"; "very large array"] else [] in
  match numeric ++ textual ++ sequence with
  | [] => ["boundary condition"; "extreme value"]
  | edgeCases => edgeCases
  end.

Definition identifyErrorCases (behavior : string) : list string :=
  let lower := toLowerCase behavior in
  ["null input"; "invalid input"; "unauthorized access"]
  ++ (if includes lower "database" || includes lower "storage"
      then ["connection failure"; "timeout"] else [])
  ++ (if includes lower "network" || includes lower "api"
      then ["network error"; "server error"] else []).

Definition space (c : ascii) : bool := is_space c.

Definition name_char (c : ascii) : bool := is_lower c || is_digit c || is_space c.

Definition strip_prefix (p s : string) : option string :=
  if String.prefix p s then Some (substring_from (String.length p) s) else None.

(** [.replace(/^(should_|must_|when_|given_)/, '')] *)
Definition strip_keyword (s : string) : string :=
  match strip_prefix "should_" s with
  | Some r => r
  | None =>
      match strip_prefix "must_" s with
      | Some r => r
      | None =>
          match strip_prefix "when_" s with
          | Some r => r
          | None => default s (strip_prefix "given_" s)
          end
      end
  end.

Definition underscores (s : string) : string := replace_runs space "_" s false.

Definition generateTestName (behavior : string) (specificCase : option string) : string :=
  let name :=
    strip_keyword (underscores (remove_class (fun c => negb (name_char c)) (toLowerCase behavior))) in
  let name :=
    match specificCase with
    | Some c => if String.eqb c EmptyString then name else name +:+ "_" +:+ underscores (toLowerCase c)
    | None => name
    end in
  "test_" +:+ name.

Definition stop_words : list string :=
  ["the"; "and"; "or"; "but"; "should"; "must"; "when"; "given"].

Definition capitalize (w : string) : string :=
  match w with
  | EmptyString => EmptyString
  | String c r => String (upper_char c) (toLowerCase r)
  end.

Definition extractClassName (behavior : string) : string :=
  let words := split behavior " " in
  let relevantWords :=
    List.filter (fun word => (2 <? length16 word)%nat
                             && negb (existsb (String.eqb (toLowerCase word)) stop_words)) words in
  match relevantWords with
  | w :: _ => capitalize w
  | [] => "TestSubject"
  end.

Definition verbs : list string :=
  ["create"; "update"; "delete"; "get"; "set"; "calculate"; "process"; "validate"].

Definition extractMethodName (behavior : string) : string :=
  let words := split (toLowerCase behavior) " " in
  match List.filter (fun verb => existsb (String.eqb verb) words) verbs with
  | verb :: _ => verb
  | [] => "execute"
  end.

(** [`${specificCase}`] *)
Definition case_text (specificCase : option string) : string :=
  default "undefined" specificCase.

Definition generateArrangeSection (kind : Kind) (specificCase : option string) : string :=
  match kind with
  | happy_path => "// Set up valid test data"
  | edge_case => "// Set up edge case data for: " +:+ case_text specificCase
  | error_case => "// Set up invalid data to trigger: " +:+ case_text specificCase
  end.

Definition call_text (objectName methodName arg : string) : string :=
  objectName +:+ "." +:+ methodName +:+ "(" +:+ arg +:+ ")".

Definition generateActSection (kind : Kind) (className methodName : string)
    (params : TestGenerationParams) : string :=
  let objectName := toLowerCase className in
  let plain := "const result = " +:+ call_text objectName methodName "testData" +:+ ";" in
  match kind with
  | error_case =>
      match language params with
      | TYPESCRIPT | JAVASCRIPT =>
          "expect(() => " +:+ call_text objectName methodName "testData" +:+ ").toThrow();"
      | PYTHON =>
          "with pytest.raises(Exception):" +:+ nl +:+ "        "
          +:+ call_text objectName methodName "test_data"
      | JAVA =>
          "assertThrows(Exception.class, () -> " +:+ call_text objectName methodName "testData"
          +:+ ");"
      | CSHARP =>
          "Assert.Throws<Exception>(() => " +:+ call_text objectName methodName "testData" +:+ ");"
      | _ => plain
      end
  | _ => plain
  end.

Definition generateAssertSection (kind : Kind) (params : TestGenerationParams) : string :=
  match kind with
  | error_case => "// Error case assertion handled in Act section"
  | _ =>
      match language params with
      | TYPESCRIPT | JAVASCRIPT =>
          "expect(result).toBeDefined();" +:+ nl
          +:+ "    // Add specific assertions based on expected behavior"
      | PYTHON =>
          "assert result is not None" +:+ nl
          +:+ "    # Add specific assertions based on expected behavior"
      | JAVA =>
          "assertNotNull(result);" +:+ nl
          +:+ "    // Add specific assertions based on expected behavior"
      | CSHARP =>
          "Assert.NotNull(result);" +:+ nl
          +:+ "    // Add specific assertions based on expected behavior"
      | _ => "// Add assertions based on expected behavior"
      end
  end.

(** The three sections every template ends with, from the line after the
    declaration of the subject to the last assertion. *)
Definition sections (comment : string) (kind : Kind) (className methodName : string)
    (params : TestGenerationParams) (specificCase : option string) : string :=
  "    " +:+ generateArrangeSection kind specificCase +:+ nl
  +:+ "    " +:+ nl
  +:+ "    " +:+ comment +:+ " Act" +:+ nl
  +:+ "    " +:+ generateActSection kind className methodName params +:+ nl
  +:+ "    " +:+ nl
  +:+ "    " +:+ comment +:+ " Assert" +:+ nl
  +:+ "    " +:+ generateAssertSection kind params.

Definition generateJavaScriptTestCode (testName behavior : string) (kind : Kind)
    (params : TestGenerationParams) (specificCase : option string) : string :=
  let className := extractClassName behavior in
  let methodName := extractMethodName behavior in
  if String.eqb (framework params) "jest" then
    "describe('" +:+ className +:+ "', () => {" +:+ nl
    +:+ "  it('" +:+ behavior +:+ "', () => {" +:+ nl
    +:+ "    // Arrange" +:+ nl
    +:+ "    const " +:+ toLowerCase className +:+ " = new " +:+ className +:+ "();" +:+ nl
    +:+ sections "//" kind className methodName params specificCase +:+ nl
    +:+ "  });" +:+ nl
    +:+ "});"
  else "// Test code for " +:+ testName.

Definition generatePythonTestCode (testName behavior : string) (kind : Kind)
    (params : TestGenerationParams) (specificCase : option string) : string :=
  let className := extractClassName behavior in
  let methodName := extractMethodName behavior in
  if String.eqb (framework params) "pytest" then
    "def " +:+ testName +:+ "():" +:+ nl
    +:+ "    " +:+ dquote +:+ dquote +:+ dquote +:+ behavior +:+ dquote +:+ dquote +:+ dquote +:+ nl
    +:+ "    # Arrange" +:+ nl
    +:+ "    " +:+ toLowerCase className +:+ " = " +:+ className +:+ "()" +:+ nl
    +:+ sections "#" kind className methodName params specificCase
  else "# Test code for " +:+ testName.

Definition generateJavaTestCode (testName behavior : string) (kind : Kind)
    (params : TestGenerationParams) (specificCase : option string) : string :=
  let className := extractClassName behavior in
  let methodName := extractMethodName behavior in
  "@Test" +:+ nl
  +:+ "public void " +:+ testName +:+ "() {" +:+ nl
  +:+ "    // " +:+ behavior +:+ nl
  +:+ "    " +:+ nl
  +:+ "    // Arrange" +:+ nl
  +:+ "    " +:+ className +:+ " " +:+ toLowerCase className +:+ " = new " +:+ className +:+ "();" +:+ nl
  +:+ sections "//" kind className methodName params specificCase +:+ nl
  +:+ "}".

Definition generateCSharpTestCode (testName behavior : string) (kind : Kind)
    (params : TestGenerationParams) (specificCase : option string) : string :=
  let className := extractClassName behavior in
  let methodName := extractMethodName behavior in
  "[Test]" +:+ nl
  +:+ "public void " +:+ testName +:+ "()" +:+ nl
  +:+ "{" +:+ nl
  +:+ "    // " +:+ behavior +:+ nl
  +:+ "    " +:+ nl
  +:+ "    // Arrange" +:+ nl
  +:+ "    var " +:+ toLowerCase className +:+ " = new " +:+ className +:+ "();" +:+ nl
  +:+ sections "//" kind className methodName params specificCase +:+ nl
  +:+ "}".

Definition generateTestCode (testName behavior : string) (kind : Kind)
    (params : TestGenerationParams) (specificCase : option string) : outcome string :=
  match language params with
  | TYPESCRIPT | JAVASCRIPT =>
      Return (generateJavaScriptTestCode testName behavior kind params specificCase)
  | PYTHON => Return (generatePythonTestCode testName behavior kind params specificCase)
  | JAVA => Return (generateJavaTestCode testName behavior kind params specificCase)
  | CSHARP => Return (generateCSharpTestCode testName behavior kind params specificCase)
  | other =>
      Throw (Error ("Code generation not implemented for language: "
                    +:+ SupportedLanguage_value other))
  end.

Definition getRequiredImports (language : SupportedLanguage) (framework : string) : list string :=
  match language with
  | TYPESCRIPT | JAVASCRIPT =>
      if String.eqb framework "jest"
      then ["import { describe, it, expect } from '@jest/globals';"] else []
  | PYTHON => if String.eqb framework "pytest" then ["import pytest"] else []
  | JAVA =>
      ["import org.junit.jupiter.api.Test;"; "import static org.junit.jupiter.api.Assertions.*;"]
  | CSHARP => ["using NUnit.Framework;"]
  | _ => []
  end.

Definition generateHappyPathTest (behavior : string) (params : TestGenerationParams)
    : outcome GeneratedTest :=
  let testName := generateTestName behavior None in
  and_then (generateTestCode testName behavior happy_path params None) (fun testCode =>
  Return {| test_name := testName;
            test_description := "Test the happy path for: " +:+ behavior;
            code := testCode;
            imports := getRequiredImports (language params) (framework params) |}).

(** One test of [generateEdgeCaseTests] or [generateErrorCaseTests]. *)
Definition case_test (kind : Kind) (label behavior : string) (params : TestGenerationParams)
    (specificCase : string) : outcome (list GeneratedTest) :=
  let testName := generateTestName behavior (Some specificCase) in
  and_then (generateTestCode testName behavior kind params (Some specificCase)) (fun testCode =>
  Return [ {| test_name := testName;
              test_description := label +:+ specificCase;
              code := testCode;
              imports := getRequiredImports (language params) (framework params) |} ]).

Definition generateEdgeCaseTests (behavior : string) (params : TestGenerationParams)
    : outcome (list GeneratedTest) :=
  collect (case_test edge_case "Test edge case: " behavior params) (identifyEdgeCases behavior).

Definition generateErrorCaseTests (behavior : string) (params : TestGenerationParams)
    : outcome (list GeneratedTest) :=
  collect (case_test error_case "Test error case: " behavior params) (identifyErrorCases behavior).

Definition generateTestCases (params : TestGenerationParams) : outcome (list GeneratedTest) :=
  collect (fun behavior =>
             and_then (generateHappyPathTest behavior params) (fun happyPathTest =>
             and_then (generateEdgeCaseTests behavior params) (fun edgeCaseTests =>
             and_then (generateErrorCaseTests behavior params) (fun errorCaseTests =>
             Return (happyPathTest :: edgeCaseTests ++ errorCaseTests)))))
          (parseRequirements (requirements params)).

Definition isFrameworkSupported (language : SupportedLanguage) (framework : string) : bool :=
  existsb (fun f => same_language (Frameworks.language f) language
                    && String.eqb (toLowerCase (name f)) (toLowerCase framework))
          SUPPORTED_FRAMEWORKS.

Definition estimateCoverage (tests : list GeneratedTest) : Z :=
  let baselineScore := Z.min (Z.of_nat (length tests) * 15) 80 in
  let hasHappyPath := existsb (fun t => includes (test_description t) "happy path") tests in
  let hasEdgeCases := existsb (fun t => includes (test_description t) "edge case") tests in
  let hasErrorCases := existsb (fun t => includes (test_description t) "error case") tests in
  let bonus :=
    ((if hasHappyPath then 5 else 0) + (if hasEdgeCases then 10 else 0)
     + (if hasErrorCases then 5 else 0))%Z in
  Z.min (baselineScore + bonus) 95.

(** [generateTests]; [now] is the clock reading that dates the result. *)
Definition generateTests (params : TestGenerationParams) (now : time) : outcome GeneratedTests :=
  if negb (isFrameworkSupported (language params) (framework params)) then
    Throw (Error ("Framework " +:+ framework params +:+ " is not supported for language "
                  +:+ SupportedLanguage_value (language params)))
  else
    and_then (generateTestCases params) (fun tests =>
    Return {| out_language := language params;
              out_framework := framework params;
              out_testType := testType params;
              tests := tests;
              generatedAt := now;
              out_requirements := requirements params;
              estimatedCoverage := estimateCoverage tests |}).

(** ** The output of a run that goes through *)

(** The languages [generateTestCode] has a template for. *)
Definition has_template (language : SupportedLanguage) : bool :=
  match language with
  | TYPESCRIPT | JAVASCRIPT | PYTHON | JAVA | CSHARP => true
  | _ => false
  end.

(** The code of a test, none where [generateTestCode] throws. *)
Definition code_of (testName behavior : string) (kind : Kind) (params : TestGenerationParams)
    (specificCase : option string) : string :=
  match generateTestCode testName behavior kind params specificCase with
  | Return testCode => testCode
  | Throw _ => EmptyString
  end.

Definition happy_test (params : TestGenerationParams) (behavior : string) : GeneratedTest :=
  {| test_name := generateTestName behavior None;
     test_description := "Test the happy path for: " +:+ behavior;
     code := code_of (generateTestName behavior None) behavior happy_path params None;
     imports := getRequiredImports (language params) (framework params) |}.

Definition case_test_of (kind : Kind) (label : string) (params : TestGenerationParams)
    (behavior specificCase : string) : GeneratedTest :=
  {| test_name := generateTestName behavior (Some specificCase);
     test_description := label +:+ specificCase;
     code := code_of (generateTestName behavior (Some specificCase)) behavior kind params
               (Some specificCase);
     imports := getRequiredImports (language params) (framework params) |}.

(** The tests of one behaviour, in the order [generateTestCases] pushes
    them. *)
Definition behavior_tests (params : TestGenerationParams) (behavior : string) : list GeneratedTest :=
  happy_test params behavior
  :: map (case_test_of edge_case "Test edge case: " params behavior) (identifyEdgeCases behavior)
  ++ map (case_test_of error_case "Test error case: " params behavior) (identifyErrorCases behavior).

(** The pairs of a language and a lower-cased framework name that
    [generateTests] goes through with. *)
Definition generating_pairs : list (SupportedLanguage * string) :=
  [ (TYPESCRIPT, "jest"); (TYPESCRIPT, "mocha"); (TYPESCRIPT, "vitest");
    (PYTHON, "pytest"); (PYTHON, "unittest"); (JAVA, "junit 5"); (CSHARP, "xunit") ].

Fixpoint all_chars (p : ascii -> bool) (s : string) : bool :=
  match s with
  | EmptyString => true
  | String c r => p c && all_chars p r
  end.

(** [a-z0-9_] *)
Definition identifier_char (c : ascii) : bool :=
  is_lower c || is_digit c || Ascii.eqb c "_".

(** A specific case that is given and whose part of the test name is made
    of identifier characters. *)
Definition case_name_ok (c : string) : bool :=
  negb (String.eqb c EmptyString) && all_chars identifier_char (underscores (toLowerCase c)).

End TestGenerator.

(* ================================================================== *)
(** * Test runner (src/services/test-runner.ts) *)
(* ================================================================== *)

Module TestRunner.
Import Js Frameworks.
Open Scope io_scope.

Record Options : Type := {
  verbose : option bool;
  with_coverage : option bool;
  watch : option bool;
  parallel : option bool;
  timeout : option number
}.

Definition no_options : Options :=
  {| verbose := None; with_coverage := None; watch := None; parallel := None; timeout := None |}.

Record TestRunnerParams : Type := {
  projectPath : string;
  testFiles : option (list string);
  testFramework : string;
  options : option Options
}.

Inductive Status : Type := passed | failed | skipped | pending.

Record TestResult : Type := {
  result_name : string;
  status : Status;
  duration : Z;
  error : option string
}.

Record Summary : Type := {
  total : Z;
  n_passed : Z;
  n_failed : Z;
  n_skipped : Z;
  total_duration : Z
}.

Record TestSuiteResult : Type := {
  suite_name : string;
  suite_tests : list TestResult;
  summary : Summary
}.

Record TestResults : Type := {
  framework : string;
  suites : list TestSuiteResult;
  overall : Summary;
  timestamp : time
}.

(** What the runner meets outside the process: whether a path is a
    directory, what the spawned command does (its output, or the error
    [exec] rejects with: a failing command, a missing binary, a timeout),
    the result files the command leaves behind as [parseJsonResults] reads
    and converts them, and the clock. *)
Record Env : Type := {
  is_directory : string -> bool;
  exec : string -> string -> number -> outcome (string * string);
  parseJsonResults : string -> outcome (option TestResults);
  clock : nat -> time
}.

Section WithEnv.
Variable env : Env.

(** The state of a run is the number of clock readings taken. *)
Definition tick : stateful nat time := fun n => (Return (clock env n), S n).

Definition getFrameworkConfig (frameworkName : string) : option Framework :=
  find (fun config =>
          String.eqb (toLowerCase (name config)) (toLowerCase frameworkName)
          || String.eqb (key config) (toLowerCase frameworkName))
       SUPPORTED_FRAMEWORKS.

Definition validateProjectPath (projectPath : string) : outcome unit :=
  if is_directory env projectPath then Return tt
  else Throw (Error ("Invalid project path: " +:+ projectPath)).

Definition flag (table : list (string * string)) (frameworkKey : string) : string :=
  default EmptyString (entry frameworkKey table).

Definition getVerboseFlag : string -> string :=
  flag [ ("jest", " --verbose"); ("mocha", " --reporter spec"); ("vitest", " --reporter=verbose");
         ("pytest", " -v"); ("unittest", " -v"); ("junit5", " -Dtest.verbose=true");
         ("xunit", " -verbose"); ("gotest", " -v"); ("cargo_test", " --verbose");
         ("phpunit", " --verbose") ].

Definition getParallelFlag : string -> string :=
  flag [ ("jest", " --maxWorkers=auto"); ("vitest", " --reporter=verbose");
         ("pytest", " -n auto"); ("junit5", " -Djunit.parallel.enabled=true");
         ("gotest", " -parallel"); ("cargo_test", " --jobs 0") ].

Definition getJsonOutputFlag : string -> string :=
  flag [ ("jest", " --json --outputFile=test-results.json");
         ("mocha", " --reporter json --reporter-options output=test-results.json");
         ("vitest", " --reporter=json --outputFile=test-results.json");
         ("pytest", " --json-report --json-report-file=test-results.json");
         ("junit5", " -Djunit.platform.reporting.output.dir=test-results");
         ("xunit", " -xml test-results.xml");
         ("gotest", " -json > test-results.json");
         ("cargo_test", " --format json > test-results.json");
         ("phpunit", " --log-json test-results.json") ].

Definition is_true (o : option bool) : bool := default false o.

Definition buildTestCommand (framework : Framework) (params : TestRunnerParams) : string :=
  let opts := default no_options (options params) in
  let command :=
    match coverage framework with
    | Some c => if is_true (with_coverage opts) && negb (String.eqb c EmptyString) then c
                else run framework
    | None => run framework
    end in
  let command := if is_true (verbose opts) then command +:+ getVerboseFlag (key framework) else command in
  let command :=
    match parallel opts with
    | Some false => command
    | _ => command +:+ getParallelFlag (key framework)
    end in
  let command :=
    match testFiles params with
    | Some (f :: fs) => command +:+ " " +:+ join (f :: fs) " "
    | _ => command
    end in
  command +:+ getJsonOutputFlag (key framework).

Definition any_of (markers : list string) (line : string) : bool :=
  existsb (includes line) markers.

Fixpoint numbered (label : string) (st : Status) (with_error : bool) (lines : list string) (i : Z)
    : list TestResult :=
  match lines with
  | [] => []
  | line :: rest =>
      {| result_name := label +:+ string_of_Z (i + 1); status := st; duration := 0;
         error := if with_error then Some line else None |}
      :: numbered label st with_error rest (i + 1)
  end.

Definition parseTextResults (stdout stderr : string) (framework : Framework) (duration : Z)
    (now : time) : TestResults :=
  let lines := split (stdout +:+ String "010" EmptyString +:+ stderr) (String "010" EmptyString) in
  let passedTests := List.filter (any_of ["✓"; "PASSED"; "OK"]) lines in
  let failedTests := List.filter (any_of ["✗"; "FAILED"; "ERROR"]) lines in
  let skippedTests := List.filter (any_of ["SKIPPED"; "PENDING"]) lines in
  let tests :=
    numbered "Test " passed false passedTests 0
    ++ numbered "Failed Test " failed true failedTests 0
    ++ numbered "Skipped Test " skipped false skippedTests 0 in
  let counts :=
    {| total := Z.of_nat (length tests);
       n_passed := Z.of_nat (length passedTests);
       n_failed := Z.of_nat (length failedTests);
       n_skipped := Z.of_nat (length skippedTests);
       total_duration := duration |} in
  {| framework := name framework;
     suites := [ {| suite_name := "Test Suite"; suite_tests := tests; summary := counts |} ];
     overall := counts;
     timestamp := now |}.

Definition parseTestResults (stdout stderr : string) (framework : Framework) (duration : Z)
    : stateful nat TestResults :=
  match parseJsonResults env (key framework) with
  | Return (Some jsonResults) => ret jsonResults
  | _ =>
      now <- tick ;;
      ret (parseTextResults stdout stderr framework duration now)
  end.

(** [error.message || error.toString()] *)
Definition error_text (e : exn) : string :=
  if String.eqb (message_of e) EmptyString
  then match e with Error _ => "Error" | TypeError _ => "TypeError" end
  else message_of e.

Definition one_failure : Summary :=
  {| total := 1; n_passed := 0; n_failed := 1; n_skipped := 0; total_duration := 0 |}.

Definition handleTestError (e : exn) (framework : string) : stateful nat TestResults :=
  let errorMessage := error_text e in
  now <- tick ;;
  ret {| framework := framework;
         suites := [ {| suite_name := "Test Execution Error";
                        suite_tests := [ {| result_name := "Test Runner Error"; status := failed;
                                            duration := 0; error := Some errorMessage |} ];
                        summary := one_failure |} ];
         overall := one_failure;
         timestamp := now |}.

(** [options.timeout || 300000] *)
Definition timeout_of (params : TestRunnerParams) : number :=
  match options params with
  | Some o =>
      match timeout o with
      | Some t => if is_NaN t || is_zero t then num 300000 else t
      | None => num 300000
      end
  | None => num 300000
  end.

Definition runTests (params : TestRunnerParams) : stateful nat TestResults :=
  match getFrameworkConfig (testFramework params) with
  | None => throw (Error ("Unsupported test framework: " +:+ testFramework params))
  | Some framework =>
      lift (validateProjectPath (projectPath params)) ;;
      let command := buildTestCommand framework params in
      catch
        (startTime <- tick ;;
         output <- lift (exec env command (projectPath params) (timeout_of params)) ;;
         endTime <- tick ;;
         parseTestResults (fst output) (snd output) framework (ms endTime - ms startTime))
        (fun e => handleTestError e (testFramework params))
  end.

(** The tests of a list that have a given status. *)
Definition with_status (s : Status) (tests : list TestResult) : list TestResult :=
  List.filter (fun t => match status t, s with
                        | passed, passed | failed, failed | skipped, skipped
                        | pending, pending => true
                        | _, _ => false
                        end) tests.

End WithEnv.
End TestRunner.

(* ================================================================== *)
(** * TDD cycle validator (src/services/tdd-cycle-validator.ts) *)
(* ================================================================== *)

Module CycleValidator.
Import Js.

(** Modelled from the spec: the enum [TDDCycleState] of src/types/tdd.ts is
    not among the sources.  Its members are the three stages of the
    red-green-refactor cycle the validator returns. *)
Inductive TDDCycleState : Type := RED | GREEN | REFACTOR.

Record TDDCycleValidationParams : Type := {
  projectPath : string;
  gitHistory : option (list string);
  timeWindow : option string
}.

Inductive ViolationType : Type :=
| no_failing_test | premature_implementation | skipped_refactor.

Record Violation : Type := {
  violation_type : ViolationType;
  violation_description : string;
  violation_suggestion : string
}.

Record TDDAnalysis : Type := {
  violations : list Violation;
  suggestions : list string;
  score : Z
}.

Record TDDCycleValidation : Type := {
  isValid : bool;
  currentState : TDDCycleState;
  found_violations : list Violation;
  given_suggestions : list string;
  adherence_score : Z
}.

Record CommitPatternAnalysis : Type := {
  testCommits : Z;
  implementationCommits : Z;
  refactorCommits : Z;
  hasImplementationBeforeTests : bool;
  lacksTestCommits : bool;
  lacksRefactorCommits : bool;
  hasMultipleFeatureCommits : bool
}.

(** What the validator meets outside the process: the output of [git log]
    (or the failure of the command), and what [determineCurrentState] finds
    in the project each time it looks: it globs for test files, runs the
    tests and reads the sources, and answers [RED] whenever any of that
    fails. *)
Record Env : Type := {
  git_log : string -> string -> outcome string;
  determineCurrentState : nat -> string -> TDDCycleState
}.

Definition testKeywords : list string := ["test"; "spec"; "TDD"; "failing test"; "red"].
Definition implementationKeywords : list string := ["implement"; "add"; "feature"; "fix"; "green"].
Definition refactorKeywords : list string := ["refactor"; "cleanup"; "improve"; "extract"; "rename"].

(** [keywords.some(keyword => commit.includes(keyword))] on the lower-cased
    commit line *)
Definition mentions (keywords : list string) (commit : string) : bool :=
  existsb (includes (toLowerCase commit)) keywords.

(** The counters of the loop of [analyzeCommitPatterns]. *)
Record Counters : Type := {
  c_test : Z;
  c_implementation : Z;
  c_refactor : Z;
  c_before : bool
}.

(** One round of the loop; [previous] is [commits[i - 1]] when [i > 0]. *)
Definition count_commit (previous : option string) (commit : string) (c : Counters) : Counters :=
  let isTest := mentions testKeywords commit in
  let isImplementation := mentions implementationKeywords commit in
  let isRefactor := mentions refactorKeywords commit in
  {| c_test := if isTest then c_test c + 1 else c_test c;
     c_implementation := if isImplementation then c_implementation c + 1 else c_implementation c;
     c_refactor := if isRefactor then c_refactor c + 1 else c_refactor c;
     c_before :=
       match previous with
       | Some previousCommit =>
           if isImplementation && negb (mentions testKeywords previousCommit)
           then true else c_before c
       | None => c_before c
       end |}.

Fixpoint scan_commits (previous : option string) (commits : list string) (c : Counters) : Counters :=
  match commits with
  | [] => c
  | commit :: rest => scan_commits (Some commit) rest (count_commit previous commit c)
  end.

Definition analyzeCommitPatterns (commits : list string) : CommitPatternAnalysis :=
  let c := scan_commits None commits
             {| c_test := 0; c_implementation := 0; c_refactor := 0; c_before := false |} in
  {| testCommits := c_test c;
     implementationCommits := c_implementation c;
     refactorCommits := c_refactor c;
     hasImplementationBeforeTests := c_before c;
     lacksTestCommits := (c_test c =? 0)%Z && (0 <? length commits)%nat;
     lacksRefactorCommits := (c_refactor c =? 0)%Z;
     hasMultipleFeatureCommits := (2 <? c_implementation c)%Z |}.

Definition premature : Violation :=
  {| violation_type := premature_implementation;
     violation_description := "Implementation code was committed before corresponding tests";
     violation_suggestion := "Always write failing tests before implementing functionality" |}.

Definition no_tests : Violation :=
  {| violation_type := no_failing_test;
     violation_description := "No test commits found in recent history";
     violation_suggestion := "Ensure you are writing tests as part of your development process" |}.

Definition no_refactor : Violation :=
  {| violation_type := skipped_refactor;
     violation_description := "Multiple feature implementations without refactoring commits";
     violation_suggestion := "Include refactoring as a regular part of your TDD cycle" |}.

Definition state_suggestions (s : TDDCycleState) : list string :=
  match s with
  | RED =>
      ["Write minimal code to make the failing test pass";
       "Focus on functionality, not code quality yet"]
  | GREEN =>
      ["Look for refactoring opportunities to improve code quality";
       "Remove duplication and improve naming";
       "Consider extracting methods or classes"]
  | REFACTOR =>
      ["Make small, incremental improvements";
       "Run tests frequently to ensure behavior is preserved";
       "Commit refactoring changes separately"]
  end.

(** The points a violation costs. *)
Definition penalty (v : Violation) : Z :=
  match violation_type v with
  | premature_implementation => 30
  | no_failing_test => 25
  | skipped_refactor => 20
  end.

Definition penalties (vs : list Violation) : Z := fold_right Z.add 0%Z (map penalty vs).

Section WithEnv.
Variable env : Env.

Definition getRecentCommits (projectPath timeWindow : string) : list string :=
  match git_log env projectPath timeWindow with
  | Return stdout =>
      List.filter (fun line => negb (String.eqb (trim line) EmptyString))
                  (split stdout (String "010" EmptyString))
  | Throw _ => []
  end.

(** [analyzeTDDAdherence]; [look] numbers the look at the project that
    [determineCurrentState] takes here. *)
Definition analyzeTDDAdherence (look : nat) (projectPath : string) (commits : list string)
    : TDDAnalysis :=
  let commitAnalysis := analyzeCommitPatterns commits in
  let score := 100%Z in
  let '(violations, score) :=
    if hasImplementationBeforeTests commitAnalysis
    then ([premature], score - 30)%Z else ([], score) in
  let '(violations, score) :=
    if lacksTestCommits commitAnalysis
    then (violations ++ [no_tests], score - 25)%Z else (violations, score) in
  let '(violations, score) :=
    if lacksRefactorCommits commitAnalysis && hasMultipleFeatureCommits commitAnalysis
    then (violations ++ [no_refactor], score - 20)%Z else (violations, score) in
  let currentState := determineCurrentState env look projectPath in
  let suggestions :=
    state_suggestions currentState
    ++ match violations with
       | [] => ["Great job following TDD! Continue with small, incremental changes"]
       | _ =>
           ["Review TDD principles: Red-Green-Refactor cycle";
            "Consider using git commits to track TDD progress"]
       end in
  {| violations := violations; suggestions := suggestions; score := Z.max score 0 |}.

(** The commit list [validateCycle] analyses. *)
Definition commits_of (params : TDDCycleValidationParams) : list string :=
  match gitHistory params with
  | Some history => history
  | None => getRecentCommits (projectPath params) (default "1 hour" (timeWindow params))
  end.

(** [validateCycle]: an error inside the body would be thrown again with
    the prefix of the [catch] clause. *)
Definition validateCycle (params : TDDCycleValidationParams) : outcome TDDCycleValidation :=
  let timeWindow := default "1 hour" (timeWindow params) in
  let body :=
    let commits :=
      match gitHistory params with
      | Some history => history
      | None => getRecentCommits (projectPath params) timeWindow
      end in
    let currentState := determineCurrentState env 0 (projectPath params) in
    let analysis := analyzeTDDAdherence 1 (projectPath params) commits in
    Return {| isValid := (length (violations analysis) =? 0)%nat;
              currentState := currentState;
              found_violations := violations analysis;
              given_suggestions := suggestions analysis;
              adherence_score := score analysis |} in
  match body with
  | Return r => Return r
  | Throw e => Throw (Error ("TDD cycle validation failed: " +:+ message_of e))
  end.

(** Whether some commit of the list mentions an implementation keyword
    right after one that mentions no test keyword; [previous] is the commit
    before the list. *)
Definition adjacent_bad : option string -> list string -> bool :=
  fix go previous commits :=
    match commits with
    | [] => false
    | commit :: rest =>
        match previous with
        | Some p => mentions implementationKeywords commit && negb (mentions testKeywords p)
        | None => false
        end || go (Some commit) rest
    end.

End WithEnv.
End CycleValidator.

(* ================================================================== *)
(** * A reference runtime

    One runtime the development can be run on: dates are written as
    ISO 8601 text in UTC, the way [toISOString] writes them, and read back
    from that format.  It shows that the interface [Runtime] can be met and
    lets the theorems be exercised on concrete inputs. *)
(* ================================================================== *)

Module ReferenceRuntime.
Import Js.
Open Scope Z_scope.

(** Days since 1970-01-01 and the proleptic Gregorian calendar, by the
    400-year era of 146097 days that starts on a first of March. *)
Definition era_days : Z := 146097.
Definition epoch_shift : Z := 719468.

(** Within an era: the year of the era, the month counted from March and
    the day of the month of the day [doe]. *)
Definition civil_of_era_day (doe : Z) : Z * Z * Z :=
  let yoe := (doe - doe / 1460 + doe / 36524 - doe / 146096) / 365 in
  let doy := doe - (365 * yoe + yoe / 4 - yoe / 100) in
  let mp := (5 * doy + 2) / 153 in
  (yoe, mp, doy - (153 * mp + 2) / 5 + 1).

Definition era_day_of_civil (yoe mp d : Z) : Z :=
  yoe * 365 + yoe / 4 - yoe / 100 + ((153 * mp + 2) / 5 + d - 1).

Record civil : Type := { year : Z; month : Z; day : Z }.

Definition civil_of_days (z : Z) : civil :=
  let era := (z + epoch_shift) / era_days in
  let doe := (z + epoch_shift) mod era_days in
  match civil_of_era_day doe with
  | (yoe, mp, d) =>
      let m := if mp <? 10 then mp + 3 else mp - 9 in
      {| year := yoe + era * 400 + (if m <=? 2 then 1 else 0); month := m; day := d |}
  end.

Definition days_of_civil (c : civil) : Z :=
  let y := year c - (if month c <=? 2 then 1 else 0) in
  (y / 400) * era_days + era_day_of_civil (y mod 400) ((month c + 9) mod 12) (day c)
  - epoch_shift.

(** The days of an era, checked one by one. *)
Definition era_day_ok (doe : Z) : bool :=
  match civil_of_era_day doe with
  | (yoe, mp, d) =>
      (0 <=? yoe) && (yoe <? 400) && (0 <=? mp) && (mp <? 12) && (1 <=? d) && (d <=? 31)
      && (era_day_of_civil yoe mp d =? doe)
  end.

Fixpoint all_from (check : Z -> bool) (lo : Z) (len : positive) : bool :=
  match len with
  | xH => check lo
  | xO p => all_from check lo p && all_from check (lo + Zpos p) p
  | xI p => check lo && all_from check (lo + 1) p && all_from check (lo + 1 + Zpos p) p
  end.

(** ** ISO 8601 text *)

Definition digit_char (d : Z) : ascii := ascii_of_nat (48 + Z.to_nat d).

(** [n] in decimal on exactly [width] digits *)
Fixpoint pad (width : nat) (n : Z) : string :=
  match width with
  | O => EmptyString
  | S w => pad w (n / 10) +:+ String (digit_char (n mod 10)) EmptyString
  end.

(** Reads exactly [width] decimal digits. *)
Fixpoint read_fixed (width : nat) (acc : Z) (s : string) : option (Z * string) :=
  match width with
  | O => Some (acc, s)
  | S w =>
      match s with
      | String c r =>
          match digit_value c with
          | Some d => read_fixed w (10 * acc + d) r
          | None => None
          end
      | EmptyString => None
      end
  end.

Definition expect (c : ascii) (s : string) : option string :=
  match s with
  | String c' r => if Ascii.eqb c c' then Some r else None
  | EmptyString => None
  end.

Definition ms_per_day : Z := 86400000.

(** Four digits for the years 0 to 9999, a sign and six digits otherwise. *)
Definition year_text (y : Z) : string :=
  if (0 <=? y) && (y <=? 9999) then pad 4 y
  else (if y <? 0 then "-" else "+") +:+ pad 6 (Z.abs y).

Definition iso_text (t : Z) : string :=
  let c := civil_of_days (t / ms_per_day) in
  let rest := t mod ms_per_day in
  year_text (year c) +:+ "-" +:+ pad 2 (month c) +:+ "-" +:+ pad 2 (day c)
  +:+ "T" +:+ pad 2 (rest / 3600000) +:+ ":" +:+ pad 2 (rest / 60000 mod 60)
  +:+ ":" +:+ pad 2 (rest / 1000 mod 60) +:+ "." +:+ pad 3 (rest mod 1000) +:+ "Z".

Definition read_year (s : string) : option (Z * string) :=
  match read_fixed 4 0 s with
  | Some r => Some r
  | None =>
      match s with
      | String "+" r => read_fixed 6 0 r
      | String "-" r =>
          match read_fixed 6 0 r with
          | Some (y, r') => Some (- y, r')
          | None => None
          end
      | _ => None
      end
  end.

Definition within (lo hi x : Z) : option unit :=
  if (lo <=? x) && (x <=? hi) then Some tt else None.

(** The time value of a text in the format [toISOString] writes; [None]
    for any other text. *)
Definition parse_iso (s : string) : option Z :=
  '(y, s) ← read_year s; s ← expect "-" s;
  '(m, s) ← read_fixed 2 0 s; _ ← within 1 12 m; s ← expect "-" s;
  '(d, s) ← read_fixed 2 0 s; _ ← within 1 31 d; s ← expect "T" s;
  '(h, s) ← read_fixed 2 0 s; _ ← within 0 23 h; s ← expect ":" s;
  '(mi, s) ← read_fixed 2 0 s; _ ← within 0 59 mi; s ← expect ":" s;
  '(sec, s) ← read_fixed 2 0 s; _ ← within 0 59 sec; s ← expect "." s;
  '(milli, s) ← read_fixed 3 0 s; s ← expect "Z" s;
  match s with
  | EmptyString =>
      Some (days_of_civil {| year := y; month := m; day := d |} * ms_per_day
            + h * 3600000 + mi * 60000 + sec * 1000 + milli)
  | _ => None
  end.

Definition time_of (z : Z) : option time :=
  match Bool.bool_dec (valid_time z) true with
  | left ok => Some (Time z ok)
  | right _ => None
  end.

Definition toISOString (t : time) : string := iso_text (ms t).

Definition Date_parse (s : string) : option time := parse_iso s ≫= time_of.

(** [String(v)].  It follows ECMAScript on [undefined], [null], booleans,
    integers, plain objects and the arrays of those; a fraction is shown by
    its integer part and a date by its ISO text, where a JavaScript engine
    prints the shortest decimal and the local time. *)
Fixpoint display (v : value) : string :=
  match v with
  | VUndefined => "undefined"
  | VNull => "null"
  | VBool b => if b then "true" else "false"
  | VNum (Finite q) => string_of_Z (Qfloor q)
  | VNum PosInfinity => "Infinity"
  | VNum NegInfinity => "-Infinity"
  | VNum NaN => "NaN"
  | VStr s => s
  | VDate (Some t) => toISOString t
  | VDate None => "Invalid Date"
  | VArr items =>
      join (map (fun item => match item with
                             | VUndefined | VNull => EmptyString
                             | _ => display item
                             end) items) ","
  | VObj _ => "[object Object]"
  end.

End ReferenceRuntime.

(* ================================================================== *)
(** * Concrete inputs

    The inputs on which the theorems below are exercised. *)
(* ================================================================== *)

Module Examples.
Import Js.

Definition epoch : time := Time 0 eq_refl.

(** The LCOV text of the analyzer's own test. *)
Definition calculator_lcov : string :=
  join ["SF:src/calculator.js"; "FN:1,add"; "FNF:1"; "FNH:1"; "LF:10"; "LH:8"; "BRF:4"; "BRH:3";
        "end_of_record"] (String "010" EmptyString).

Section Runner.
Import Frameworks TestRunner.

(** A run of jest in a project whose [jest] binary is missing. *)
Definition missing_binary : Env :=
  {| is_directory := fun _ => true;
     exec := fun _ _ _ => Throw (Error "Command failed: jest: command not found");
     parseJsonResults := fun _ => Return None;
     clock := fun _ => epoch |}.

Definition jest_run : TestRunnerParams :=
  {| projectPath := "/srv/app"; testFiles := None; testFramework := "jest"; options := None |}.

End Runner.

(** An empty store whose clock stands still. *)
Definition empty_world : Storage.world :=
  {| Storage.disk := ∅; Storage.clock := fun _ => epoch; Storage.reads := 0 |}.

Definition new_tools_env : Server.Env :=
  {| Server.USE_NEW_TOOLS := Some "true"; Server.DEFAULT_LOCALE := None |}.

Definition legacy_env : Server.Env :=
  {| Server.USE_NEW_TOOLS := Some "false"; Server.DEFAULT_LOCALE := None |}.

Section Features.
Import Schema.

(** 2024-01-01T10:00:00.000Z *)
Definition new_year_morning : time := Time 1704103200000 eq_refl.

(** The feature of the storage tests. *)
Definition login_feature : Feature :=
  {| id := "feature-123";
     projectId := "test-project-123";
     name := "User Authentication";
     description := "Implement user login";
     status := IN_PROGRESS;
     priority := HIGH;
     acceptanceCriteria := ["User can login"];
     createdAt := Some new_year_morning;
     updatedAt := Some new_year_morning;
     progress := None;
     tags := None;
     estimatedHours := None;
     actualHours := None;
     assignee := None |}.

(** The same feature with an estimate of [Infinity] hours, which is what
    [JSON.parse] makes of [1e999]. *)
Definition endless_feature : Feature :=
  {| id := "feature-123";
     projectId := "test-project-123";
     name := "User Authentication";
     description := "Implement user login";
     status := IN_PROGRESS;
     priority := HIGH;
     acceptanceCriteria := ["User can login"];
     createdAt := Some new_year_morning;
     updatedAt := Some new_year_morning;
     progress := None;
     tags := None;
     estimatedHours := Some PosInfinity;
     actualHours := None;
     assignee := None |}.

Definition complete_login : FeatureManagement.UpdateFeatureStatusParams :=
  {| FeatureManagement.featureId := "feature-123";
     FeatureManagement.new_status := COMPLETED;
     FeatureManagement.new_progress := None |}.

Definition unknown_update : FeatureManagement.UpdateFeatureStatusParams :=
  {| FeatureManagement.featureId := "feature-404";
     FeatureManagement.new_status := COMPLETED;
     FeatureManagement.new_progress := None |}.

(** A handler that has served no call yet. *)
Definition fresh_handler : NewTools.state :=
  {| NewTools.locale := I18n.zh; NewTools.currentSessionId := None;
     NewTools.the_world := empty_world |}.

End Features.

Section Generator.
Import Frameworks TestGenerator.

(** A requirement that speaks of a number in a sentence without
    should, must, when or given. *)
Definition number_aside : TestGenerationParams :=
  {| requirements := "The input is a number. The parser should accept it.";
     language := TYPESCRIPT; framework := "jest"; testType := UNIT; existingCode := None |}.

Definition add_numbers : TestGenerationParams :=
  {| requirements := "Calculator should add two numbers correctly";
     language := TYPESCRIPT; framework := "jest"; testType := UNIT; existingCode := None |}.

End Generator.

Section MoreCoverage.



End MoreCoverage.

Section Validator.
Import CycleValidator.

(** A project directory that is not a git repository. *)
Definition no_git : Env :=
  {| git_log := fun _ _ => Throw (Error "fatal: not a git repository");
     determineCurrentState := fun _ _ => RED |}.

Definition validate_app : TDDCycleValidationParams :=
  {| projectPath := "/srv/app"; gitHistory := None; timeWindow := None |}.

End Validator.

Section MoreGenerator.
Import Frameworks TestGenerator.

(** The framework given by its display name. *)
Definition cart_on_mocha : TestGenerationParams :=
  {| requirements := "The cart should count its items";
     language := TYPESCRIPT; framework := "Mocha"; testType := UNIT; existingCode := None |}.

End MoreGenerator.

Section MoreFeatures.
Import Schema FeatureManagement.

(** The feature of the storage tests without its name. *)
Definition nameless_feature : Feature :=
  {| id := "feature-123";
     projectId := "test-project-123";
     name := "";
     description := "Implement user login";
     status := IN_PROGRESS;
     priority := HIGH;
     acceptanceCriteria := ["User can login"];
     createdAt := Some new_year_morning;
     updatedAt := Some new_year_morning;
     progress := None;
     tags := None;
     estimatedHours := None;
     actualHours := None;
     assignee := None |}.



Definition two_tests_written : PartialProgress :=
  {| p_testsWritten := Some (num 2); p_testsPass := None;
     p_implementationFiles := None; p_coveragePercentage := None |}.

Definition start_login : UpdateFeatureStatusParams :=
  {| featureId := "feature-123";
     new_status := IN_PROGRESS;
     new_progress := Some two_tests_written |}.

End MoreFeatures.

End Examples.

(* ================================================================== *)
(** * Theorems: the reference runtime *)
(* ================================================================== *)

Section ReferenceRuntimeFacts.
Import Js ReferenceRuntime.
Open Scope Z_scope.

Lemma all_from_spec (check : Z -> bool) (len : positive) (lo : Z) :
  all_from check lo len = true -> forall i, lo <= i < lo + Zpos len -> check i = true.
Proof.
  revert lo; induction len as [p IH|p IH|]; intros lo; cbn [all_from].
  - rewrite !andb_true_iff. intros [[H0 H1] H2] i Hi.
    destruct (Z.eq_dec i lo) as [->|]; [assumption|].
    destruct (Z_lt_dec i (lo + 1 + Zpos p)); [apply (IH _ H1); lia|apply (IH _ H2); lia].
  - rewrite andb_true_iff. intros [H1 H2] i Hi.
    destruct (Z_lt_dec i (lo + Zpos p)); [apply (IH _ H1); lia|apply (IH _ H2); lia].
  - intros H0 i Hi. now replace i with lo by lia.
Qed.

Lemma era_day_checked (doe : Z) : 0 <= doe < era_days -> era_day_ok doe = true.
Proof.
  apply (all_from_spec era_day_ok 146097 0). vm_compute. reflexivity.
Qed.

Lemma days_of_civil_of_days (z : Z) : days_of_civil (civil_of_days z) = z.
Proof.
  unfold civil_of_days, days_of_civil.
  pose proof (Z.mod_pos_bound (z + epoch_shift) era_days eq_refl) as Hdoe.
  pose proof (era_day_checked _ Hdoe) as Hok. unfold era_day_ok in Hok.
  destruct (civil_of_era_day _) as [[yoe mp] d]. cbn [year month day].
  rewrite !andb_true_iff in Hok. destruct Hok as [[[[[[H1 H2] H3] H4] H5] H6] H7].
  apply Z.leb_le in H1, H3, H5, H6. apply Z.ltb_lt in H2, H4. apply Z.eqb_eq in H7.
  set (m := if mp <? 10 then mp + 3 else mp - 9).
  replace (yoe + (z + epoch_shift) / era_days * 400 + (if m <=? 2 then 1 else 0)
           - (if m <=? 2 then 1 else 0))
    with (yoe + (z + epoch_shift) / era_days * 400) by lia.
  rewrite Z.div_add, Z.mod_add, (Z.div_small yoe 400), (Z.mod_small yoe 400) by lia.
  assert ((m + 9) mod 12 = mp) as ->.
  { unfold m. destruct (mp <? 10) eqn:E.
    - apply Z.ltb_lt in E. replace (mp + 3 + 9) with (mp + 1 * 12) by lia.
      rewrite Z.mod_add by lia. apply Z.mod_small. lia.
    - apply Z.ltb_ge in E. replace (mp - 9 + 9) with mp by lia. apply Z.mod_small. lia. }
  rewrite H7. pose proof (Z.div_mod (z + epoch_shift) era_days ltac:(discriminate)). lia.
Qed.


(** ** Reading back what was written *)

Lemma digit_value_digit_char (d : Z) : 0 <= d < 10 -> digit_value (digit_char d) = Some d.
Proof.
  intros Hd. assert (d = 0 \/ d = 1 \/ d = 2 \/ d = 3 \/ d = 4 \/ d = 5 \/ d = 6 \/ d = 7
                     \/ d = 8 \/ d = 9) as Hcases by lia.
  repeat (destruct Hcases as [->|Hcases]; [reflexivity|]). now subst.
Qed.

Lemma append_assoc (a b c : string) : (a +:+ b) +:+ c = a +:+ (b +:+ c).
Proof.
  induction a as [|x a IH]; [reflexivity|].
  change (String x ((a +:+ b) +:+ c) = String x (a +:+ (b +:+ c))). now rewrite IH.
Qed.

Lemma read_fixed_succ (w : nat) (acc : Z) (s : string) :
  read_fixed (S w) acc s
  = match read_fixed w acc s with
    | Some (a, r) => read_fixed 1 a r
    | None => None
    end.
Proof.
  revert acc s; induction w as [|w IH]; intros acc s; [now destruct s|].
  destruct s as [|c r]; [reflexivity|].
  change (read_fixed (S (S w)) acc (String c r))
    with (match digit_value c with
          | Some d => read_fixed (S w) (10 * acc + d) r
          | None => None
          end).
  cbn [read_fixed] in *. destruct (digit_value c); [apply IH|reflexivity].
Qed.

Lemma read_fixed_pad (w : nat) (n acc : Z) (rest : string) :
  0 <= n < 10 ^ Z.of_nat w ->
  read_fixed w acc (pad w n +:+ rest) = Some (acc * 10 ^ Z.of_nat w + n, rest).
Proof.
  revert n acc rest; induction w as [|w IH]; intros n acc rest Hn.
  - cbn in *. f_equal. f_equal. lia.
  - rewrite read_fixed_succ. cbn [pad]. rewrite append_assoc.
    change (String (digit_char (n mod 10)) "" +:+ rest) with (String (digit_char (n mod 10)) rest).
    rewrite Nat2Z.inj_succ, Z.pow_succ_r in * by lia.
    rewrite IH by (split; [apply Z.div_pos; lia|apply Z.div_lt_upper_bound; lia]).
    cbn [read_fixed]. rewrite digit_value_digit_char by (apply Z.mod_pos_bound; lia).
    f_equal. f_equal. pose proof (Z.div_mod n 10 ltac:(discriminate)). lia.
Qed.

Lemma read_pad (w : nat) (n : Z) (rest : string) :
  0 <= n < 10 ^ Z.of_nat w -> read_fixed w 0 (pad w n +:+ rest) = Some (n, rest).
Proof. intros Hn. now rewrite read_fixed_pad. Qed.

Lemma expect_char (c : ascii) (rest : string) :
  expect c (String c EmptyString +:+ rest) = Some rest.
Proof.
  change (String c EmptyString +:+ rest) with (String c rest). cbn. now rewrite Ascii.eqb_refl.
Qed.

Lemma read_year_text (y : Z) (rest : string) :
  Z.abs y < 1000000 -> read_year (year_text y +:+ rest) = Some (y, rest).
Proof.
  intros Hy. unfold read_year, year_text.
  destruct ((0 <=? y) && (y <=? 9999)) eqn:Hsmall.
  - apply andb_true_iff in Hsmall. destruct Hsmall as [H0 H1].
    apply Z.leb_le in H0, H1. rewrite read_pad by (cbn; lia). reflexivity.
  - rewrite append_assoc. destruct (y <? 0) eqn:Hneg.
    + apply Z.ltb_lt in Hneg.
      change ("-" +:+ pad 6 (Z.abs y) +:+ rest) with (String "-" (pad 6 (Z.abs y) +:+ rest)).
      change (read_fixed 4 0 (String "-" (pad 6 (Z.abs y) +:+ rest))) with (@None (Z * string)).
      cbv iota. rewrite read_pad by (cbn; lia). do 2 f_equal. lia.
    + apply Z.ltb_ge in Hneg.
      change ("+" +:+ pad 6 (Z.abs y) +:+ rest) with (String "+" (pad 6 (Z.abs y) +:+ rest)).
      change (read_fixed 4 0 (String "+" (pad 6 (Z.abs y) +:+ rest))) with (@None (Z * string)).
      cbv iota. rewrite read_pad by (cbn; lia). do 2 f_equal. lia.
Qed.

Lemma civil_of_days_bounds (z : Z) :
  Z.abs z <= 100000000 ->
  let c := civil_of_days z in
  Z.abs (year c) < 1000000 /\ 1 <= month c <= 12 /\ 1 <= day c <= 31.
Proof.
  intros Hz. cbn zeta. unfold civil_of_days.
  pose proof (Z.mod_pos_bound (z + epoch_shift) era_days eq_refl) as Hdoe.
  pose proof (era_day_checked _ Hdoe) as Hok. unfold era_day_ok in Hok.
  destruct (civil_of_era_day _) as [[yoe mp] d]. cbn [year month day].
  rewrite !andb_true_iff in Hok. destruct Hok as [[[[[[H1 H2] H3] H4] H5] H6] _].
  apply Z.leb_le in H1, H3, H5, H6. apply Z.ltb_lt in H2, H4.
  assert (-680 <= (z + epoch_shift) / era_days <= 690) as Hera.
  { unfold epoch_shift, era_days in *. split.
    - apply Z.div_le_lower_bound; lia.
    - apply Z.div_le_upper_bound; lia. }
  destruct (mp <? 10) eqn:E; [apply Z.ltb_lt in E|apply Z.ltb_ge in E];
    destruct (_ <=? 2); lia.
Qed.

Lemma within_ok (lo hi x : Z) : lo <= x <= hi -> within lo hi x = Some tt.
Proof.
  intros [H1 H2]. unfold within. apply Z.leb_le in H1, H2. now rewrite H1, H2.
Qed.

Lemma parse_iso_text (t : Z) : valid_time t = true -> parse_iso (iso_text t) = Some t.
Proof.
  unfold valid_time, max_time. intros Ht. apply Z.leb_le in Ht.
  assert (Z.abs (t / ms_per_day) <= 100000000) as Hdays.
  { unfold ms_per_day. apply Z.abs_le. split.
    - apply Z.div_le_lower_bound; lia.
    - apply Z.div_le_upper_bound; lia. }
  pose proof (civil_of_days_bounds _ Hdays) as (Hy & Hm & Hd). cbn zeta in Hy, Hm, Hd.
  pose proof (days_of_civil_of_days (t / ms_per_day)) as Hback.
  pose proof (Z.mod_pos_bound t ms_per_day eq_refl) as Hrest.
  pose proof (Z.div_mod t ms_per_day ltac:(discriminate)) as Hsplit.
  unfold parse_iso, iso_text.
  destruct (civil_of_days (t / ms_per_day)) as [y m d]. cbn [year month day] in *.
  set (rest := t mod ms_per_day) in *. unfold ms_per_day in Hrest.
  assert (0 <= rest / 3600000 < 24) as Hh
    by (split; [apply Z.div_pos; lia|apply Z.div_lt_upper_bound; lia]).
  pose proof (Z.mod_pos_bound (rest / 60000) 60 eq_refl) as Hmi.
  pose proof (Z.mod_pos_bound (rest / 1000) 60 eq_refl) as Hs.
  pose proof (Z.mod_pos_bound rest 1000 eq_refl) as Hms.
  rewrite read_year_text by assumption. cbn [mbind option_bind].
  rewrite expect_char. cbn [mbind option_bind].
  rewrite read_pad by (cbn; lia). cbn [mbind option_bind].
  rewrite within_ok by lia. cbn [mbind option_bind].
  rewrite expect_char. cbn [mbind option_bind].
  rewrite read_pad by (cbn; lia). cbn [mbind option_bind].
  rewrite within_ok by lia. cbn [mbind option_bind].
  rewrite expect_char. cbn [mbind option_bind].
  rewrite read_pad by (cbn; lia). cbn [mbind option_bind].
  rewrite within_ok by lia. cbn [mbind option_bind].
  rewrite expect_char. cbn [mbind option_bind].
  rewrite read_pad by (cbn; lia). cbn [mbind option_bind].
  rewrite within_ok by lia. cbn [mbind option_bind].
  rewrite expect_char. cbn [mbind option_bind].
  rewrite read_pad by (cbn; lia). cbn [mbind option_bind].
  rewrite within_ok by lia. cbn [mbind option_bind].
  rewrite expect_char. cbn [mbind option_bind].
  rewrite read_pad by (cbn; lia). cbn [mbind option_bind].
  change ("Z" : string) with (String "Z" EmptyString +:+ EmptyString).
  rewrite expect_char. cbn [mbind option_bind].
  f_equal. rewrite Hback. unfold ms_per_day in *.
  pose proof (Z.div_mod rest 3600000 ltac:(discriminate)).
  pose proof (Z.div_mod rest 60000 ltac:(discriminate)).
  pose proof (Z.div_mod rest 1000 ltac:(discriminate)).
  pose proof (Z.div_mod (rest / 60000) 60 ltac:(discriminate)).
  pose proof (Z.div_mod (rest / 1000) 60 ltac:(discriminate)).
  assert (rest / 60000 / 60 = rest / 3600000) by (rewrite Z.div_div by lia; reflexivity).
  assert (rest / 1000 / 60 = rest / 60000) by (rewrite Z.div_div by lia; reflexivity).
  lia.
Qed.

Lemma time_of_ms (t : time) : time_of (ms t) = Some t.
Proof.
  destruct t as [z ok]. unfold time_of. cbn [ms].
  destruct (Bool.bool_dec (valid_time z) true) as [ok'|bad]; [|contradiction].
  f_equal. f_equal. apply UIP_dec, Bool.bool_dec.
Qed.

Lemma reference_Date_parse_toISOString (t : time) : Date_parse (toISOString t) = Some t.
Proof.
  unfold Date_parse, toISOString. rewrite parse_iso_text by apply ms_valid.
  cbn [mbind option_bind]. apply time_of_ms.
Qed.

Lemma reference_toISOString_nonempty (t : time) : toISOString t <> EmptyString.
Proof.
  intros Hempty. pose proof (reference_Date_parse_toISOString t) as Hparse.
  rewrite Hempty in Hparse. discriminate Hparse.
Qed.

End ReferenceRuntimeFacts.

(** The reference runtime meets the interface. *)
Definition reference_runtime : Js.Runtime :=
  {| Js.toISOString := ReferenceRuntime.toISOString;
     Js.Date_parse := ReferenceRuntime.Date_parse;
     Js.display := ReferenceRuntime.display;
     Js.toISOString_nonempty := reference_toISOString_nonempty;
     Js.Date_parse_toISOString := reference_Date_parse_toISOString |}.

(* ================================================================== *)
(** * Theorems: coverage analyzer *)
(* ================================================================== *)

Section CoverageFacts.
Import Js Coverage Examples.

(** C7.  [calculatePercentage(8, 10)] is 80 and [calculatePercentage(0, 0)]
    is 0; a total of 0 is caught by the guard and answered with 0 whatever
    the covered count is, an infinity and NaN included, so that the division
    by the total is never reached. *)
Theorem calculatePercentage_guarded :
  calculatePercentage (num 8) (num 10) = num 80
  /\ calculatePercentage (num 0) (num 0) = num 0
  /\ forall covered : number, calculatePercentage covered (num 0) = num 0.
Proof.
  split; [reflexivity | split; [reflexivity | intros covered; reflexivity]].
Qed.

(** Two prefixes of one string are prefixes of each other, one way or the
    other. *)
Lemma prefixes_comparable (line p q : string) :
  String.prefix p line = true -> String.prefix q line = true ->
  String.prefix p q = true \/ String.prefix q p = true.
Proof.
  revert p q; induction line as [|c line IH]; intros [|a p] [|b q]; simpl; auto.
  - discriminate.
  - destruct (ascii_dec a c) as [->|]; [|discriminate].
    destruct (ascii_dec b c) as [->|]; [|discriminate].
    intros Hp Hq. destruct (ascii_dec c c); [|congruence]. now apply IH.
Qed.

Lemma counters_exclusive (line p q : string) :
  String.prefix p q = false -> String.prefix q p = false ->
  startsWith line p = true -> startsWith line q = false.
Proof.
  unfold startsWith; intros Hpq Hqp Hp.
  destruct (String.prefix q line) eqn:Hq; [|reflexivity].
  destruct (prefixes_comparable line p q Hp Hq); congruence.
Qed.

Ltac other_counter H :=
  match type of H with
  | startsWith ?l ?p = true =>
      match goal with
      | |- context [startsWith l ?q] =>
          rewrite (counters_exclusive l p q eq_refl eq_refl H)
      end
  end.

Lemma lcov_lines_totals (lines : list string) (t : Totals) :
  let t' := fold_left lcov_line lines t in
  totalLines t' = sum_counter "LF:" 3 lines (totalLines t)
  /\ coveredLines t' = sum_counter "LH:" 3 lines (coveredLines t)
  /\ totalFunctions t' = sum_counter "FNF:" 4 lines (totalFunctions t)
  /\ coveredFunctions t' = sum_counter "FNH:" 4 lines (coveredFunctions t)
  /\ totalBranches t' = sum_counter "BRF:" 4 lines (totalBranches t)
  /\ coveredBranches t' = sum_counter "BRH:" 4 lines (coveredBranches t).
Proof.
  revert t; induction lines as [|line lines IH]; intros t; [cbn; tauto|].
  cbn zeta in *. cbn [fold_left]. specialize (IH (lcov_line t line)).
  unfold sum_counter in *. cbn [List.filter map].
  destruct IH as (H1 & H2 & H3 & H4 & H5 & H6).
  rewrite H1, H2, H3, H4, H5, H6. clear H1 H2 H3 H4 H5 H6.
  unfold lcov_line.
  destruct (startsWith line "SF:") eqn:HSF.
  { repeat other_counter HSF. cbn. tauto. }
  destruct (startsWith line "LF:") eqn:HLF.
  { repeat other_counter HLF. cbn. tauto. }
  destruct (startsWith line "LH:") eqn:HLH.
  { repeat other_counter HLH. cbn. tauto. }
  destruct (startsWith line "FNF:") eqn:HFNF.
  { repeat other_counter HFNF. cbn. tauto. }
  destruct (startsWith line "FNH:") eqn:HFNH.
  { repeat other_counter HFNH. cbn. tauto. }
  destruct (startsWith line "BRF:") eqn:HBRF.
  { repeat other_counter HBRF. cbn. tauto. }
  destruct (startsWith line "BRH:") eqn:HBRH; cbn; tauto.
Qed.

Lemma lcov_sections_lines (sections : list string) (t : Totals) :
  fold_left lcov_section sections t
  = fold_left lcov_line
      (flat_map (fun section => split section (String "010" EmptyString)) sections) t.
Proof.
  revert t; induction sections as [|section sections IH]; intros t; [reflexivity|].
  cbn [fold_left flat_map]. rewrite fold_left_app. apply IH.
Qed.

(** C6.  An LCOV text whose records carry the counters LF:10, LH:8, FNF:1,
    FNH:1, BRF:4 and BRH:3, each on one line and whatever else the records
    hold, is given the overall coverage lines = 80, functions = 100,
    branches = 75 (and statements = lines). *)
Theorem parseLcovCoverage_counters (lcovContent : string) :
  counter_lines "LF:" lcovContent = ["LF:10"] ->
  counter_lines "LH:" lcovContent = ["LH:8"] ->
  counter_lines "FNF:" lcovContent = ["FNF:1"] ->
  counter_lines "FNH:" lcovContent = ["FNH:1"] ->
  counter_lines "BRF:" lcovContent = ["BRF:4"] ->
  counter_lines "BRH:" lcovContent = ["BRH:3"] ->
  parseLcovCoverage lcovContent
  = {| lines := num 80; functions := num 100; branches := num 75; statements := num 80 |}.
Proof.
  unfold counter_lines, record_lines, parseLcovCoverage.
  intros HLF HLH HFNF HFNH HBRF HBRH.
  rewrite lcov_sections_lines.
  destruct (lcov_lines_totals
              (flat_map (fun section => split section (String "010" EmptyString))
                        (split lcovContent "end_of_record")) zero_totals)
    as (H1 & H2 & H3 & H4 & H5 & H6).
  cbn zeta in *. rewrite H1, H2, H3, H4, H5, H6. unfold sum_counter.
  rewrite HLF, HLH, HFNF, HFNH, HBRF, HBRH. reflexivity.
Qed.

Lemma parseLcovCoverage_counters_witness :
  parseLcovCoverage calculator_lcov
  = {| lines := num 80; functions := num 100; branches := num 75; statements := num 80 |}.
Proof.
  apply (parseLcovCoverage_counters calculator_lcov); reflexivity.
Defined.

End CoverageFacts.

(* ================================================================== *)
(** * Theorems: TDD cycle validator *)
(* ================================================================== *)

Section CycleValidatorFacts.
Import Js CycleValidator.
Variable env : Env.

Lemma analyzeTDDAdherence_violations (look : nat) (projectPath : string) (commits : list string) :
  let a := analyzeCommitPatterns commits in
  violations (analyzeTDDAdherence env look projectPath commits)
  = (if hasImplementationBeforeTests a then [premature] else [])
    ++ (if lacksTestCommits a then [no_tests] else [])
    ++ (if lacksRefactorCommits a && hasMultipleFeatureCommits a then [no_refactor] else []).
Proof.
  cbn zeta. unfold analyzeTDDAdherence.
  destruct (hasImplementationBeforeTests _), (lacksTestCommits _),
    (lacksRefactorCommits _ && hasMultipleFeatureCommits _); reflexivity.
Qed.

Lemma analyzeTDDAdherence_score (look : nat) (projectPath : string) (commits : list string) :
  let r := analyzeTDDAdherence env look projectPath commits in
  score r = Z.max (100 - penalties (violations r)) 0.
Proof.
  cbn zeta. unfold analyzeTDDAdherence.
  destruct (hasImplementationBeforeTests _), (lacksTestCommits _),
    (lacksRefactorCommits _ && hasMultipleFeatureCommits _); reflexivity.
Qed.

(** C9.  [validateCycle] returns for every commit list.  Its score starts
    at 100 and loses 30 for premature implementation, 25 for the absence of
    test commits and 20 for skipped refactoring, each category being
    reported at most once; it is cut off below at 0 and so lies between 0
    and 100; [isValid] holds exactly when no violation was found. *)
Theorem validateCycle_score (params : TDDCycleValidationParams) :
  exists r, validateCycle env params = Return r
    /\ (let a := analyzeCommitPatterns (commits_of env params) in
        found_violations r
        = (if hasImplementationBeforeTests a then [premature] else [])
          ++ (if lacksTestCommits a then [no_tests] else [])
          ++ (if lacksRefactorCommits a && hasMultipleFeatureCommits a then [no_refactor] else []))
    /\ adherence_score r = Z.max (100 - penalties (found_violations r)) 0
    /\ (0 <= adherence_score r <= 100)%Z
    /\ (isValid r = true <-> found_violations r = []).
Proof.
  unfold validateCycle. eexists. split; [reflexivity|]. cbn [found_violations adherence_score isValid].
  fold (commits_of env params).
  pose proof (analyzeTDDAdherence_violations 1 (projectPath params) (commits_of env params)) as Hv.
  pose proof (analyzeTDDAdherence_score 1 (projectPath params) (commits_of env params)) as Hs.
  cbn zeta in Hv, Hs. split; [exact Hv|]. split; [exact Hs|]. split.
  - rewrite Hs, Hv.
    destruct (hasImplementationBeforeTests _), (lacksTestCommits _),
      (lacksRefactorCommits _ && hasMultipleFeatureCommits _); cbn; lia.
  - destruct (violations _); cbn; split; congruence.
Qed.

End CycleValidatorFacts.

(* ================================================================== *)
(** * Theorems: test runner *)
(* ================================================================== *)

Section TestRunnerFacts.
Import Js Frameworks TestRunner Examples.

(** C8.  Once the framework is known and the project path is a directory,
    any failure of the spawned command (the error [exec] rejects with,
    whether the command failed, its binary is missing or it timed out) is
    caught: [runTests] returns, and what it returns is the synthetic result
    of [handleTestError], one suite with one failed test carrying the error
    text, the totals being total = 1, passed = 0, failed = 1, skipped = 0. *)
Theorem runTests_subprocess_failure
    (env : Env) (params : TestRunnerParams) (framework : Framework) (e : exn) (n : nat) :
  getFrameworkConfig (testFramework params) = Some framework ->
  is_directory env (projectPath params) = true ->
  exec env (buildTestCommand framework params) (projectPath params) (timeout_of params)
    = Throw e ->
  exists r n',
    runTests env params n = (Return r, n')
    /\ TestRunner.framework r = testFramework params
    /\ total (overall r) = 1%Z /\ n_passed (overall r) = 0%Z
    /\ n_failed (overall r) = 1%Z /\ n_skipped (overall r) = 0%Z
    /\ exists suite test,
         suites r = [suite] /\ summary suite = overall r
         /\ suite_tests suite = [test]
         /\ status test = failed /\ error test = Some (error_text e).
Proof.
  intros Hfw Hdir Hexec. unfold runTests. rewrite Hfw.
  unfold bind, lift, catch, validateProjectPath, tick. rewrite Hdir, Hexec. cbn.
  do 2 eexists. split; [reflexivity|]. cbn.
  repeat split. do 2 eexists. repeat split.
Qed.

Lemma runTests_subprocess_failure_witness :
  exists r n',
    runTests missing_binary jest_run 0 = (Return r, n')
    /\ TestRunner.framework r = "jest"
    /\ total (overall r) = 1%Z /\ n_passed (overall r) = 0%Z
    /\ n_failed (overall r) = 1%Z /\ n_skipped (overall r) = 0%Z
    /\ exists suite test,
         suites r = [suite] /\ summary suite = overall r
         /\ suite_tests suite = [test]
         /\ status test = failed
         /\ error test = Some (error_text (Error "Command failed: jest: command not found")).
Proof.
  apply (runTests_subprocess_failure missing_binary jest_run
           {| key := "jest"; name := "Jest"; language := TYPESCRIPT;
              run := "jest"; coverage := Some "jest --coverage" |}
           (Error "Command failed: jest: command not found") 0); reflexivity.
Defined.

End TestRunnerFacts.

(* ================================================================== *)
(** * Theorems: tool surface *)
(* ================================================================== *)

Section ServerFacts.
Import Js I18n Tools Server Examples.

(** C2.  On a server that came up, [tools/list] answers with the fifteen
    legacy tool definitions when USE_NEW_TOOLS is unset or 'false' (or
    anything else than 'true'), and with exactly three definitions, named
    tdd, feature and tracking, when it is 'true'. *)
Theorem tools_list_by_flag (env : Env) (w : Storage.world) (server : Running) :
  start env w = Return server ->
  (USE_NEW_TOOLS env <> Some "true" ->
     exists tools, tools_list server = Return tools /\ length tools = 15)
  /\ (USE_NEW_TOOLS env = Some "true" ->
        exists tools, tools_list server = Return tools /\ length tools = 3
                      /\ map tool_name tools = ["tdd"; "feature"; "tracking"]).
Proof.
  unfold start. destruct (setLocale _) as [locale|]; [|discriminate].
  intros [= <-]. unfold tools_list. cbn [useNewTools handler]. split.
  - intros Hflag.
    assert (env_is (USE_NEW_TOOLS env) "true" = false) as ->.
    { destruct (USE_NEW_TOOLS env) as [v|]; [|reflexivity]. cbn.
      destruct (String.eqb_spec v "true"); [congruence|reflexivity]. }
    eexists; split; reflexivity.
  - intros ->. cbn. eexists; repeat split.
Qed.

Lemma tools_list_by_flag_witness :
  (exists tools,
     tools_list {| useNewTools := false;
                   handler := {| NewTools.locale := zh; NewTools.currentSessionId := None;
                                 NewTools.the_world := empty_world |} |} = Return tools
     /\ length tools = 15)
  /\ (exists tools,
        tools_list {| useNewTools := true;
                      handler := {| NewTools.locale := zh; NewTools.currentSessionId := None;
                                    NewTools.the_world := empty_world |} |} = Return tools
        /\ length tools = 3 /\ map tool_name tools = ["tdd"; "feature"; "tracking"]).
Proof.
  split.
  - apply (tools_list_by_flag legacy_env empty_world _ eq_refl). discriminate.
  - apply (tools_list_by_flag new_tools_env empty_world _ eq_refl). reflexivity.
Defined.

End ServerFacts.

(* ================================================================== *)
(** * Theorems: test generator *)
(* ================================================================== *)

Section TestGeneratorFacts.
Import Js Frameworks TestGenerator Examples.

Lemma collect_member {A B : Type} (f : A -> outcome (list B)) (items : list A) (out : list B) (x : A) :
  collect f items = Return out -> In x items ->
  exists ys, f x = Return ys /\ forall y, In y ys -> In y out.
Proof.
  revert out; induction items as [|a items IH]; intros out Hc Hin; [destruct Hin|].
  cbn in Hc. destruct (f a) as [ys|] eqn:Hfa; [|discriminate]. cbn in Hc.
  destruct (collect f items) as [zs|] eqn:Hrest; [|discriminate]. cbn in Hc.
  injection Hc as <-. destruct Hin as [->|Hin].
  - exists ys. split; [assumption|]. intros y Hy. apply in_or_app. now left.
  - destruct (IH zs eq_refl Hin) as (ys' & Hfx & Hsub).
    exists ys'. split; [assumption|]. intros y Hy. apply in_or_app. right. now apply Hsub.
Qed.

Lemma identifyEdgeCases_number (behavior : string) :
  includes (toLowerCase behavior) "number" = true ->
  forall c, In c ["zero value"; "negative value"; "maximum value"] ->
            In c (identifyEdgeCases behavior).
Proof.
  intros Hn c Hc. unfold identifyEdgeCases. rewrite Hn. cbn [orb].
  cbn [app]. cbn in Hc. intuition subst; cbn; auto.
Qed.

(** C5, as the code has it.  The edge cases are looked up per behaviour,
    and the behaviours of a requirement are its sentences that mention
    should, must, when or given (the whole requirement when no sentence
    does).  Every behaviour that contains "number", in any letter case,
    brings the edge cases zero value, negative value and maximum value; and
    whenever the tests are generated, the output holds for each of the three
    a test described as [Test edge case: ...] and named after the behaviour
    and the case. *)
Theorem number_behavior_edge_cases
    (params : TestGenerationParams) (now : time) (out : GeneratedTests) (behavior : string) :
  generateTests params now = Return out ->
  In behavior (parseRequirements (requirements params)) ->
  includes (toLowerCase behavior) "number" = true ->
  forall c, In c ["zero value"; "negative value"; "maximum value"] ->
    In c (identifyEdgeCases behavior)
    /\ exists t, In t (tests out)
         /\ test_description t = "Test edge case: " +:+ c
         /\ test_name t = generateTestName behavior (Some c).
Proof.
  intros Hgen Hb Hn c Hc.
  pose proof (identifyEdgeCases_number behavior Hn c Hc) as Hedge.
  split; [assumption|].
  unfold generateTests in Hgen.
  destruct (negb _); [discriminate|].
  destruct (generateTestCases params) as [ts|] eqn:Hts; [|discriminate].
  cbn in Hgen. injection Hgen as <-. cbn [tests].
  unfold generateTestCases in Hts.
  destruct (collect_member _ _ _ behavior Hts Hb) as (ys & Hys & Hsub).
  unfold and_then in Hys.
  destruct (generateHappyPathTest behavior params) as [h|]; [|discriminate].
  destruct (generateEdgeCaseTests behavior params) as [es|] eqn:Hes; [|discriminate].
  destruct (generateErrorCaseTests behavior params) as [rs|]; [|discriminate].
  injection Hys as <-.
  unfold generateEdgeCaseTests in Hes.
  destruct (collect_member _ _ _ c Hes Hedge) as (one & Hone & Hin).
  unfold case_test, and_then in Hone.
  destruct (generateTestCode _ _ _ _ _) as [code|]; [|discriminate].
  injection Hone as <-.
  eexists. split.
  - apply Hsub. right. apply in_or_app. left. apply Hin. now left.
  - split; reflexivity.
Qed.

Lemma number_behavior_edge_cases_witness :
  exists out, generateTests add_numbers epoch = Return out
    /\ forall c, In c ["zero value"; "negative value"; "maximum value"] ->
         In c (identifyEdgeCases "Calculator should add two numbers correctly")
         /\ exists t, In t (tests out)
              /\ test_description t = "Test edge case: " +:+ c
              /\ test_name t
                 = generateTestName "Calculator should add two numbers correctly" (Some c).
Proof.
  eexists. split; [reflexivity|].
  apply (number_behavior_edge_cases add_numbers epoch _
           "Calculator should add two numbers correctly");
    [reflexivity | left; reflexivity | reflexivity].
Defined.

(** C5 does not hold of every requirement that contains "number": the
    sentence with the word is dropped when another sentence mentions
    should, and the sentence kept brings the generic edge cases only. *)
Lemma number_aside_no_edge_cases :
  includes (requirements number_aside) "number" = true
  /\ exists out, generateTests number_aside epoch = Return out
       /\ map test_description (tests out)
          = [ "Test the happy path for: The parser should accept it";
              "Test edge case: boundary condition";
              "Test edge case: extreme value";
              "Test error case: null input";
              "Test error case: invalid input";
              "Test error case: unauthorized access" ]
       /\ ~ (exists t, In t (tests out) /\ test_description t = "Test edge case: zero value").
Proof.
  split; [reflexivity|]. eexists. split; [reflexivity|]. split; [reflexivity|].
  intros (t & Hin & Hd). vm_compute in Hin.
  repeat (destruct Hin as [Ht|Hin]; [subst t; vm_compute in Hd; discriminate Hd|]).
  destruct Hin.
Qed.

End TestGeneratorFacts.

(* ================================================================== *)
(** * Theorems: the record store *)
(* ================================================================== *)

Section StorageFacts.
Import Js Schema Storage.
Context `{Runtime}.

(** ** Reading *)

Lemma restoreDates_object (fields : list (string * value)) :
  restoreDates (VObj fields)
  = VObj (map (fun entry => (fst entry, restore_prop (fst entry) (snd entry))) fields).
Proof.
  cbn [restoreDates]. f_equal. apply map_ext. now intros [k x].
Qed.

Lemma restoreDates_is_object (v : value) :
  is_object v = true -> is_object (restoreDates v) = true.
Proof. now destruct v. Qed.

Lemma assoc_map_props (g : string -> value -> value) (k : string) (fields : list (string * value)) :
  assoc k (map (fun entry => (fst entry, g (fst entry) (snd entry))) fields)
  = option_map (g k) (assoc k fields).
Proof.
  induction fields as [|[k' x] fields IH]; [reflexivity|]. cbn.
  destruct (String.eqb_spec k' k) as [->|]; [reflexivity|exact IH].
Qed.

(** A property outside the six date names that holds a string keeps it;
    no other property comes to hold a string. *)
Lemma restore_prop_is_string (k s : string) (x : value) :
  is_dateField k = false -> is_string (restore_prop k x) s = is_string x s.
Proof.
  intros Hk. unfold restore_prop, date_string. destruct x; try reflexivity.
  now rewrite Hk.
Qed.

Lemma restoreDates_has_prop (k s : string) (doc : value) :
  is_dateField k = false -> has_prop k s (restoreDates doc) = has_prop k s doc.
Proof.
  intros Hk. destruct doc; try reflexivity.
  rewrite restoreDates_object. unfold has_prop. rewrite assoc_map_props.
  destruct (assoc k fields) as [x|]; [|reflexivity]. cbn.
  now apply restore_prop_is_string.
Qed.

Lemma readJsonlFile_records (w : world) (projectId file : string) :
  readJsonlFile projectId file w = (Return (records w projectId file), w).
Proof.
  unfold readJsonlFile, records, file_lines_of.
  destruct (disk w !! projectId) as [dir|]; [|reflexivity].
  now destruct (dir !! file).
Qed.

Lemma records_stored (w : world) (projectId file : string) (item : value) :
  In item (records w projectId file) ->
  exists doc, stored w projectId file doc /\ item = restoreDates doc.
Proof.
  unfold records, file_lines_of, stored. intros Hin.
  apply list_elem_of_In, list_elem_of_omap in Hin. destruct Hin as (l & Hl & Hp).
  destruct l as [doc|]; [|discriminate]. injection Hp as <-.
  apply list_elem_of_In in Hl.
  destruct (disk w !! projectId) as [dir|]; [|destruct Hl].
  destruct (dir !! file) as [content|] eqn:Hfile; [|destruct Hl].
  exists doc. split; [|reflexivity]. now exists dir, content.
Qed.

Lemma records_objects (w : world) (projectId file : string) :
  objects_only w -> Forall (fun item => is_object item = true) (records w projectId file).
Proof.
  intros Hw. apply List.Forall_forall. intros item Hin.
  destruct (records_stored _ _ _ _ Hin) as (doc & Hdoc & ->).
  apply restoreDates_is_object. exact (Hw _ _ _ Hdoc).
Qed.

(** On objects the callbacks of [filter] and [find] do not throw. *)
Lemma prop_is_object (k s : string) (item : value) :
  is_object item = true -> prop_is k s item = Return (has_prop k s item).
Proof. now destruct item. Qed.

Lemma filter_items_objects (k s : string) (items : list value) :
  Forall (fun item => is_object item = true) items ->
  filter_items (prop_is k s) items = Return (List.filter (has_prop k s) items).
Proof.
  induction 1 as [|item items Hitem _ IH]; [reflexivity|].
  cbn. rewrite (prop_is_object _ _ _ Hitem), IH. now destruct (has_prop k s item).
Qed.

Lemma find_from_objects (k s : string) (items : list value) (i : nat) :
  Forall (fun item => is_object item = true) items ->
  find_from (prop_is k s) items i = Return (first_with (has_prop k s) items i).
Proof.
  intros Hitems; revert i. induction Hitems as [|item items Hitem _ IH]; intros i; [reflexivity|].
  cbn. rewrite (prop_is_object _ _ _ Hitem). destruct (has_prop k s item); [reflexivity|apply IH].
Qed.

Lemma first_with_none (p : value -> bool) (items : list value) (i : nat) :
  Forall (fun item => p item = false) items -> first_with p items i = None.
Proof.
  intros Hitems; revert i. induction Hitems as [|item items Hitem _ IH]; intros i; [reflexivity|].
  cbn. now rewrite Hitem.
Qed.

Lemma listFeatures_features_of (w : world) (projectId : string) :
  objects_only w -> listFeatures projectId w = (Return (features_of w projectId), w).
Proof.
  intros Hw. unfold listFeatures, bind, lift. rewrite readJsonlFile_records.
  unfold features_of. now rewrite (filter_items_objects _ _ _ (records_objects w _ _ Hw)).
Qed.

Lemma features_of_objects (w : world) (projectId : string) :
  objects_only w -> Forall (fun item => is_object item = true) (features_of w projectId).
Proof.
  intros Hw. unfold features_of. apply List.Forall_forall. intros item Hin.
  apply List.filter_In in Hin. destruct Hin as [Hin _].
  revert item Hin. apply List.Forall_forall. now apply records_objects.
Qed.

(** ** An id that no stored feature has *)

Lemma features_of_unknown (w : world) (projectId id : string) :
  unknown_feature w id -> Forall (fun item => has_id id item = false) (features_of w projectId).
Proof.
  intros Hid. apply List.Forall_forall. intros item Hin.
  apply List.filter_In in Hin. destruct Hin as [Hin _].
  destruct (records_stored _ _ _ _ Hin) as (doc & Hdoc & ->).
  unfold has_id. rewrite restoreDates_has_prop by reflexivity. exact (Hid _ _ Hdoc).
Qed.

Lemma records_unknown (w : world) (projectId id : string) :
  unknown_feature w id ->
  Forall (fun item => has_id id item = false) (records w projectId features_jsonl).
Proof.
  intros Hid. apply List.Forall_forall. intros item Hin.
  destruct (records_stored _ _ _ _ Hin) as (doc & Hdoc & ->).
  unfold has_id. rewrite restoreDates_has_prop by reflexivity. exact (Hid _ _ Hdoc).
Qed.

Lemma loadFeature_in_unknown (w : world) (projects : list string) (id : string) :
  objects_only w -> unknown_feature w id ->
  loadFeature_in projects id w = (Return VNull, w).
Proof.
  intros Hw Hid. induction projects as [|projectId projects IH]; [reflexivity|].
  cbn [loadFeature_in]. unfold bind at 1. rewrite (listFeatures_features_of _ _ Hw).
  unfold bind, lift, find_item.
  rewrite (find_from_objects _ _ _ _ (features_of_objects w projectId Hw)).
  rewrite (first_with_none _ _ _ (features_of_unknown w projectId id Hid)). exact IH.
Qed.

Lemma update_in_unknown (w : world) (k : string) (v : value) (projects : list string) (id : string) :
  objects_only w -> unknown_feature w id ->
  update_in features_jsonl k v projects id w = (Return false, w).
Proof.
  intros Hw Hid. induction projects as [|projectId projects IH]; [reflexivity|].
  cbn [update_in]. unfold bind at 1. rewrite readJsonlFile_records.
  unfold bind, lift, find_item.
  rewrite (find_from_objects _ _ _ _ (records_objects w projectId _ Hw)).
  rewrite (first_with_none _ _ _ (records_unknown w projectId id Hid)). exact IH.
Qed.

(** C3.  On a store in its layout, for an id that no stored feature record
    has, [FeatureManagementService.updateFeatureStatus] throws
    [Feature not found: <id>] and leaves the world as it found it: every
    file holds the lines it held, so no record with that id has come into
    being.  The [StorageService] method of the same name writes nothing
    either and answers [false]. *)
Theorem updateFeatureStatus_unknown_id
    (w : world) (params : FeatureManagement.UpdateFeatureStatusParams) :
  objects_only w ->
  unknown_feature w (FeatureManagement.featureId params) ->
  FeatureManagement.updateFeatureStatus params w
  = (Throw (Error ("Feature not found: " +:+ FeatureManagement.featureId params)), w)
  /\ Storage.updateFeatureStatus (FeatureManagement.featureId params)
       (FeatureManagement.new_status params) w
     = (Return false, w).
Proof.
  intros Hw Hid. split.
  - unfold FeatureManagement.updateFeatureStatus, loadFeature, listProjects, bind.
    now rewrite (loadFeature_in_unknown _ _ _ Hw Hid).
  - unfold Storage.updateFeatureStatus, listProjects, bind.
    now rewrite (update_in_unknown _ _ _ _ _ Hw Hid).
Qed.

(** ** Appending a record *)

Lemma stored_file_lines (w : world) (projectId file : string) (doc : value) :
  stored w projectId file doc <-> In (Json doc) (file_lines_of w projectId file).
Proof.
  unfold stored, file_lines_of. split.
  - intros (dir & content & -> & Hfile & Hin). cbn. now rewrite Hfile.
  - destruct (disk w !! projectId) as [dir|]; [|intros []].
    destruct (dir !! file) as [content|] eqn:Hfile; [|intros []].
    intros Hin. now exists dir, content.
Qed.

Lemma ensure_then_append (w : world) (projectId file : string) (item : value) :
  bind (ensureProjectDirectory projectId) (fun _ => appendToJsonlFile projectId file item) w
  = (Return tt, appended w projectId file item).
Proof.
  unfold bind, ensureProjectDirectory, appendToJsonlFile, appended, file_lines_of.
  destruct (disk w !! projectId) as [dir|] eqn:Hdir; cbn.
  - now rewrite Hdir.
  - rewrite lookup_insert_eq. cbn. rewrite lookup_empty. cbn.
    unfold with_disk; cbn. now rewrite insert_insert_eq.
Qed.

Lemma file_lines_appended (w : world) (projectId file : string) (item : value)
    (projectId' file' : string) :
  file_lines_of (appended w projectId file item) projectId' file'
  = if String.eqb projectId projectId' && String.eqb file file'
    then file_lines_of w projectId file ++ [to_line item]
    else file_lines_of w projectId' file'.
Proof.
  unfold appended, file_lines_of at 1. cbn [disk with_disk].
  destruct (String.eqb_spec projectId projectId') as [<-|Hp]; cbn [andb].
  - rewrite lookup_insert_eq.
    destruct (String.eqb_spec file file') as [<-|Hf].
    + now rewrite lookup_insert_eq.
    + rewrite lookup_insert_ne by assumption. unfold file_lines_of.
      destruct (disk w !! projectId); [reflexivity|]. cbn. now rewrite lookup_empty.
  - rewrite lookup_insert_ne by assumption. reflexivity.
Qed.

Lemma objects_only_appended (w : world) (projectId file : string) (fields : list (string * value)) :
  objects_only w -> objects_only (appended w projectId file (VObj fields)).
Proof.
  intros Hw p f doc Hdoc. apply stored_file_lines in Hdoc.
  rewrite file_lines_appended in Hdoc.
  destruct (String.eqb projectId p && String.eqb file f).
  - apply in_app_or in Hdoc. destruct Hdoc as [Hdoc|[Hdoc|[]]].
    + eapply Hw, stored_file_lines, Hdoc.
    + cbn in Hdoc. now injection Hdoc as <-.
  - eapply Hw, stored_file_lines, Hdoc.
Qed.

Lemma records_appended (w : world) (projectId file : string) (item doc : value) :
  serialize item = Some doc ->
  records (appended w projectId file item) projectId file
  = records w projectId file ++ [restoreDates doc].
Proof.
  intros Hdoc. unfold records. rewrite file_lines_appended, !String.eqb_refl. cbn [andb].
  rewrite omap_app. unfold to_line. now rewrite Hdoc.
Qed.

Lemma records_appended_other (w : world) (projectId file : string) (item : value)
    (projectId' file' : string) :
  String.eqb projectId projectId' && String.eqb file file' = false ->
  records (appended w projectId file item) projectId' file' = records w projectId' file'.
Proof.
  intros Hne. unfold records. now rewrite file_lines_appended, Hne.
Qed.

(** ** Writing a value and reading it back *)

Lemma read_back_app (a b : list (string * value)) :
  read_back (a ++ b) = read_back a ++ read_back b.
Proof.
  unfold read_back. rewrite map_app.
  induction (map _ a) as [|[k [d|]] l IH]; cbn; [reflexivity| |]; now rewrite ?IH.
Qed.

Lemma read_back_round_trips (fields : list (string * value)) :
  Forall round_trips fields -> read_back fields = fields.
Proof.
  induction 1 as [|[k x] fields (doc & Hdoc & Hback) _ IH]; [reflexivity|].
  change ((k, x) :: fields) with ([(k, x)] ++ fields). rewrite read_back_app, IH.
  unfold read_back. cbn in *. now rewrite Hdoc; cbn; rewrite Hback.
Qed.

Lemma object_read_back (fields : list (string * value)) :
  exists doc, serialize (VObj fields) = Some doc /\ restoreDates doc = VObj (read_back fields).
Proof.
  eexists. split; [reflexivity|]. now rewrite restoreDates_object.
Qed.

Lemma string_round_trips (k s : string) :
  is_dateField k = false -> round_trips (k, VStr s).
Proof.
  intros Hk. exists (VStr s). split; [reflexivity|].
  cbn [fst snd]. unfold restore_prop, date_string. now rewrite Hk.
Qed.

Lemma strings_round_trips (k : string) (l : list string) : round_trips (k, strings l).
Proof.
  exists (strings l). split.
  - cbn. unfold strings. do 2 f_equal. rewrite map_map. now apply map_ext.
  - unfold restore_prop. cbn. unfold strings. f_equal. rewrite map_map. now apply map_ext.
Qed.

Lemma number_round_trips (k : string) (n : number) :
  isFinite n = true -> round_trips (k, VNum n).
Proof.
  intros Hn. exists (VNum n). split; [cbn; now rewrite Hn|reflexivity].
Qed.

(** This is where the dates come back to the millisecond: the ISO string
    written under one of the six names is parsed into the time value it was
    made from. *)
Lemma date_round_trips (k : string) (t : time) :
  is_dateField k = true -> round_trips (k, VDate (Some t)).
Proof.
  intros Hk. exists (VStr (toISOString t)). split; [reflexivity|].
  cbn [fst snd]. unfold restore_prop, date_string. rewrite Hk.
  destruct (String.eqb_spec (toISOString t) EmptyString) as [He|_].
  - now apply toISOString_nonempty in He.
  - cbn. unfold Date_of_string. now rewrite Date_parse_toISOString.
Qed.

Lemma object_round_trips (k : string) (fields : list (string * value)) :
  Forall round_trips fields -> round_trips (k, VObj fields).
Proof.
  intros Hfields. destruct (object_read_back fields) as (doc & Hdoc & Hback).
  exists doc. split; [assumption|].
  cbn in Hdoc. injection Hdoc as <-. cbn [fst snd]. unfold restore_prop. cbn [date_string].
  rewrite Hback. now rewrite read_back_round_trips.
Qed.

Lemma opt_prop_round_trips {A : Type} (k : string) (f : A -> value) (o : option A) :
  (forall a, o = Some a -> round_trips (k, f a)) -> Forall round_trips (opt_prop k f o).
Proof.
  intros Hf. destruct o as [a|]; cbn; [|constructor].
  constructor; [now apply Hf|constructor].
Qed.

(** ** Saving a feature *)

Lemma z_object_field (shape : list (string * (value -> bool))) (fields : list (string * value))
    (k : string) (check : value -> bool) :
  z_object shape (VObj fields) = true -> In (k, check) shape ->
  check (default VUndefined (assoc k fields)) = true.
Proof.
  cbn. intros Hall Hin. rewrite forallb_forall in Hall. exact (Hall _ Hin).
Qed.

Lemma valid_feature_projectId (fields : list (string * value)) :
  FeatureSchema (VObj fields) = true -> exists p, assoc "projectId" fields = Some (VStr p).
Proof.
  intros Hv. apply (z_object_field _ _ "projectId" z_string) in Hv; [|cbn; tauto].
  destruct (assoc "projectId" fields) as [[]|]; try discriminate. now eexists.
Qed.

Lemma saveFeature_valid (w : world) (fields : list (string * value)) (p : string) :
  FeatureSchema (VObj fields) = true -> assoc "projectId" fields = Some (VStr p) ->
  saveFeature (VObj fields) w = (Return tt, appended w p features_jsonl (VObj fields)).
Proof.
  intros Hv Hp. unfold saveFeature, validateFeature. rewrite Hv.
  unfold bind at 1. unfold ret at 1. unfold bind at 1. unfold lift, get. rewrite Hp. cbn [default].
  unfold bind at 1. unfold path_of, ret. apply ensure_then_append.
Qed.

Lemma saveFeature_invalid (w : world) (item : value) :
  FeatureSchema item = false -> saveFeature item w = (Throw (Error "Invalid feature data"), w).
Proof.
  intros Hv. unfold saveFeature, validateFeature. now rewrite Hv.
Qed.

Lemma features_of_appended (w : world) (p : string) (fields : list (string * value)) :
  features_of (appended w p features_jsonl (VObj fields)) p
  = features_of w p ++ List.filter (has_prop "projectId" p) [VObj (read_back fields)].
Proof.
  unfold features_of. destruct (object_read_back fields) as (doc & Hdoc & Hback).
  rewrite (records_appended _ _ _ _ _ Hdoc), Hback. apply List.filter_app.
Qed.

Lemma features_of_appended_other (w : world) (p p' : string) (item : value) :
  p <> p' -> features_of (appended w p features_jsonl item) p' = features_of w p'.
Proof.
  intros Hne. unfold features_of. rewrite records_appended_other; [reflexivity|].
  destruct (String.eqb_spec p p'); [contradiction|reflexivity].
Qed.

Lemma valid_feature_dates (f : Feature) :
  FeatureSchema (Feature_object f) = true ->
  exists created updated, createdAt f = Some created /\ updatedAt f = Some updated.
Proof.
  intros Hv.
  pose proof (z_object_field _ _ "createdAt" z_date Hv) as Hc.
  pose proof (z_object_field _ _ "updatedAt" z_date Hv) as Hu.
  cbn in Hc, Hu.
  destruct (createdAt f) as [created|]; [|now specialize (Hc ltac:(tauto))].
  destruct (updatedAt f) as [updated|]; [|now specialize (Hu ltac:(tauto))].
  now exists created, updated.
Qed.

Lemma finite_opt_round_trips (k : string) (o : option number) :
  finite_opt o = true -> Forall round_trips (opt_prop k VNum o).
Proof.
  intros Ho. apply opt_prop_round_trips. intros n ->. now apply number_round_trips.
Qed.

Lemma progress_round_trips (k : string) (p : ProgressInfo) :
  finite_progress p = true -> round_trips (k, ProgressInfo_object p).
Proof.
  unfold finite_progress. rewrite !andb_true_iff. intros [[Hw Hp] Hc].
  apply object_round_trips. apply Forall_app. split.
  - repeat constructor; auto using number_round_trips, strings_round_trips.
  - now apply finite_opt_round_trips.
Qed.

(** A valid feature with finite numbers is read back as it was written. *)
Lemma feature_read_back (f : Feature) :
  FeatureSchema (Feature_object f) = true -> finite_numbers f = true ->
  exists fields, Feature_object f = VObj fields /\ read_back fields = fields.
Proof.
  intros Hv Hfin. eexists. split; [reflexivity|]. apply read_back_round_trips.
  destruct (valid_feature_dates f Hv) as (created & updated & -> & ->).
  unfold finite_numbers in Hfin. rewrite !andb_true_iff in Hfin. destruct Hfin as [[Hp He] Ha].
  repeat (apply Forall_app; split).
  - repeat constructor;
      auto using strings_round_trips;
      try (apply string_round_trips; reflexivity);
      apply date_round_trips; reflexivity.
  - apply opt_prop_round_trips. intros p Hpf. rewrite Hpf in Hp. now apply progress_round_trips.
  - apply opt_prop_round_trips. intros l _. apply strings_round_trips.
  - now apply finite_opt_round_trips.
  - now apply finite_opt_round_trips.
  - apply opt_prop_round_trips. intros a _. now apply string_round_trips.
Qed.

(** C4, with the proviso the code needs.  On a store in its layout, saving
    a valid feature record whose numeric members are finite and then listing
    the features of its project returns the features listed before followed
    by a record equal to the saved one, property for property; its
    [createdAt] and [updatedAt] are dates again and hold the time values,
    in milliseconds, they held. *)
Theorem saveFeature_then_listFeatures (w : world) (f : Feature) :
  objects_only w ->
  FeatureSchema (Feature_object f) = true ->
  finite_numbers f = true ->
  exists w' before,
    saveFeature (Feature_object f) w = (Return tt, w')
    /\ listFeatures (projectId f) w = (Return before, w)
    /\ listFeatures (projectId f) w' = (Return (before ++ [Feature_object f]), w')
    /\ In (Feature_object f) (before ++ [Feature_object f]).
Proof.
  intros Hw Hv Hfin.
  destruct (feature_read_back f Hv Hfin) as (fields & HF & Hback).
  assert (assoc "projectId" fields = Some (VStr (projectId f))) as Hp.
  { injection HF as <-. reflexivity. }
  rewrite HF in *.
  exists (appended w (projectId f) features_jsonl (VObj fields)), (features_of w (projectId f)).
  split; [now apply saveFeature_valid|]. split; [now apply listFeatures_features_of|]. split.
  - rewrite listFeatures_features_of by now apply objects_only_appended.
    rewrite features_of_appended, Hback. cbn [List.filter has_prop]. rewrite Hp. cbn.
    now rewrite String.eqb_refl.
  - apply in_or_app. right. now left.
Qed.

End StorageFacts.

(* ================================================================== *)
(** * Theorems: feature management *)
(* ================================================================== *)

Section FeatureManagementFacts.
Import Js Schema Storage FeatureManagement.
Context `{Runtime}.

(** ** Property lists *)

Lemma assoc_assign_eq (k : string) (v : value) (fields : list (string * value)) :
  assoc k (assign k v fields) = Some v.
Proof.
  induction fields as [|[k' x] fields IH]; cbn.
  - now rewrite String.eqb_refl.
  - destruct (String.eqb_spec k' k) as [->|Hne]; cbn.
    + now rewrite String.eqb_refl.
    + destruct (String.eqb_spec k' k); [contradiction|exact IH].
Qed.

Lemma assoc_assign_ne (k k' : string) (v : value) (fields : list (string * value)) :
  k <> k' -> assoc k (assign k' v fields) = assoc k fields.
Proof.
  intros Hne. induction fields as [|[k0 x] fields IH]; cbn.
  - destruct (String.eqb_spec k' k); [congruence|reflexivity].
  - destruct (String.eqb_spec k0 k') as [->|Hne']; cbn.
    + destruct (String.eqb_spec k' k); [congruence|reflexivity].
    + destruct (String.eqb_spec k0 k); [reflexivity|exact IH].
Qed.

(** A string under a name that is not a date name is read back. *)
Lemma assoc_read_back_string (k s : string) (fields : list (string * value)) :
  is_dateField k = false -> assoc k fields = Some (VStr s) ->
  assoc k (read_back fields) = Some (VStr s).
Proof.
  intros Hk. induction fields as [|[k' x] fields IH]; [discriminate|].
  change ((k', x) :: fields) with ([(k', x)] ++ fields). rewrite read_back_app.
  cbn [assoc app]. destruct (String.eqb_spec k' k) as [->|Hne].
  - intros [= ->]. unfold read_back. cbn. rewrite String.eqb_refl.
    unfold restore_prop, date_string. now rewrite Hk.
  - intros Hrest. specialize (IH Hrest). unfold read_back at 1. cbn.
    destruct (serialize x); cbn; [|exact IH].
    destruct (String.eqb_spec k' k); [contradiction|exact IH].
Qed.

Lemma has_prop_read_back (k s : string) (fields : list (string * value)) :
  is_dateField k = false -> assoc k fields = Some (VStr s) ->
  has_prop k s (VObj (read_back fields)) = true.
Proof.
  intros Hk Hs. cbn. rewrite (assoc_read_back_string _ _ _ Hk Hs). cbn. apply String.eqb_refl.
Qed.

(** ** Finding a feature *)

Lemma first_with_app (p : value -> bool) (a b : list value) (i : nat) :
  Forall (fun item => p item = false) a ->
  first_with p (a ++ b) i = first_with p b (i + length a).
Proof.
  intros Ha; revert i. induction Ha as [|x a Hx _ IH]; intros i; cbn.
  - now rewrite Nat.add_0_r.
  - rewrite Hx, IH. f_equal. lia.
Qed.

Lemma listProjects_member (w : world) (p : string) :
  is_Some (disk w !! p) -> In p (map fst (map_to_list (disk w))).
Proof.
  intros [dir Hdir]. apply in_map_iff. exists (p, dir). split; [reflexivity|].
  apply list_elem_of_In. now apply elem_of_map_to_list.
Qed.

Lemma loadFeature_in_found (w : world) (projects : list string) (id P : string) (F : value) :
  objects_only w ->
  (forall p, p <> P -> Forall (fun item => has_id id item = false) (features_of w p)) ->
  (exists i, first_with (has_id id) (features_of w P) 0 = Some (i, F)) ->
  In P projects ->
  loadFeature_in projects id w = (Return F, w).
Proof.
  intros Hw Hother [i Hfound]. unfold has_id in Hother, Hfound.
  induction projects as [|p projects IH]; [intros []|].
  intros Hin. cbn [loadFeature_in]. unfold bind at 1. rewrite (listFeatures_features_of _ _ Hw).
  unfold bind, lift, find_item.
  rewrite (find_from_objects _ _ _ _ (features_of_objects w p Hw)).
  destruct (String.eqb_spec p P) as [->|Hne].
  - now rewrite Hfound.
  - rewrite (first_with_none _ _ _ (Hother p Hne)).
    apply IH. destruct Hin as [->|Hin]; [contradiction|assumption].
Qed.

Lemma loadFeature_found (w : world) (id P : string) (F : value) :
  objects_only w ->
  is_Some (disk w !! P) ->
  (forall p, p <> P -> Forall (fun item => has_id id item = false) (features_of w p)) ->
  (exists i, first_with (has_id id) (features_of w P) 0 = Some (i, F)) ->
  loadFeature id w = (Return F, w).
Proof.
  intros Hw HP Hother Hfound. unfold loadFeature, listProjects, bind.
  eapply loadFeature_in_found; eauto using listProjects_member.
Qed.

Lemma appended_directory (w : world) (p file : string) (item : value) :
  is_Some (disk (appended w p file item) !! p).
Proof. unfold appended. cbn. rewrite lookup_insert_eq. eauto. Qed.

(** ** The update *)

Lemma get_truthy (v : value) (k : string) :
  truthy v = true -> get v k = Return (prop v k).
Proof. unfold prop. now destruct v. Qed.

Lemma merged_progress_merged (p : PartialProgress) (F : value) (w : world) :
  truthy F = true -> merged_progress p F w = (Return (merged p F), w).
Proof.
  intros HF. unfold merged_progress, merged, bind, lift, ret.
  rewrite (get_truthy F _ HF).
  assert (truthy (or_else (prop F "progress") default_progress) = true) as Hp.
  { unfold or_else. now destruct (truthy (prop F "progress")) eqn:E. }
  now rewrite !(get_truthy _ _ Hp).
Qed.

Lemma updateFeatureStatus_run (w : world) (params : UpdateFeatureStatusParams) (F : value) :
  loadFeature (featureId params) w = (Return F, w) ->
  truthy F = true ->
  let U := VObj (updated_fields params F (clock w (reads w))) in
  FeatureManagement.updateFeatureStatus params w
  = match saveFeature U (ticked w) with
    | (Return _, w') => (Return U, w')
    | (Throw e, w') => (Throw e, w')
    end.
Proof.
  intros Hload HF. cbn zeta. unfold FeatureManagement.updateFeatureStatus.
  unfold bind at 1. rewrite Hload, HF. cbn [negb].
  unfold bind at 1. unfold now at 1. unfold updated_fields.
  destruct (new_progress params) as [p|].
  - unfold bind at 1. unfold bind at 1.
    rewrite (merged_progress_merged p F (ticked w) HF). unfold ret at 1.
    unfold bind. now destruct (saveFeature _ _) as [[]].
  - unfold bind at 1. unfold ret at 1. unfold bind. now destruct (saveFeature _ _) as [[]].
Qed.

Lemma assoc_updated_fields (k : string) (params : UpdateFeatureStatusParams) (F : value) (t : time) :
  k <> "updatedAt" -> k <> "status" -> k <> "progress" ->
  assoc k (updated_fields params F t) = assoc k (spread F).
Proof.
  intros H1 H2 H3. unfold updated_fields.
  destruct (new_progress params); now rewrite !assoc_assign_ne by assumption.
Qed.

Lemma assoc_updated_status (params : UpdateFeatureStatusParams) (F : value) (t : time) :
  assoc "status" (updated_fields params F t)
  = Some (VStr (FeatureStatus_value (new_status params))).
Proof.
  unfold updated_fields. destruct (new_progress params).
  - rewrite !assoc_assign_ne by discriminate. apply assoc_assign_eq.
  - rewrite assoc_assign_ne by discriminate. apply assoc_assign_eq.
Qed.

Lemma features_of_appended_own (w : world) (P : string) (fields : list (string * value)) :
  assoc "projectId" fields = Some (VStr P) ->
  features_of (appended w P features_jsonl (VObj fields)) P
  = features_of w P ++ [VObj (read_back fields)].
Proof.
  intros HP. rewrite features_of_appended. cbn [List.filter].
  now rewrite (has_prop_read_back "projectId" P fields eq_refl HP).
Qed.

Lemma saveFeature_returned (w w' : world) (item : value) :
  saveFeature item w = (Return tt, w') -> FeatureSchema item = true.
Proof.
  intros Hsave. destruct (FeatureSchema item) eqn:Hv; [reflexivity|].
  rewrite (saveFeature_invalid _ _ Hv) in Hsave. discriminate Hsave.
Qed.

(** C10.  Let a feature with an id the store does not know be saved once,
    and let [FeatureManagementService.updateFeatureStatus] then succeed on
    it.  The update has been appended to the features file of the project
    as a second line, after the line of the first save, which is still
    there; [listFeatures] returns both records, the old one with the status
    it was saved with and the new one with the same id and the new status;
    and [loadFeature] returns the first copy, the one saved before the
    update.  That copy is the saved record itself when its numbers are
    finite. *)
Theorem updateFeatureStatus_appends
    (w w1 w2 : world) (f : Feature) (params : UpdateFeatureStatusParams) (updated : value) :
  objects_only w ->
  unknown_feature w (id f) ->
  featureId params = id f ->
  saveFeature (Feature_object f) w = (Return tt, w1) ->
  FeatureManagement.updateFeatureStatus params w1 = (Return updated, w2) ->
  file_lines_of w2 (projectId f) features_jsonl
  = file_lines_of w (projectId f) features_jsonl
    ++ [to_line (Feature_object f); to_line updated]
  /\ exists before first newer,
       listFeatures (projectId f) w = (Return before, w)
       /\ listFeatures (projectId f) w2 = (Return (before ++ [first; newer]), w2)
       /\ has_id (id f) first = true
       /\ has_prop "status" (FeatureStatus_value (status f)) first = true
       /\ has_id (id f) newer = true
       /\ has_prop "status" (FeatureStatus_value (new_status params)) newer = true
       /\ loadFeature (id f) w2 = (Return first, w2)
       /\ (finite_numbers f = true -> first = Feature_object f).
Proof.
  intros Hw Hid Hparams Hsave Hupd.
  pose proof (saveFeature_returned _ _ _ Hsave) as Hv.
  assert (exists fields, Feature_object f = VObj fields) as (fields & HF) by now eexists.
  assert (assoc "projectId" fields = Some (VStr (projectId f))) as HP
    by (injection HF as <-; reflexivity).
  assert (assoc "id" fields = Some (VStr (id f))) as HI
    by (injection HF as <-; reflexivity).
  assert (assoc "status" fields = Some (VStr (FeatureStatus_value (status f)))) as HS
    by (injection HF as <-; reflexivity).
  assert (finite_numbers f = true -> read_back fields = fields) as Hfinite.
  { intros Hfin. destruct (feature_read_back f Hv Hfin) as (fields' & HF' & Hback).
    rewrite HF in HF'. now injection HF' as <-. }
  rewrite HF in *. clear HF.
  rewrite (saveFeature_valid _ _ _ Hv HP) in Hsave. injection Hsave as <-.
  set (P := projectId f) in *. set (first := VObj (read_back fields)).
  assert (has_id (id f) first = true) as Hfirst_id
    by (apply has_prop_read_back; [reflexivity|assumption]).
  set (w1 := appended w P features_jsonl (VObj fields)) in *.
  assert (objects_only w1) as Hw1 by now apply objects_only_appended.
  assert (features_of w1 P = features_of w P ++ [first]) as Hlist1
    by (unfold w1; now rewrite (features_of_appended_own _ _ _ HP)).
  assert (forall p, p <> P ->
            Forall (fun item => has_id (id f) item = false) (features_of w1 p)) as Hother1.
  { intros p Hne. unfold w1. rewrite features_of_appended_other by congruence.
    now apply features_of_unknown. }
  assert (loadFeature (featureId params) w1 = (Return first, w1)) as Hload1.
  { rewrite Hparams. apply (loadFeature_found _ _ P); auto.
    - apply appended_directory.
    - rewrite Hlist1, first_with_app by now apply features_of_unknown.
      cbn [first_with]. rewrite Hfirst_id. eauto. }
  rewrite (updateFeatureStatus_run _ _ _ Hload1 eq_refl) in Hupd.
  set (U := updated_fields params first (clock w1 (reads w1))) in *.
  assert (assoc "projectId" U = Some (VStr P)) as HPU.
  { unfold U. rewrite assoc_updated_fields by discriminate.
    now apply assoc_read_back_string. }
  assert (assoc "id" U = Some (VStr (id f))) as HIU.
  { unfold U. rewrite assoc_updated_fields by discriminate.
    now apply assoc_read_back_string. }
  destruct (FeatureSchema (VObj U)) eqn:HvU;
    [|rewrite (saveFeature_invalid _ _ HvU) in Hupd; discriminate].
  rewrite (saveFeature_valid _ _ _ HvU HPU) in Hupd. injection Hupd as <- <-.
  set (w2 := appended (ticked w1) P features_jsonl (VObj U)).
  assert (objects_only w2) as Hw2 by now apply objects_only_appended.
  assert (features_of w2 P = features_of w P ++ [first; VObj (read_back U)]) as Hlist2.
  { unfold w2. rewrite (features_of_appended_own _ _ _ HPU).
    change (features_of (ticked w1) P) with (features_of w1 P).
    now rewrite Hlist1, <- app_assoc. }
  split.
  - unfold w2. rewrite file_lines_appended, !String.eqb_refl. cbn [andb].
    change (file_lines_of (ticked w1) P features_jsonl) with (file_lines_of w1 P features_jsonl).
    unfold w1. rewrite file_lines_appended, !String.eqb_refl. cbn [andb].
    now rewrite <- app_assoc.
  - exists (features_of w P), first, (VObj (read_back U)).
    split; [now apply listFeatures_features_of|].
    split; [rewrite (listFeatures_features_of _ _ Hw2); now rewrite Hlist2|].
    split; [assumption|].
    split; [apply has_prop_read_back; [reflexivity|assumption]|].
    split; [apply has_prop_read_back; [reflexivity|assumption]|].
    split; [apply has_prop_read_back; [reflexivity|apply assoc_updated_status]|].
    split.
    + apply (loadFeature_found _ _ P); auto.
      * apply appended_directory.
      * intros p Hne. unfold w2. rewrite features_of_appended_other by congruence.
        now apply Hother1.
      * rewrite Hlist2, first_with_app by now apply features_of_unknown.
        cbn [first_with]. rewrite Hfirst_id. eauto.
    + intros Hfin. unfold first. now rewrite Hfinite.
Qed.

End FeatureManagementFacts.

(* ================================================================== *)
(** * Theorems: the tdd tool *)
(* ================================================================== *)

Section NewToolsFacts.
Import Js Schema Storage I18n Tools NewTools.
Context `{Runtime}.

Lemma bind_return {S A B : Type} (m : stateful S A) (k : A -> stateful S B) (st st' : S) (a : A) :
  m st = (Return a, st') -> bind m k st = k a st'.
Proof. intros Hm. unfold bind. now rewrite Hm. Qed.

(** ** Session files *)

Lemma writeJsonlFile_objects (w : world) (p file : string) (items : list value) :
  objects_only w -> is_Some (disk w !! p) ->
  Forall (fun item => is_object item = true) items ->
  exists w', writeJsonlFile p file items w = (Return tt, w')
             /\ objects_only w' /\ dom (disk w') = dom (disk w).
Proof.
  intros Hw [dir Hdir] Hitems. unfold writeJsonlFile. rewrite Hdir.
  eexists. split; [reflexivity|]. split.
  - intros p' f' doc (dir' & content & Hd & Hf & Hin). cbn in Hd.
    destruct (String.eqb_spec p p') as [<-|Hp].
    + rewrite lookup_insert_eq in Hd. injection Hd as <-.
      destruct (String.eqb_spec file f') as [<-|Hfne].
      * rewrite lookup_insert_eq in Hf. injection Hf as <-.
        apply in_map_iff in Hin. destruct Hin as (item & Hline & Hitem).
        rewrite List.Forall_forall in Hitems. specialize (Hitems _ Hitem).
        destruct item; try discriminate. cbn in Hline. now injection Hline as <-.
      * rewrite lookup_insert_ne in Hf by assumption.
        apply (Hw p f'). now exists dir, content.
    + rewrite lookup_insert_ne in Hd by assumption.
      apply (Hw p' f'). now exists dir', content.
  - cbn. rewrite dom_insert_L. apply elem_of_dom_2 in Hdir.
    apply set_eq. intros x. rewrite elem_of_union, elem_of_singleton.
    split; [intros [->|Hx]; assumption|now right].
Qed.

Lemma first_with_member (p : value -> bool) (items : list value) (i j : nat) (item : value) :
  first_with p items i = Some (j, item) -> In item items.
Proof.
  revert i. induction items as [|x items IH]; intros i; cbn; [discriminate|].
  destruct (p x); [intros [= _ <-]; now left|]. intros Hrest. right. eapply IH, Hrest.
Qed.

Lemma insert_objects (items : list value) (i : nat) (fields : list (string * value)) :
  Forall (fun item => is_object item = true) items ->
  Forall (fun item => is_object item = true) (<[i := VObj fields]> items).
Proof.
  intros Hitems. apply List.Forall_forall. intros item Hin.
  apply list_elem_of_In, list_elem_of_lookup in Hin. destruct Hin as [j Hj].
  destruct (Nat.eq_dec i j) as [<-|Hne].
  - destruct (lt_dec i (length items)) as [Hlt|Hge].
    + rewrite list_lookup_insert_eq in Hj by assumption. now injection Hj as <-.
    + rewrite list_insert_ge in Hj by lia. rewrite List.Forall_forall in Hitems.
      apply Hitems, list_elem_of_In, list_elem_of_lookup. eauto.
  - rewrite list_lookup_insert_ne in Hj by assumption. rewrite List.Forall_forall in Hitems.
    apply Hitems, list_elem_of_In, list_elem_of_lookup. eauto.
Qed.

(** On a store in its layout an update returns, and leaves the store in its
    layout. *)
Lemma update_in_returns (file k : string) (v : value) (projects : list string) (id : string)
    (w : world) :
  objects_only w ->
  (forall p, In p projects -> is_Some (disk w !! p)) ->
  exists b w', update_in file k v projects id w = (Return b, w')
               /\ objects_only w' /\ dom (disk w') = dom (disk w).
Proof.
  intros Hw. induction projects as [|p projects IH]; intros Hdirs.
  - exists false, w. now split.
  - cbn [update_in]. unfold bind at 1. rewrite readJsonlFile_records.
    unfold bind at 1. unfold lift, find_item.
    pose proof (records_objects w p file Hw) as Hitems.
    rewrite (find_from_objects _ _ _ _ Hitems).
    destruct (first_with _ _ _) as [[i item]|] eqn:Hfound.
    + unfold bind at 1. unfold now.
      destruct (writeJsonlFile_objects (ticked w) p file (<[i := touch item k v (clock w (reads w))]>
                                                             (records w p file)))
        as (w' & Hwrite & Hw' & Hdom).
      * exact Hw.
      * apply Hdirs. now left.
      * now apply insert_objects.
      * unfold bind. rewrite Hwrite. exists true, w'. now split.
    + apply IH. intros q Hq. apply Hdirs. now right.
Qed.

Lemma updateTDDSessionStage_returns (id : string) (stage : TDDStage) (w : world) :
  objects_only w ->
  exists b w', updateTDDSessionStage id stage w = (Return b, w') /\ objects_only w'.
Proof.
  intros Hw. unfold updateTDDSessionStage, listProjects, bind.
  destruct (update_in_returns sessions_jsonl "stage" (VStr (TDDStage_value stage))
              (map fst (map_to_list (disk w))) id w Hw) as (b & w' & Hrun & Hw' & _).
  - intros p Hp. apply in_map_iff in Hp. destruct Hp as ([p' dir] & <- & Hin).
    apply list_elem_of_In, elem_of_map_to_list in Hin. eauto.
  - eauto.
Qed.

Lemma saveTDDSession_valid (w : world) (fields : list (string * value)) (p : string) :
  TDDSessionSchema (VObj fields) = true -> assoc "projectId" fields = Some (VStr p) ->
  saveTDDSession (VObj fields) w = (Return tt, appended w p sessions_jsonl (VObj fields)).
Proof.
  intros Hv Hp. unfold saveTDDSession. rewrite Hv.
  unfold bind at 1. unfold ret at 1. unfold bind at 1. unfold lift, get. rewrite Hp. cbn [default].
  unfold bind at 1. unfold path_of, ret. apply ensure_then_append.
Qed.

(** ** The handler *)

Lemma updateSessionStage_returns (stage : TDDStage) (st : state) :
  layout_kept st ->
  exists st', updateSessionStage stage st = (Return tt, st') /\ layout_kept st'.
Proof.
  intros Hst. unfold updateSessionStage, bind, get_currentSessionId.
  destruct (currentSessionId st) as [sessionId|]; [|exists st; now split].
  destruct (updateTDDSessionStage_returns sessionId stage (the_world st) Hst)
    as (b & w' & Hrun & Hw').
  unfold in_world. rewrite Hrun. eexists. split; [reflexivity|exact Hw'].
Qed.

Lemma ensureActiveSession_returns (s : string) (st : state) :
  layout_kept st ->
  exists st', ensureActiveSession (VObj [("requirements", VStr s)]) st = (Return tt, st')
              /\ layout_kept st'.
Proof.
  intros Hst. unfold ensureActiveSession, bind at 1, get_currentSessionId.
  destruct (currentSessionId st) as [sessionId|]; [exists st; now split|].
  unfold bind, in_world, now, lift. cbn [get assoc default the_world fst snd].
  rewrite saveTDDSession_valid with (p := "auto-project"); [|reflexivity|reflexivity].
  eexists. split; [reflexivity|]. unfold layout_kept. cbn [the_world].
  now apply objects_only_appended.
Qed.

(** C1, with the proviso the code needs.  On a store in its layout, a call
    of the [tdd] tool whose arguments hold a non-empty [requirements] string
    and nothing else, no [command] in particular, returns a result without
    the [isError] flag, and its text has [生成测试用例] and, further on,
    [生成最小实现]. *)
Theorem callTool_tdd_full_workflow (st : state) (s : string) :
  s <> EmptyString ->
  objects_only (the_world st) ->
  exists r st',
    callTool "tdd" (VObj [("requirements", VStr s)]) st = (Return r, st')
    /\ isError r = None
    /\ exists pre mid post,
         text r = pre +:+ "生成测试用例" +:+ mid +:+ "生成最小实现" +:+ post.
Proof.
  intros Hs Hst.
  destruct (ensureActiveSession_returns s st Hst) as (st1 & Hensure & Hst1).
  destruct (updateSessionStage_returns RED st1 Hst1) as (st2 & Hred & Hst2).
  destruct (updateSessionStage_returns RED st2 Hst2) as (st3 & Hred' & Hst3).
  destruct (updateSessionStage_returns GREEN st3 Hst3) as (st4 & Hgreen & Hst4).
  destruct (updateSessionStage_returns REFACTOR st4 Hst4) as (st5 & Hrefactor & _).
  assert (truthy (VStr s) = true) as Htruthy.
  { cbn. destruct (String.eqb_spec s EmptyString); [contradiction|reflexivity]. }
  unfold callTool, catch. cbn [String.eqb Ascii.eqb Bool.eqb].
  unfold handleTDDTool. unfold bind at 1. unfold lift at 1. cbn [get assoc default from_option Datatypes.id String.eqb Ascii.eqb Bool.eqb].
  rewrite (bind_return _ _ _ _ _ Hensure).
  unfold bind at 1. unfold lift at 1. cbn [get assoc default from_option Datatypes.id String.eqb Ascii.eqb Bool.eqb].
  rewrite Htruthy. cbn [truthy negb andb].
  unfold bind at 1. unfold lift at 1. cbn [get assoc default from_option Datatypes.id String.eqb Ascii.eqb Bool.eqb is_string andb].
  rewrite (bind_return _ _ _ _ _ Hred).
  unfold executeFullTDDWorkflow.
  unfold bind at 1. rewrite (bind_return _ _ _ _ _ Hred').
  rewrite (bind_return _ _ _ _ _ Hgreen). unfold ret at 1.
  rewrite (bind_return _ _ _ _ _ Hrefactor). unfold ret.
  do 2 eexists. split; [reflexivity|]. split; [reflexivity|].
  exists ("完整TDD流程执行完成:" +:+ newline +:+ "✅ "),
         (newline +:+ "✅ "),
         (newline +:+ "✅ 运行测试" +:+ newline +:+ "✅ 分析覆盖率" +:+ newline +:+ "✅ 提供重构建议").
  reflexivity.
Qed.

End NewToolsFacts.

(* ================================================================== *)
(** * The store and the handlers on the reference runtime *)
(* ================================================================== *)

Section OnReferenceRuntime.
Import Js Schema Storage Tools Examples.
#[local] Existing Instance reference_runtime.

Lemma objects_only_empty : objects_only empty_world.
Proof. intros p file doc (dir & content & Hdir & _). cbn in Hdir. now rewrite lookup_empty in Hdir. Qed.

Lemma unknown_feature_empty (id : string) : unknown_feature empty_world id.
Proof. intros p doc (dir & content & Hdir & _). cbn in Hdir. now rewrite lookup_empty in Hdir. Qed.

Lemma callTool_tdd_full_workflow_witness :
  exists r st',
    NewTools.callTool "tdd" (VObj [("requirements", VStr "x")]) fresh_handler = (Return r, st')
    /\ isError r = None
    /\ exists pre mid post,
         text r = pre +:+ "生成测试用例" +:+ mid +:+ "生成最小实现" +:+ post.
Proof.
  apply (callTool_tdd_full_workflow fresh_handler "x"); [discriminate|exact objects_only_empty].
Defined.

(** C1 does not hold of every requirements string: the empty string is
    caught by the guard on missing parameters, and the call is answered
    with an error result. *)
Lemma callTool_tdd_empty_requirements :
  exists st',
    NewTools.callTool "tdd" (VObj [("requirements", VStr "")]) fresh_handler
    = (Return {| isError := Some true; text := "输入参数验证失败" |}, st').
Proof. eexists. vm_compute. reflexivity. Qed.

Lemma updateFeatureStatus_unknown_id_witness :
  FeatureManagement.updateFeatureStatus unknown_update empty_world
  = (Throw (Error "Feature not found: feature-404"), empty_world)
  /\ Storage.updateFeatureStatus "feature-404" COMPLETED empty_world = (Return false, empty_world).
Proof.
  apply (updateFeatureStatus_unknown_id empty_world unknown_update);
    [exact objects_only_empty|exact (unknown_feature_empty _)].
Defined.

Lemma saveFeature_then_listFeatures_witness :
  exists w' before,
    saveFeature (Feature_object login_feature) empty_world = (Return tt, w')
    /\ listFeatures "test-project-123" empty_world = (Return before, empty_world)
    /\ listFeatures "test-project-123" w' = (Return (before ++ [Feature_object login_feature]), w')
    /\ In (Feature_object login_feature) (before ++ [Feature_object login_feature]).
Proof.
  apply (saveFeature_then_listFeatures empty_world login_feature);
    [exact objects_only_empty|reflexivity|reflexivity].
Defined.

(** C4 does not hold of every valid feature record: zod takes [Infinity]
    for a positive number, JSON writes it as [null], and the record listed
    after the save has [estimatedHours: null] where the saved one has
    [Infinity]. *)
Lemma endless_feature_not_read_back :
  FeatureSchema (Feature_object endless_feature) = true
  /\ exists w' listed,
       saveFeature (Feature_object endless_feature) empty_world = (Return tt, w')
       /\ listFeatures "test-project-123" w' = (Return listed, w')
       /\ (exists fields, listed = [VObj fields] /\ assoc "estimatedHours" fields = Some VNull)
       /\ ~ In (Feature_object endless_feature) listed.
Proof.
  split; [reflexivity|]. do 2 eexists.
  split; [vm_compute; reflexivity|]. split; [vm_compute; reflexivity|]. split.
  - eexists. split; reflexivity.
  - intros [Hin|[]]. vm_compute in Hin. discriminate Hin.
Qed.

Lemma updateFeatureStatus_appends_witness :
  exists w1 w2 updated,
    saveFeature (Feature_object login_feature) empty_world = (Return tt, w1)
    /\ FeatureManagement.updateFeatureStatus complete_login w1 = (Return updated, w2)
    /\ file_lines_of w2 "test-project-123" features_jsonl
       = file_lines_of empty_world "test-project-123" features_jsonl
         ++ [to_line (Feature_object login_feature); to_line updated]
    /\ exists before first newer,
         listFeatures "test-project-123" empty_world = (Return before, empty_world)
         /\ listFeatures "test-project-123" w2 = (Return (before ++ [first; newer]), w2)
         /\ has_id "feature-123" first = true
         /\ has_prop "status" "in_progress" first = true
         /\ has_id "feature-123" newer = true
         /\ has_prop "status" "completed" newer = true
         /\ loadFeature "feature-123" w2 = (Return first, w2)
         /\ (finite_numbers login_feature = true -> first = Feature_object login_feature).
Proof.
  do 3 eexists. split; [vm_compute; reflexivity|]. split; [vm_compute; reflexivity|].
  eapply (updateFeatureStatus_appends empty_world _ _ login_feature complete_login);
    [exact objects_only_empty|exact (unknown_feature_empty _)|reflexivity
    |vm_compute; reflexivity|vm_compute; reflexivity].
Defined.

End OnReferenceRuntime.

(* ================================================================== *)
(** * More on strings *)
(* ================================================================== *)

Section StringFacts.
Import Js.

Lemma prefix_append (p s : string) :
  String.prefix p s = true <-> exists r, s = p +:+ r.
Proof.
  revert s; induction p as [|a p IH]; intros s.
  - split; [exists s; reflexivity|now destruct s].
  - destruct s as [|b s]; cbn [String.prefix].
    + split; [discriminate|intros [r Hr]; discriminate Hr].
    + destruct (ascii_dec a b) as [->|Hne].
      * rewrite IH. split; intros [r Hr]; exists r.
        -- now rewrite Hr.
        -- now injection Hr.
      * split; [discriminate|]. intros [r Hr]. injection Hr as Hab _. congruence.
Qed.

(** [s.includes(sub)] holds exactly when [sub] occurs in [s]. *)
Lemma includes_spec (s sub : string) :
  includes s sub = true <-> exists l r, s = l +:+ sub +:+ r.
Proof.
  induction s as [|c s IH]; cbn [includes].
  - rewrite orb_false_r, prefix_append. split.
    + intros [r Hr]. now exists EmptyString, r.
    + intros ([|a l] & r & Hs); [now exists r|discriminate Hs].
  - rewrite orb_true_iff, prefix_append, IH. split.
    + intros [[r Hr]|(l & r & Hs)].
      * now exists EmptyString, r.
      * exists (String c l), r. now rewrite Hs.
    + intros ([|a l] & r & Hs).
      * left. now exists r.
      * right. injection Hs as _ Hs. now exists l, r.
Qed.

Lemma includes_trans (s a b : string) :
  includes s a = true -> includes a b = true -> includes s b = true.
Proof.
  rewrite !includes_spec. intros (l & r & ->) (l' & r' & ->).
  exists (l +:+ l'), (r' +:+ r). now rewrite !append_assoc.
Qed.

Lemma lower_char_not_upper (c : ascii) : is_upper (lower_char c) = false.
Proof.
  unfold lower_char. destruct (is_upper c) eqn:Hu; [|exact Hu].
  unfold is_upper in *. rewrite andb_true_iff, !Nat.leb_le in Hu.
  rewrite nat_ascii_embedding by lia.
  apply andb_false_iff. right. apply Nat.leb_gt. lia.
Qed.

(** A lower-cased string holds no word that starts with a capital letter. *)
Lemma toLowerCase_no_upper (s : string) (a : ascii) (rest : string) :
  is_upper a = true -> includes (toLowerCase s) (String a rest) = false.
Proof.
  intros Ha. induction s as [|c s IH]; [reflexivity|].
  cbn [toLowerCase includes String.prefix]. rewrite IH, orb_false_r.
  destruct (ascii_dec a (lower_char c)) as [->|]; [|reflexivity].
  now rewrite lower_char_not_upper in Ha.
Qed.

End StringFacts.

(* ================================================================== *)
(** * More on the coverage analyzer *)
(* ================================================================== *)

Section MoreCoverageFacts.
Import Js Coverage Examples.












(** X3.  For whole numbers with [0 <= covered <= total] and [total > 0],
    [calculatePercentage] returns a whole number of hundredths between 0 and
    100: the result is [n / 100] for an integer [n] with
    [0 <= n <= 10000]. *)
Theorem calculatePercentage_range (covered total : Z) :
  (0 <= covered <= total)%Z -> (0 < total)%Z ->
  exists hundredths : Z,
    (0 <= hundredths <= 10000)%Z
    /\ calculatePercentage (num covered) (num total) = div (num hundredths) (num 100).
Proof.
  intros Hc Ht. unfold calculatePercentage, is_zero, num.
  assert (Qeq_bool (inject_Z total) 0 = false) as Hz.
  { apply not_true_is_false. intros He. apply Qeq_bool_eq in He.
    unfold Qeq in He. cbn in He. lia. }
  rewrite Hz. unfold div at 2. rewrite Hz. unfold mul, round.
  set (y := Qred (Qred (Qred (inject_Z covered / inject_Z total) * inject_Z 100) * inject_Z 100)).
  exists (Qfloor (y + (1 # 2))). split; [|reflexivity].
  assert (y == inject_Z covered / inject_Z total * inject_Z 10000)%Q as Hy.
  { unfold y. rewrite !Qred_correct. change (inject_Z 10000) with (10000 # 1)%Q.
    change (inject_Z 100) with (100 # 1)%Q. field.
    intros He. unfold Qeq in He. cbn in He. lia. }
  assert (0 <= inject_Z covered / inject_Z total <= 1)%Q as [H0 H1].
  { split.
    - apply Qle_shift_div_l; [unfold Qlt; cbn; lia|]. unfold Qle; cbn; lia.
    - apply Qle_shift_div_r; [unfold Qlt; cbn; lia|]. unfold Qle; cbn; lia. }
  split.
  - change 0%Z with (Qfloor (0 + (1 # 2))). apply Qfloor_resp_le.
    apply Qplus_le_l. rewrite Hy. apply Qmult_le_0_compat; [assumption|discriminate].
  - change 10000%Z with (Qfloor (inject_Z 10000 + (1 # 2))). apply Qfloor_resp_le.
    apply Qplus_le_l. rewrite Hy.
    rewrite <- (Qmult_1_l (inject_Z 10000)) at 2.
    apply Qmult_le_compat_r; [assumption|discriminate].
Qed.

Lemma calculatePercentage_range_witness :
  exists hundredths : Z,
    (0 <= hundredths <= 10000)%Z
    /\ calculatePercentage (num 1) (num 3) = div (num hundredths) (num 100).
Proof. apply (calculatePercentage_range 1 3); lia. Defined.

End MoreCoverageFacts.

(* ================================================================== *)
(** * More on the TDD cycle validator *)
(* ================================================================== *)

Section MoreCycleValidatorFacts.
Import Js CycleValidator Examples.

Lemma scan_commits_counters (commits : list string) (previous : option string) (c : Counters) :
  let c' := scan_commits previous commits c in
  c_test c' = (c_test c + Z.of_nat (length (List.filter (mentions testKeywords) commits)))%Z
  /\ c_implementation c'
     = (c_implementation c
        + Z.of_nat (length (List.filter (mentions implementationKeywords) commits)))%Z
  /\ c_refactor c'
     = (c_refactor c + Z.of_nat (length (List.filter (mentions refactorKeywords) commits)))%Z
  /\ c_before c' = c_before c || adjacent_bad previous commits.
Proof.
  revert previous c. induction commits as [|commit rest IH]; intros previous c; cbn zeta.
  - cbn. rewrite !Z.add_0_r, orb_false_r. tauto.
  - cbn [scan_commits List.filter adjacent_bad].
    destruct (IH (Some commit) (count_commit previous commit c)) as (H1 & H2 & H3 & H4).
    cbn zeta in *. rewrite H1, H2, H3, H4. unfold count_commit.
    cbn [c_test c_implementation c_refactor c_before].
    repeat split.
    + destruct (mentions testKeywords commit); cbn [length]; lia.
    + destruct (mentions implementationKeywords commit); cbn [length]; lia.
    + destruct (mentions refactorKeywords commit); cbn [length]; lia.
    + destruct previous as [p|]; [|reflexivity].
      destruct (mentions implementationKeywords commit && negb (mentions testKeywords p));
        [now rewrite orb_true_r|reflexivity].
Qed.

Lemma adjacent_bad_spec (commits : list string) (previous : option string) :
  adjacent_bad previous commits = true <->
  (exists p commit rest, previous = Some p /\ commits = commit :: rest
      /\ mentions implementationKeywords commit = true /\ mentions testKeywords p = false)
  \/ (exists before p commit rest, commits = before ++ p :: commit :: rest
      /\ mentions implementationKeywords commit = true /\ mentions testKeywords p = false).
Proof.
  revert previous. induction commits as [|x rest IH]; intros previous.
  - cbn. split; [discriminate|].
    intros [(p & c & r & _ & Hc & _)|(b & p & c & r & Hc & _)]; [discriminate|].
    now destruct b.
  - cbn [adjacent_bad]. rewrite orb_true_iff, IH. split.
    + intros [Hhere|[(p & c & r & [= <-] & -> & Hi & Ht)|(b & p & c & r & -> & Hi & Ht)]].
      * destruct previous as [p|]; [|discriminate].
        apply andb_true_iff in Hhere. destruct Hhere as [Hi Ht]. apply negb_true_iff in Ht.
        left. now exists p, x, rest.
      * right. now exists [], x, c, r.
      * right. now exists (x :: b), p, c, r.
    + intros [(p & c & r & -> & [= <- <-] & Hi & Ht)|(b & p & c & r & Hc & Hi & Ht)].
      * left. now rewrite Hi, Ht.
      * right. destruct b as [|y b]; injection Hc as <- ->.
        -- left. now exists x, c, r.
        -- right. now exists b, p, c, r.
Qed.

(** The keyword [TDD] never matches a lower-cased commit line, and
    [failing test] matches only where [test] does. *)
Lemma mentions_testKeywords (commit : string) :
  mentions testKeywords commit = mentions ["test"; "spec"; "red"] commit.
Proof.
  unfold mentions, testKeywords. cbn [existsb].
  rewrite (toLowerCase_no_upper commit "T" "DD" eq_refl).
  destruct (includes (toLowerCase commit) "failing test") eqn:Hft.
  - rewrite (includes_trans _ _ "test" Hft eq_refl). reflexivity.
  - now destruct (includes _ "test"), (includes _ "spec"), (includes _ "red").
Qed.

(** X4.  What [analyzeCommitPatterns] counts.  A commit counts as a test
    commit exactly when its lower-cased line contains [test], [spec] or
    [red]: the keyword [TDD] can never match a lower-cased line, and
    [failing test] adds nothing to [test].  [implementationCommits] and
    [refactorCommits] count the commits that contain one of the five
    keywords of their list.  [lacksTestCommits] holds exactly for a history
    that is not empty and has no test commit, and
    [hasMultipleFeatureCommits] exactly when more than two commits are
    implementation commits. *)
Theorem analyzeCommitPatterns_counts (commits : list string) :
  let a := analyzeCommitPatterns commits in
  let count words := Z.of_nat (length (List.filter (mentions words) commits)) in
  testCommits a = count ["test"; "spec"; "red"]
  /\ implementationCommits a = count implementationKeywords
  /\ refactorCommits a = count refactorKeywords
  /\ (lacksTestCommits a = true <-> commits <> [] /\ count ["test"; "spec"; "red"] = 0%Z)
  /\ (hasMultipleFeatureCommits a = true <-> (2 < count implementationKeywords)%Z).
Proof.
  cbn zeta. unfold analyzeCommitPatterns.
  cbn [testCommits implementationCommits refactorCommits lacksTestCommits hasMultipleFeatureCommits].
  destruct (scan_commits_counters commits None
              {| c_test := 0; c_implementation := 0; c_refactor := 0; c_before := false |})
    as (H1 & H2 & H3 & _).
  cbn zeta in *. rewrite H1, H2, H3. cbn [c_test c_implementation c_refactor]. rewrite !Z.add_0_l.
  rewrite (List.filter_ext _ _ mentions_testKeywords).
  split; [reflexivity|]. split; [reflexivity|]. split; [reflexivity|]. split.
  - rewrite andb_true_iff, Z.eqb_eq, Nat.ltb_lt. split.
    + intros [Hz Hl]. split; [|exact Hz]. intros ->. cbn in Hl. lia.
    + intros [Hne Hz]. split; [exact Hz|]. destruct commits; [congruence|cbn; lia].
  - now rewrite Z.ltb_lt.
Qed.

(** X5.  [hasImplementationBeforeTests] holds exactly when the list has two
    neighbouring entries of which the second mentions an implementation
    keyword and the first mentions no test keyword.  The entry at the head
    of the list has no neighbour before it and is never held against the
    history. *)
Theorem hasImplementationBeforeTests_iff (commits : list string) :
  hasImplementationBeforeTests (analyzeCommitPatterns commits) = true <->
  exists before previous commit after,
    commits = before ++ previous :: commit :: after
    /\ mentions implementationKeywords commit = true
    /\ mentions testKeywords previous = false.
Proof.
  unfold analyzeCommitPatterns. cbn [hasImplementationBeforeTests].
  destruct (scan_commits_counters commits None
              {| c_test := 0; c_implementation := 0; c_refactor := 0; c_before := false |})
    as (_ & _ & _ & Hb).
  cbn zeta in Hb. rewrite Hb. cbn [c_before orb]. rewrite adjacent_bad_spec.
  split; [|now right]. intros [(p & c & r & Hp & _)|Hex]; [discriminate|exact Hex].
Qed.

Section WithEnv.
Variable env : Env.

(** X6.  A history without commits is a perfect history.  When the caller
    hands in an empty [gitHistory], or hands in none and [git log] fails
    (git is missing, the directory is no repository), [validateCycle]
    returns a valid result with no violation and the score 100, and its
    suggestions end with the praise for following TDD. *)
Theorem validateCycle_without_commits (params : TDDCycleValidationParams) :
  gitHistory params = Some []
  \/ (gitHistory params = None
      /\ exists e, git_log env (projectPath params) (default "1 hour" (timeWindow params))
                   = Throw e) ->
  exists r,
    validateCycle env params = Return r
    /\ isValid r = true
    /\ found_violations r = []
    /\ adherence_score r = 100%Z
    /\ given_suggestions r
       = state_suggestions (determineCurrentState env 1 (projectPath params))
         ++ ["Great job following TDD! Continue with small, incremental changes"].
Proof.
  intros Hnone. eexists. split; [reflexivity|].
  assert (match gitHistory params with
          | Some history => history
          | None => getRecentCommits env (projectPath params) (default "1 hour" (timeWindow params))
          end = []) as ->.
  { destruct Hnone as [->|[-> [e He]]]; [reflexivity|].
    unfold getRecentCommits. now rewrite He. }
  repeat split.
Qed.

End WithEnv.

Lemma validateCycle_without_commits_witness :
  exists r,
    validateCycle no_git validate_app = Return r
    /\ isValid r = true
    /\ found_violations r = []
    /\ adherence_score r = 100%Z
    /\ given_suggestions r
       = state_suggestions RED
         ++ ["Great job following TDD! Continue with small, incremental changes"].
Proof.
  apply (validateCycle_without_commits no_git validate_app).
  right. split; [reflexivity|]. eexists. reflexivity.
Defined.

End MoreCycleValidatorFacts.

(* ================================================================== *)
(** * More on the test runner *)
(* ================================================================== *)

Section MoreTestRunnerFacts.
Import Js Frameworks TestRunner.

(** X7.  [getFrameworkConfig] finds every supported framework by its key
    and by its display name, in any letter case: [junit5], [JUnit 5] and
    [JUNIT 5] all give the JUnit entry. *)
Theorem getFrameworkConfig_by_key_or_name (f : Framework) (frameworkName : string) :
  In f SUPPORTED_FRAMEWORKS ->
  toLowerCase frameworkName = key f \/ toLowerCase frameworkName = toLowerCase (name f) ->
  getFrameworkConfig frameworkName = Some f.
Proof.
  intros Hin Hname. unfold getFrameworkConfig.
  cbn in Hin.
  repeat (destruct Hin as [<-|Hin]; [destruct Hname as [->| ->]; reflexivity|]).
  destruct Hin.
Qed.

Lemma getFrameworkConfig_by_key_or_name_witness :
  getFrameworkConfig "JUNIT 5"
  = Some {| key := "junit5"; name := "JUnit 5"; language := JAVA;
            run := "mvn test"; coverage := Some "mvn test jacoco:report" |}.
Proof.
  apply (getFrameworkConfig_by_key_or_name
           {| key := "junit5"; name := "JUnit 5"; language := JAVA;
              run := "mvn test"; coverage := Some "mvn test jacoco:report" |} "JUNIT 5");
    [cbn; tauto|right; reflexivity].
Defined.

Section WithEnv.
Variable env : Env.

Lemma parseTestResults_returns (stdout stderr : string) (framework : Framework) (duration : Z)
    (n : nat) :
  exists r n', parseTestResults env stdout stderr framework duration n = (Return r, n').
Proof.
  unfold parseTestResults. destruct (parseJsonResults env (key framework)) as [[r|]|e];
    eexists _, _; reflexivity.
Qed.

(** X8.  The three ways [runTests] ends.  An unsupported framework and a
    project path that is no directory are reported by an exception, thrown
    before any command is run and before the clock is read; once both
    checks have passed [runTests] never throws, whatever the command and
    the reading of its results do. *)
Theorem runTests_outcomes (params : TestRunnerParams) (n : nat) :
  (getFrameworkConfig (testFramework params) = None ->
   runTests env params n
   = (Throw (Error ("Unsupported test framework: " +:+ testFramework params)), n))
  /\ (forall framework,
        getFrameworkConfig (testFramework params) = Some framework ->
        is_directory env (projectPath params) = false ->
        runTests env params n
        = (Throw (Error ("Invalid project path: " +:+ projectPath params)), n))
  /\ (forall framework,
        getFrameworkConfig (testFramework params) = Some framework ->
        is_directory env (projectPath params) = true ->
        exists r n', runTests env params n = (Return r, n')).
Proof.
  unfold runTests, validateProjectPath. split; [|split].
  - now intros ->.
  - intros framework -> ->. reflexivity.
  - intros framework -> ->.
    unfold bind at 1. unfold lift at 1. unfold catch.
    unfold bind at 1. unfold tick at 1. unfold bind at 1. unfold lift at 1.
    destruct (exec env _ _ _) as [output|e].
    + unfold bind at 1. unfold tick at 1.
      destruct (parseTestResults_returns (fst output) (snd output) framework
                  (ms (clock env (S n)) - ms (clock env n)) (S (S n))) as (r & n' & Hr).
      rewrite Hr. now exists r, n'.
    + unfold handleTestError, bind, tick, ret. eexists _, _. reflexivity.
Qed.

End WithEnv.

Lemma numbered_length (label : string) (st : Status) (with_error : bool) (lines : list string)
    (i : Z) :
  length (numbered label st with_error lines i) = length lines.
Proof.
  revert i; induction lines as [|l lines IH]; intros i; [reflexivity|]. cbn. now rewrite IH.
Qed.

Lemma numbered_status (label : string) (st : Status) (with_error : bool) (lines : list string)
    (i : Z) :
  Forall (fun t => status t = st) (numbered label st with_error lines i).
Proof.
  revert i; induction lines as [|l lines IH]; intros i; constructor; [reflexivity|apply IH].
Qed.

Lemma with_status_all (s : Status) (tests : list TestResult) :
  Forall (fun t => status t = s) tests -> with_status s tests = tests.
Proof.
  induction 1 as [|t tests Ht _ IH]; [reflexivity|]. unfold with_status in *. cbn [List.filter].
  rewrite Ht, IH. now destruct s.
Qed.

Lemma with_status_none (s s' : Status) (tests : list TestResult) :
  s <> s' -> Forall (fun t => status t = s') tests -> with_status s tests = [].
Proof.
  intros Hne. induction 1 as [|t tests Ht _ IH]; [reflexivity|].
  unfold with_status in *. cbn [List.filter].
  rewrite Ht, IH. destruct s, s'; congruence.
Qed.

(** X9.  The result [parseTextResults] builds from the output of a run is
    consistent: it has one suite, whose summary is the overall summary; the
    total is the number of tests listed and the sum of the passed, failed
    and skipped counts; each count is the number of listed tests with that
    status, and no test is pending.  (A line that carries a pass marker and
    a failure marker is listed twice, once under each.) *)
Theorem parseTextResults_summary (stdout stderr : string) (framework : Framework)
    (duration : Z) (now : time) :
  let r := parseTextResults stdout stderr framework duration now in
  exists suite,
    suites r = [suite] /\ summary suite = overall r
    /\ total (overall r) = Z.of_nat (length (suite_tests suite))
    /\ total (overall r) = (n_passed (overall r) + n_failed (overall r) + n_skipped (overall r))%Z
    /\ n_passed (overall r) = Z.of_nat (length (with_status passed (suite_tests suite)))
    /\ n_failed (overall r) = Z.of_nat (length (with_status failed (suite_tests suite)))
    /\ n_skipped (overall r) = Z.of_nat (length (with_status skipped (suite_tests suite)))
    /\ with_status pending (suite_tests suite) = [].
Proof.
  cbn zeta. unfold parseTextResults. eexists. split; [reflexivity|].
  cbn [summary overall total n_passed n_failed n_skipped suite_tests].
  set (lines := split _ _).
  set (P := numbered "Test " passed false _ 0).
  set (F := numbered "Failed Test " failed true _ 0).
  set (S := numbered "Skipped Test " skipped false _ 0).
  assert (Forall (fun t => status t = passed) P) as HP by apply numbered_status.
  assert (Forall (fun t => status t = failed) F) as HF by apply numbered_status.
  assert (Forall (fun t => status t = skipped) S) as HS by apply numbered_status.
  unfold with_status. rewrite !List.filter_app. fold (with_status passed P) (with_status passed F)
    (with_status passed S) (with_status failed P) (with_status failed F) (with_status failed S)
    (with_status skipped P) (with_status skipped F) (with_status skipped S)
    (with_status pending P) (with_status pending F) (with_status pending S).
  rewrite (with_status_all _ _ HP), (with_status_all _ _ HF), (with_status_all _ _ HS).
  rewrite (with_status_none passed failed F), (with_status_none passed skipped S),
    (with_status_none failed passed P), (with_status_none failed skipped S),
    (with_status_none skipped passed P), (with_status_none skipped failed F),
    (with_status_none pending passed P), (with_status_none pending failed F),
    (with_status_none pending skipped S) by (assumption || discriminate).
  rewrite !app_nil_r, !app_nil_l, !length_app. unfold P, F, S. rewrite !numbered_length.
  repeat split; lia.
Qed.

End MoreTestRunnerFacts.

(* ================================================================== *)
(** * More on the test generator *)
(* ================================================================== *)

Section MoreTestGeneratorFacts.
Import Js Frameworks TestGenerator Examples.

Lemma parseRequirements_nonempty (requirements : string) :
  exists behavior rest, parseRequirements requirements = behavior :: rest.
Proof.
  unfold parseRequirements. destruct (List.filter mentions_behavior _) as [|b bs]; eauto.
Qed.

Lemma generateTestCode_template (testName behavior : string) (kind : Kind)
    (params : TestGenerationParams) (specificCase : option string) :
  has_template (language params) = true ->
  generateTestCode testName behavior kind params specificCase
  = Return (code_of testName behavior kind params specificCase).
Proof.
  unfold code_of, generateTestCode, has_template. now destruct (language params).
Qed.

Lemma collect_singletons {A B : Type} (f : A -> outcome (list B)) (g : A -> B) (items : list A) :
  (forall x, f x = Return [g x]) -> collect f items = Return (map g items).
Proof.
  intros Hf. induction items as [|x items IH]; [reflexivity|].
  cbn [collect]. now rewrite Hf, IH.
Qed.

Lemma collect_flat_map {A B : Type} (f : A -> outcome (list B)) (g : A -> list B) (items : list A) :
  (forall x, f x = Return (g x)) -> collect f items = Return (flat_map g items).
Proof.
  intros Hf. induction items as [|x items IH]; [reflexivity|].
  cbn [collect]. now rewrite Hf, IH.
Qed.

Lemma generateTestCases_run (params : TestGenerationParams) :
  generateTestCases params
  = if has_template (language params)
    then Return (flat_map (behavior_tests params) (parseRequirements (requirements params)))
    else Throw (Error ("Code generation not implemented for language: "
                       +:+ SupportedLanguage_value (language params))).
Proof.
  unfold generateTestCases. destruct (has_template (language params)) eqn:Ht.
  - apply collect_flat_map. intros behavior.
    unfold generateHappyPathTest, generateEdgeCaseTests, generateErrorCaseTests.
    rewrite (generateTestCode_template _ _ _ _ _ Ht). cbn [and_then].
    rewrite (collect_singletons _ (case_test_of edge_case "Test edge case: " params behavior)).
    2:{ intros c. unfold case_test. now rewrite (generateTestCode_template _ _ _ _ _ Ht). }
    rewrite (collect_singletons _ (case_test_of error_case "Test error case: " params behavior)).
    2:{ intros c. unfold case_test. now rewrite (generateTestCode_template _ _ _ _ _ Ht). }
    reflexivity.
  - destruct (parseRequirements_nonempty (requirements params)) as (b & bs & ->).
    cbn [collect]. unfold generateHappyPathTest, generateTestCode.
    unfold has_template in Ht. now destruct (language params).
Qed.

Lemma isFrameworkSupported_pairs (language : SupportedLanguage) (framework : string) :
  isFrameworkSupported language framework = true
  <-> In (language, toLowerCase framework)
         (generating_pairs ++ [(GO, "go test"); (RUST, "cargo test"); (PHP, "phpunit")]).
Proof.
  unfold isFrameworkSupported. cbn [existsb SUPPORTED_FRAMEWORKS Frameworks.language name].
  split.
  - intros Hs. repeat (apply orb_true_iff in Hs; destruct Hs as [Hs|Hs]);
      try discriminate Hs;
      apply andb_true_iff in Hs; destruct Hs as [Hl Hn];
      apply String.eqb_eq in Hn; cbn in Hn; rewrite <- Hn;
      destruct language; try discriminate Hl; cbn; tauto.
  - intros Hin. cbn [In app generating_pairs] in Hin.
    repeat (destruct Hin as [[= <- <-]|Hin]; [reflexivity|]).
    destruct Hin.
Qed.

(** X10.  [generateTests] returns tests exactly for seven pairs of a
    language and a framework name (compared in lower case): TypeScript with
    Jest, Mocha or Vitest, Python with pytest or unittest, Java with
    [JUnit 5] and C# with xUnit.  The framework is looked up by its display
    name, so the key [junit5] is refused; JavaScript has a template but no
    framework, and Go, Rust and PHP have a framework but no template, so
    all four always end in an exception. *)
Theorem generateTests_succeeds_iff (params : TestGenerationParams) (now : time) :
  (exists out, generateTests params now = Return out)
  <-> In (language params, toLowerCase (framework params)) generating_pairs.
Proof.
  unfold generateTests. rewrite generateTestCases_run.
  destruct (isFrameworkSupported (language params) (framework params)) eqn:Hs; cbn [negb].
  - apply isFrameworkSupported_pairs in Hs. apply in_app_or in Hs.
    destruct Hs as [Hs|Hs].
    + split; [auto|]. intros _.
      assert (has_template (language params) = true) as ->.
      { cbn in Hs. repeat (destruct Hs as [[= <- _]|Hs]; [reflexivity|]). destruct Hs. }
      cbn. eauto.
    + assert (has_template (language params) = false) as Ht.
      { cbn in Hs. repeat (destruct Hs as [[= <- _]|Hs]; [reflexivity|]). destruct Hs. }
      rewrite Ht. cbn. split; [intros [out Hout]; discriminate Hout|].
      intros Hin. exfalso. cbn in Hs, Hin.
      repeat (destruct Hs as [[= Hl Hn]|Hs];
              [rewrite <- Hl, <- Hn in Hin; intuition discriminate|]).
      destruct Hs.
  - split; [intros [out Hout]; discriminate Hout|].
    intros Hin. exfalso.
    assert (isFrameworkSupported (language params) (framework params) = true) as Hs'.
    { apply isFrameworkSupported_pairs. apply in_or_app. now left. }
    congruence.
Qed.

Lemma generateTests_tests (params : TestGenerationParams) (now : time) (out : GeneratedTests) :
  generateTests params now = Return out ->
  tests out = flat_map (behavior_tests params) (parseRequirements (requirements params))
  /\ estimatedCoverage out = estimateCoverage (tests out).
Proof.
  unfold generateTests. destruct (negb _); [discriminate|].
  rewrite generateTestCases_run. destruct (has_template _); [|discriminate].
  cbn. now intros [= <-].
Qed.

Lemma identifyEdgeCases_two (behavior : string) :
  exists a b rest, identifyEdgeCases behavior = a :: b :: rest.
Proof.
  unfold identifyEdgeCases.
  destruct (_ || _), (_ || _), (_ || _); cbn; eauto.
Qed.

Lemma includes_middle (l sub r : string) : includes (l +:+ sub +:+ r) sub = true.
Proof. apply includes_spec. now exists l, r. Qed.

(** X11.  Whenever [generateTests] returns, the output holds at least six
    tests (for each behaviour one happy-path test, at least two edge-case
    tests and three error-case tests) and the estimated coverage is 95,
    whatever the requirements are. *)
Theorem generateTests_estimatedCoverage (params : TestGenerationParams) (now : time)
    (out : GeneratedTests) :
  generateTests params now = Return out ->
  (6 <= length (tests out))%nat /\ estimatedCoverage out = 95%Z.
Proof.
  intros Hgen. destruct (generateTests_tests _ _ _ Hgen) as [Htests ->].
  destruct (parseRequirements_nonempty (requirements params)) as (b & bs & Hb).
  rewrite Hb in Htests. cbn [flat_map] in Htests. unfold behavior_tests at 1 in Htests.
  destruct (identifyEdgeCases_two b) as (e1 & e2 & es & He). rewrite He in Htests.
  unfold identifyErrorCases in Htests. cbn [map app] in Htests.
  rewrite <- !app_assoc in Htests. cbn [app] in Htests.
  assert (6 <= length (tests out))%nat as Hlen.
  { rewrite Htests. cbn [length]. rewrite !length_app. cbn [length]. lia. }
  split; [exact Hlen|]. unfold estimateCoverage.
  assert (existsb (fun t => includes (test_description t) "happy path") (tests out) = true) as ->.
  { rewrite Htests. cbn [existsb happy_test test_description].
    assert (includes ("Test the happy path for: " +:+ b) "happy path" = true) as ->; [|reflexivity].
    apply includes_spec. now exists "Test the ", (" for: " +:+ b). }
  assert (existsb (fun t => includes (test_description t) "edge case") (tests out) = true) as ->.
  { rewrite Htests. cbn [existsb case_test_of test_description].
    assert (includes ("Test edge case: " +:+ e1) "edge case" = true) as ->;
      [|now rewrite orb_true_r].
    apply includes_spec. now exists "Test ", (": " +:+ e1). }
  assert (existsb (fun t => includes (test_description t) "error case") (tests out) = true) as ->.
  { rewrite Htests. cbn [existsb]. rewrite existsb_app. cbn [existsb case_test_of test_description].
    now rewrite !orb_true_r. }
  lia.
Qed.

Lemma generateTests_estimatedCoverage_witness :
  exists out, generateTests add_numbers epoch = Return out
    /\ (6 <= length (tests out))%nat /\ estimatedCoverage out = 95%Z.
Proof.
  eexists. split; [reflexivity|].
  apply (generateTests_estimatedCoverage add_numbers epoch). reflexivity.
Defined.

(** ** Names *)

Lemma all_chars_app (p : ascii -> bool) (a b : string) :
  all_chars p (a +:+ b) = all_chars p a && all_chars p b.
Proof.
  induction a as [|c a IH]; [reflexivity|].
  change (String c a +:+ b) with (String c (a +:+ b)). cbn [all_chars]. now rewrite IH, andb_assoc.
Qed.

Lemma all_chars_remove_class (cls : ascii -> bool) (s : string) :
  all_chars (fun c => negb (cls c)) (remove_class cls s) = true.
Proof.
  induction s as [|c s IH]; [reflexivity|]. cbn [remove_class].
  destruct (cls c) eqn:Hc; [exact IH|]. cbn [all_chars]. now rewrite Hc, IH.
Qed.

Lemma all_chars_impl (p q : ascii -> bool) (s : string) :
  (forall c, p c = true -> q c = true) -> all_chars p s = true -> all_chars q s = true.
Proof.
  intros Hpq. induction s as [|c s IH]; [reflexivity|]. cbn [all_chars].
  rewrite !andb_true_iff. intros [Hc Hs]. split; [now apply Hpq|now apply IH].
Qed.

Lemma all_chars_underscores (s : string) (in_run : bool) :
  all_chars name_char s = true ->
  all_chars identifier_char (replace_runs space "_" s in_run) = true.
Proof.
  revert in_run. induction s as [|c s IH]; intros in_run; [reflexivity|].
  cbn [all_chars replace_runs]. rewrite andb_true_iff. intros [Hc Hs].
  unfold space at 1. destruct (is_space c) eqn:Hsp.
  - destruct in_run; [now apply IH|].
    change ("_" +:+ replace_runs space "_" s true) with (String "_" (replace_runs space "_" s true)).
    cbn [all_chars]. now rewrite IH.
  - cbn [all_chars]. rewrite IH by assumption. rewrite andb_true_r.
    unfold name_char in Hc. rewrite Hsp, orb_false_r in Hc.
    unfold identifier_char. now rewrite Hc.
Qed.

Lemma all_chars_substring_from (p : ascii -> bool) (n : nat) (s : string) :
  all_chars p s = true -> all_chars p (substring_from n s) = true.
Proof.
  revert s. induction n as [|n IH]; intros s; [trivial|].
  destruct s as [|c s]; [trivial|]. cbn [all_chars substring_from].
  rewrite andb_true_iff. intros [_ Hs]. now apply IH.
Qed.

Lemma all_chars_strip_keyword (p : ascii -> bool) (s : string) :
  all_chars p s = true -> all_chars p (strip_keyword s) = true.
Proof.
  intros Hs. unfold strip_keyword, strip_prefix.
  repeat (destruct (String.prefix _ s); [now apply all_chars_substring_from|]).
  exact Hs.
Qed.

Lemma behavior_name_chars (behavior : string) :
  all_chars identifier_char
    (strip_keyword (underscores (remove_class (fun c => negb (name_char c)) (toLowerCase behavior))))
  = true.
Proof.
  apply all_chars_strip_keyword, all_chars_underscores.
  eapply all_chars_impl; [|apply all_chars_remove_class].
  intros c Hc. cbn in Hc. now apply negb_true_iff, negb_false_iff in Hc.
Qed.

Lemma identifyEdgeCases_names (behavior : string) :
  forallb case_name_ok (identifyEdgeCases behavior) = true.
Proof.
  unfold identifyEdgeCases. destruct (_ || _), (_ || _), (_ || _); reflexivity.
Qed.

Lemma identifyErrorCases_names (behavior : string) :
  forallb case_name_ok (identifyErrorCases behavior) = true.
Proof.
  unfold identifyErrorCases. destruct (_ || _), (_ || _); reflexivity.
Qed.

Lemma case_name_chars (behavior c : string) :
  case_name_ok c = true ->
  exists rest, generateTestName behavior (Some c) = "test_" +:+ rest
               /\ all_chars identifier_char rest = true.
Proof.
  unfold case_name_ok. rewrite andb_true_iff, negb_true_iff. intros [Hne Hc].
  unfold generateTestName. rewrite Hne. eexists. split; [reflexivity|].
  rewrite !all_chars_app, behavior_name_chars, Hc. reflexivity.
Qed.

(** X12.  Every generated test is named [test_] followed by lower-case
    letters, digits and underscores only, so the name is an identifier in
    each of the target languages, whatever characters the requirements
    hold. *)
Theorem generateTests_names (params : TestGenerationParams) (now : time) (out : GeneratedTests) :
  generateTests params now = Return out ->
  Forall (fun t => exists rest, test_name t = "test_" +:+ rest
                                /\ all_chars identifier_char rest = true)
         (tests out).
Proof.
  intros Hgen. destruct (generateTests_tests _ _ _ Hgen) as [-> _].
  apply List.Forall_forall. intros t Ht. apply in_flat_map in Ht.
  destruct Ht as (behavior & _ & Ht). destruct Ht as [<-|Ht].
  - eexists. split; [reflexivity|]. apply behavior_name_chars.
  - apply in_app_or in Ht. destruct Ht as [Ht|Ht]; apply in_map_iff in Ht;
      destruct Ht as (c & <- & Hc); apply case_name_chars.
    + pose proof (identifyEdgeCases_names behavior) as Hall.
      rewrite forallb_forall in Hall. now apply Hall.
    + pose proof (identifyErrorCases_names behavior) as Hall.
      rewrite forallb_forall in Hall. now apply Hall.
Qed.

Lemma generateTests_names_witness :
  exists out, generateTests add_numbers epoch = Return out
    /\ Forall (fun t => exists rest, test_name t = "test_" +:+ rest
                                     /\ all_chars identifier_char rest = true)
              (tests out).
Proof.
  eexists. split; [reflexivity|].
  apply (generateTests_names add_numbers epoch). reflexivity.
Defined.

(** X13.  For TypeScript with a framework other than [jest] (to the
    letter, so also for [Jest]) and for Python with a framework other than
    [pytest], every generated test has no imports, and its code is the single
    comment line [Test code for <name>]: no test body is generated. *)
Theorem generateTests_placeholder_code (params : TestGenerationParams) (now : time)
    (out : GeneratedTests) :
  generateTests params now = Return out ->
  (language params = TYPESCRIPT /\ framework params <> "jest")
  \/ (language params = PYTHON /\ framework params <> "pytest") ->
  Forall (fun t => imports t = []
                   /\ code t = (match language params with PYTHON => "# " | _ => "// " end)
                               +:+ "Test code for " +:+ test_name t)
         (tests out).
Proof.
  intros Hgen Hfw. destruct (generateTests_tests _ _ _ Hgen) as [-> _].
  apply List.Forall_forall. intros t Ht. apply in_flat_map in Ht.
  destruct Ht as (behavior & _ & Ht).
  assert (forall testName kind specificCase,
            getRequiredImports (language params) (framework params) = []
            /\ code_of testName behavior kind params specificCase
               = (match language params with PYTHON => "# " | _ => "// " end)
                 +:+ "Test code for " +:+ testName) as Hcode.
  { intros testName kind specificCase.
    unfold getRequiredImports, code_of, generateTestCode, generateJavaScriptTestCode,
      generatePythonTestCode.
    destruct Hfw as [[-> Hne]|[-> Hne]]; apply String.eqb_neq in Hne; now rewrite Hne. }
  destruct Ht as [<-|Ht]; [apply Hcode|].
  apply in_app_or in Ht. destruct Ht as [Ht|Ht]; apply in_map_iff in Ht;
    destruct Ht as (c & <- & _); apply Hcode.
Qed.

Lemma generateTests_placeholder_code_witness :
  exists out, generateTests cart_on_mocha epoch = Return out
    /\ Forall (fun t => imports t = []
                        /\ code t = "// " +:+ "Test code for " +:+ test_name t)
              (tests out).
Proof.
  eexists. split; [reflexivity|].
  apply (generateTests_placeholder_code cart_on_mocha epoch); [reflexivity|].
  left. split; [reflexivity|discriminate].
Defined.

End MoreTestGeneratorFacts.

(* ================================================================== *)
(** * More on the store: files written anew *)
(* ================================================================== *)

Section MoreStorageFacts.
Import Js Schema Storage.
Context `{Runtime}.

Lemma value_deep_ind (P : value -> Prop) :
  P VUndefined -> P VNull -> (forall b, P (VBool b)) -> (forall n, P (VNum n)) ->
  (forall s, P (VStr s)) -> (forall t, P (VDate t)) ->
  (forall items, Forall P items -> P (VArr items)) ->
  (forall fields, Forall (fun entry => P (snd entry)) fields -> P (VObj fields)) ->
  forall v, P v.
Proof.
  intros Hu Hn Hb Hnum Hs Hd Ha Ho. fix IH 1.
  intros [ | |b|n|s|t|items|fields];
    [exact Hu|exact Hn|apply Hb|apply Hnum|apply Hs|apply Hd| |].
  - apply Ha. induction items as [|x items IHitems]; constructor; [apply IH|exact IHitems].
  - apply Ho. induction fields as [|[k x] fields IHfields]; constructor; [apply IH|exact IHfields].
Qed.

Lemma serialize_is_json (x d : value) : serialize x = Some d -> is_json d = true.
Proof.
  revert d. induction x as [ | |b|n|s|t|items IH|fields IH] using value_deep_ind; intros d; cbn [serialize].
  - discriminate.
  - now intros [= <-].
  - now intros [= <-].
  - intros [= <-]. now destruct (isFinite n).
  - now intros [= <-].
  - destruct t; now intros [= <-].
  - intros [= <-]. cbn [is_json]. induction IH as [|x items Hx _ IHitems]; [reflexivity|].
    cbn [map forallb]. rewrite IHitems, andb_true_r.
    destruct (serialize x) as [dx|]; [now apply Hx|reflexivity].
  - intros [= <-]. cbn [is_json]. induction IH as [|[k x] fields Hx _ IHfields]; [reflexivity|].
    cbn [map defined_props]. cbn [snd] in Hx.
    destruct (serialize x) as [dx|]; [|exact IHfields].
    cbn [defined_props forallb]. rewrite IHfields, andb_true_r. now apply Hx.
Qed.

Lemma serialize_plain (x : value) :
  plain x = true -> exists d, serialize x = Some d /\ forall s, is_string d s = is_string x s.
Proof.
  destruct x; try discriminate; intros _; cbn [serialize]; eexists; (split; [reflexivity|]);
    intros s'; try reflexivity.
  now destruct (isFinite n).
Qed.

Lemma assoc_serialized (k : string) (fields : list (string * value)) :
  (forall x, assoc k fields = Some x -> plain x = true) ->
  assoc k (defined_props (map (fun entry => match entry with (k', x) => (k', serialize x) end) fields))
  = assoc k fields ≫= serialize.
Proof.
  induction fields as [|[k' x] fields IH]; intros Hplain; [reflexivity|].
  cbn [map defined_props assoc] in *. destruct (String.eqb_spec k' k) as [->|Hne].
  - destruct (serialize_plain x (Hplain x eq_refl)) as (d & Hd & _). rewrite Hd.
    cbn. now rewrite String.eqb_refl.
  - destruct (serialize x) as [d|]; [|now apply IH].
    cbn [defined_props assoc]. destruct (String.eqb_spec k' k); [contradiction|now apply IH].
Qed.

Lemma serialize_object (fields : list (string * value)) :
  serialize (VObj fields)
  = Some (VObj (defined_props
                  (map (fun entry => match entry with (k, x) => (k, serialize x) end) fields))).
Proof. reflexivity. Qed.

Lemma has_prop_serialized (k s : string) (fields : list (string * value)) :
  (forall x, assoc k fields = Some x -> plain x = true) ->
  has_prop k s (default VNull (serialize (VObj fields))) = has_prop k s (VObj fields).
Proof.
  intros Hplain. rewrite serialize_object. cbn [default from_option Datatypes.id has_prop].
  rewrite (assoc_serialized _ _ Hplain).
  destruct (assoc k fields) as [x|]; [|reflexivity]. cbn.
  destruct (serialize_plain x (Hplain x eq_refl)) as (d & -> & Hs). cbn. apply Hs.
Qed.

Lemma has_prop_reread (k s : string) (item : value) :
  is_dateField k = false -> tidy item -> has_prop k s (reread item) = has_prop k s item.
Proof.
  intros Hk (fields & -> & Hplain). unfold reread.
  rewrite restoreDates_has_prop by assumption.
  apply has_prop_serialized. intros x. now apply Hplain.
Qed.

Lemma reread_object (fields : list (string * value)) :
  reread (VObj fields) = VObj (read_back fields).
Proof.
  unfold reread. destruct (object_read_back fields) as (doc & -> & Hback). exact Hback.
Qed.

Lemma plain_restore_prop (k : string) (x : value) :
  is_dateField k = false -> plain (restore_prop k x) = plain x.
Proof.
  intros Hk. unfold restore_prop, date_string. destruct x; try reflexivity. now rewrite Hk.
Qed.

Lemma is_json_plain (x : value) : is_json x = true -> plain x = true.
Proof. now destruct x. Qed.

Lemma is_json_member (k : string) (fields : list (string * value)) (x : value) :
  is_json (VObj fields) = true -> assoc k fields = Some x -> is_json x = true.
Proof.
  cbn [is_json]. induction fields as [|[k' y] fields IH]; [discriminate|].
  cbn [forallb assoc]. rewrite andb_true_iff. intros [Hy Hrest].
  destruct (String.eqb k' k); [now intros [= <-]|now apply IH].
Qed.

(** What is read from a JSON object is tidy. *)
Lemma tidy_restoreDates (doc : value) :
  is_object doc = true -> is_json doc = true -> tidy (restoreDates doc).
Proof.
  destruct doc as [ | | | | | | |fields]; try discriminate. intros _ Hjson.
  rewrite restoreDates_object. eexists. split; [reflexivity|].
  intros k x Hk. rewrite assoc_map_props.
  destruct (assoc k fields) as [x0|] eqn:Hx0; [|discriminate]. cbn. intros [= <-].
  rewrite plain_restore_prop by assumption.
  apply is_json_plain. eapply is_json_member; eassumption.
Qed.

Lemma tidy_reread (item : value) : is_object item = true -> tidy (reread item).
Proof.
  destruct item as [ | | | | | | |fields]; try discriminate. intros _.
  unfold reread. rewrite serialize_object. cbn [default from_option Datatypes.id].
  apply tidy_restoreDates; [reflexivity|].
  apply (serialize_is_json (VObj fields)). reflexivity.
Qed.

Lemma tidy_object (item : value) : tidy item -> is_object item = true.
Proof. now intros (fields & -> & _). Qed.

Lemma tidy_touch (item : value) (k : string) (v : value) (t : time) :
  tidy item -> plain v = true -> tidy (touch item k v t).
Proof.
  intros (fields & -> & Hplain) Hv. unfold touch. cbn [spread].
  eexists. split; [reflexivity|]. intros k' x Hk'.
  destruct (String.eqb_spec k' "updatedAt") as [->|Hu]; [discriminate Hk'|].
  rewrite assoc_assign_ne by assumption.
  destruct (String.eqb_spec k' k) as [->|Hne].
  - rewrite assoc_assign_eq. now intros [= <-].
  - rewrite assoc_assign_ne by assumption. now apply Hplain.
Qed.

Lemma records_tidy (w : world) (projectId file : string) :
  json_objects w -> Forall tidy (records w projectId file).
Proof.
  intros Hw. apply List.Forall_forall. intros item Hin.
  destruct (records_stored _ _ _ _ Hin) as (doc & Hdoc & ->).
  destruct (Hw _ _ _ Hdoc). now apply tidy_restoreDates.
Qed.

Lemma json_objects_only (w : world) : json_objects w -> objects_only w.
Proof. intros Hw p f doc Hdoc. now destruct (Hw p f doc Hdoc). Qed.

Lemma to_line_object (item : value) :
  is_object item = true -> to_line item = Json (default VNull (serialize item)).
Proof. now destruct item. Qed.

Lemma parse_line_to_line (item : value) :
  is_object item = true -> parse_line (to_line item) = Some (reread item).
Proof. intros Hitem. now rewrite to_line_object. Qed.

Lemma omap_to_lines (items : list value) :
  Forall (fun item => is_object item = true) items ->
  omap parse_line (map to_line items) = map reread items.
Proof.
  induction 1 as [|item items Hitem _ IH]; [reflexivity|].
  cbn [map].
  change (omap parse_line (to_line item :: map to_line items))
    with (match parse_line (to_line item) with
          | Some y => y :: omap parse_line (map to_line items)
          | None => omap parse_line (map to_line items)
          end).
  now rewrite (parse_line_to_line _ Hitem), IH.
Qed.

Lemma writeJsonlFile_rewritten (w : world) (projectId file : string) (items : list value) :
  is_Some (disk w !! projectId) ->
  writeJsonlFile projectId file items w = (Return tt, rewritten w projectId file items).
Proof.
  intros [dir Hdir]. unfold writeJsonlFile, rewritten. now rewrite Hdir.
Qed.

Lemma file_lines_rewritten (w : world) (projectId file : string) (items : list value)
    (projectId' file' : string) :
  file_lines_of (rewritten w projectId file items) projectId' file'
  = if String.eqb projectId projectId' && String.eqb file file'
    then map to_line items
    else file_lines_of w projectId' file'.
Proof.
  unfold rewritten, file_lines_of at 1. cbn [disk with_disk].
  destruct (String.eqb_spec projectId projectId') as [<-|Hp]; cbn [andb].
  - rewrite lookup_insert_eq.
    destruct (String.eqb_spec file file') as [<-|Hf].
    + now rewrite lookup_insert_eq.
    + rewrite lookup_insert_ne by assumption. unfold file_lines_of.
      destruct (disk w !! projectId); [reflexivity|]. cbn. now rewrite lookup_empty.
  - rewrite lookup_insert_ne by assumption. reflexivity.
Qed.

Lemma records_rewritten (w : world) (projectId file : string) (items : list value) :
  Forall (fun item => is_object item = true) items ->
  records (rewritten w projectId file items) projectId file = map reread items.
Proof.
  intros Hitems. unfold records. rewrite file_lines_rewritten, !String.eqb_refl. cbn [andb].
  now apply omap_to_lines.
Qed.

Lemma records_rewritten_other (w : world) (projectId file : string) (items : list value)
    (projectId' file' : string) :
  String.eqb projectId projectId' && String.eqb file file' = false ->
  records (rewritten w projectId file items) projectId' file' = records w projectId' file'.
Proof. intros Hne. unfold records. now rewrite file_lines_rewritten, Hne. Qed.

Lemma json_objects_rewritten (w : world) (projectId file : string) (items : list value) :
  json_objects w -> Forall (fun item => is_object item = true) items ->
  json_objects (rewritten w projectId file items).
Proof.
  intros Hw Hitems p f doc Hdoc. apply stored_file_lines in Hdoc.
  rewrite file_lines_rewritten in Hdoc.
  destruct (String.eqb projectId p && String.eqb file f).
  - apply in_map_iff in Hdoc. destruct Hdoc as (item & Hline & Hin).
    rewrite List.Forall_forall in Hitems. specialize (Hitems _ Hin).
    destruct item as [ | | | | | | |fields]; try discriminate.
    cbn in Hline. injection Hline as <-. split; [reflexivity|].
    apply (serialize_is_json (VObj fields)). reflexivity.
  - eapply Hw, stored_file_lines, Hdoc.
Qed.

Lemma json_objects_appended (w : world) (projectId file : string) (fields : list (string * value)) :
  json_objects w -> json_objects (appended w projectId file (VObj fields)).
Proof.
  intros Hw p f doc Hdoc. apply stored_file_lines in Hdoc.
  rewrite file_lines_appended in Hdoc.
  destruct (String.eqb projectId p && String.eqb file f).
  - apply in_app_or in Hdoc. destruct Hdoc as [Hdoc|[Hdoc|[]]].
    + eapply Hw, stored_file_lines, Hdoc.
    + cbn in Hdoc. injection Hdoc as <-. split; [reflexivity|].
      apply (serialize_is_json (VObj fields)). reflexivity.
  - eapply Hw, stored_file_lines, Hdoc.
Qed.

Lemma json_objects_ticked (w : world) : json_objects w -> json_objects (ticked w).
Proof. intros Hw p f doc Hdoc. exact (Hw p f doc Hdoc). Qed.

Lemma rewritten_directory (w : world) (p file : string) (items : list value) (q : string) :
  is_Some (disk w !! q) -> is_Some (disk (rewritten w p file items) !! q).
Proof.
  intros Hq. unfold rewritten. cbn. destruct (String.eqb_spec p q) as [->|Hne].
  - rewrite lookup_insert_eq. eauto.
  - now rewrite lookup_insert_ne.
Qed.

(** ** Looking for an id *)

Lemma records_unknown_in (file : string) (w : world) (projectId id : string) :
  unknown_in file w id -> Forall (fun item => has_id id item = false) (records w projectId file).
Proof.
  intros Hid. apply List.Forall_forall. intros item Hin.
  destruct (records_stored _ _ _ _ Hin) as (doc & Hdoc & ->).
  unfold has_id. rewrite restoreDates_has_prop by reflexivity. exact (Hid _ _ Hdoc).
Qed.

Lemma first_with_reread (id : string) (items : list value) (i : nat) :
  Forall tidy items ->
  first_with (has_id id) (map reread items) i
  = option_map (fun found => (fst found, reread (snd found))) (first_with (has_id id) items i).
Proof.
  intros Hitems; revert i. induction Hitems as [|item items Hitem _ IH]; intros i; [reflexivity|].
  cbn [map first_with]. unfold has_id at 1. rewrite (has_prop_reread "id" id item eq_refl Hitem).
  fold (has_id id item). destruct (has_id id item); [reflexivity|apply IH].
Qed.

Lemma Forall_reread (id : string) (items : list value) :
  Forall tidy items ->
  Forall (fun item => has_id id item = false) items ->
  Forall (fun item => has_id id item = false) (map reread items).
Proof.
  intros Htidy Hid. apply List.Forall_forall. intros x Hx. apply in_map_iff in Hx.
  destruct Hx as (item & <- & Hin). rewrite List.Forall_forall in Htidy, Hid.
  unfold has_id. rewrite (has_prop_reread "id" id item eq_refl (Htidy _ Hin)). now apply Hid.
Qed.

Lemma Forall_tidy_objects (items : list value) :
  Forall tidy items -> Forall (fun item => is_object item = true) items.
Proof. apply List.Forall_impl. exact tidy_object. Qed.



Lemma delete_in_found (file : string) (w : world) (projects : list string) (id P : string)
    (i : nat) (item : value) :
  objects_only w ->
  (forall p, p <> P -> Forall (fun item => has_id id item = false) (records w p file)) ->
  first_with (has_id id) (records w P file) 0 = Some (i, item) ->
  In P projects -> is_Some (disk w !! P) ->
  delete_in file projects id w
  = (Return true, rewritten w P file (delete i (records w P file))).
Proof.
  intros Hw Hother Hfound Hin HP. unfold has_id in Hother, Hfound.
  induction projects as [|p projects IH]; [destruct Hin|].
  cbn [delete_in]. unfold bind at 1. rewrite readJsonlFile_records.
  unfold bind at 1. unfold lift, find_item.
  rewrite (find_from_objects _ _ _ _ (records_objects w p _ Hw)).
  destruct (String.eqb_spec p P) as [->|Hne].
  - rewrite Hfound. unfold bind. now rewrite (writeJsonlFile_rewritten _ _ _ _ HP).
  - rewrite (first_with_none _ _ _ (Hother p Hne)).
    apply IH. destruct Hin as [->|Hin]; [contradiction|assumption].
Qed.

Lemma update_in_found (file k : string) (v : value) (w : world) (projects : list string)
    (id P : string) (i : nat) (item : value) :
  objects_only w ->
  (forall p, p <> P -> Forall (fun item => has_id id item = false) (records w p file)) ->
  first_with (has_id id) (records w P file) 0 = Some (i, item) ->
  In P projects -> is_Some (disk w !! P) ->
  update_in file k v projects id w
  = (Return true,
     rewritten (ticked w) P file (<[i := touch item k v (clock w (reads w))]> (records w P file))).
Proof.
  intros Hw Hother Hfound Hin HP. unfold has_id in Hother, Hfound.
  induction projects as [|p projects IH]; [destruct Hin|].
  cbn [update_in]. unfold bind at 1. rewrite readJsonlFile_records.
  unfold bind at 1. unfold lift, find_item.
  rewrite (find_from_objects _ _ _ _ (records_objects w p _ Hw)).
  destruct (String.eqb_spec p P) as [->|Hne].
  - rewrite Hfound. unfold bind at 1. unfold now at 1. unfold bind.
    now rewrite (writeJsonlFile_rewritten (ticked w) _ _ _ HP).
  - rewrite (first_with_none _ _ _ (Hother p Hne)).
    apply IH. destruct Hin as [->|Hin]; [contradiction|assumption].
Qed.

Lemma loadTDDSession_in_found (w : world) (projects : list string) (id P : string)
    (i : nat) (session : value) :
  objects_only w ->
  (forall p, p <> P -> Forall (fun item => has_id id item = false) (records w p sessions_jsonl)) ->
  first_with (has_id id) (records w P sessions_jsonl) 0 = Some (i, session) ->
  In P projects ->
  loadTDDSession_in projects id w = (Return session, w).
Proof.
  intros Hw Hother Hfound Hin. unfold has_id in Hother, Hfound.
  induction projects as [|p projects IH]; [destruct Hin|].
  cbn [loadTDDSession_in]. unfold bind at 1. unfold listTDDSessions. rewrite readJsonlFile_records.
  unfold bind, lift, find_item.
  rewrite (find_from_objects _ _ _ _ (records_objects w p _ Hw)).
  destruct (String.eqb_spec p P) as [->|Hne].
  - now rewrite Hfound.
  - rewrite (first_with_none _ _ _ (Hother p Hne)).
    apply IH. destruct Hin as [->|Hin]; [contradiction|assumption].
Qed.



Lemma Forall_filter_has_id (id : string) (p : value -> bool) (items : list value) :
  Forall (fun item => has_id id item = false) items ->
  Forall (fun item => has_id id item = false) (List.filter p items).
Proof.
  intros Hitems. apply List.Forall_forall. intros x Hx. apply List.filter_In in Hx.
  destruct Hx as [Hx _]. rewrite List.Forall_forall in Hitems. now apply Hitems.
Qed.




Lemma z_object_fails (shape : list (string * (value -> bool))) (fields : list (string * value))
    (k : string) (check : value -> bool) :
  In (k, check) shape -> check (default VUndefined (assoc k fields)) = false ->
  z_object shape (VObj fields) = false.
Proof.
  intros Hin Hcheck. cbn. apply not_true_is_false. intros Hall.
  rewrite forallb_forall in Hall. specialize (Hall _ Hin). cbn in Hall. congruence.
Qed.

(** X18.  [saveFeature] refuses a record the schema does not take: a
    feature with an empty name, with a creation or update date that is no
    valid date, with an estimate that is not above 0 (0, a negative number
    or NaN) or with a negative count of written tests makes it throw, and
    nothing is written to the store. *)
Theorem saveFeature_rejects (w : world) (f : Feature) :
  name f = EmptyString
  \/ createdAt f = None
  \/ updatedAt f = None
  \/ (exists hours, estimatedHours f = Some hours /\ gt hours (num 0) = false)
  \/ (exists p, progress f = Some p /\ ge (testsWritten p) (num 0) = false) ->
  exists e, saveFeature (Feature_object f) w = (Throw e, w).
Proof.
  intros Hbad. eexists. apply saveFeature_invalid.
  destruct Hbad as [Hn|[Hc|[Hu|[(hours & Hh & Hgt)|(p & Hp & Hge)]]]].
  - apply (z_object_fails _ _ "name" z_string_min1); [cbn; tauto|]. cbn. now rewrite Hn.
  - apply (z_object_fails _ _ "createdAt" z_date); [cbn; tauto|]. cbn. now rewrite Hc.
  - apply (z_object_fails _ _ "updatedAt" z_date); [cbn; tauto|]. cbn. now rewrite Hu.
  - apply (z_object_fails _ _ "estimatedHours" (z_optional (z_number positive))); [cbn; tauto|].
    rewrite Hh. destruct (progress f), (tags f); cbn; unfold positive; rewrite Hgt;
      now rewrite andb_false_r.
  - apply (z_object_fails _ _ "progress" (z_optional ProgressInfoSchema)); [cbn; tauto|].
    rewrite Hp. cbn [assoc app opt_prop String.eqb Ascii.eqb Bool.eqb default from_option Datatypes.id].
    unfold ProgressInfo_object. cbn [z_optional].
    apply (z_object_fails _ _ "testsWritten" (z_number min0)); [cbn; tauto|].
    cbn. unfold min0. rewrite Hge. now rewrite andb_false_r.
Qed.

End MoreStorageFacts.

(* ================================================================== *)
(** * More on the messages and the tool handlers *)
(* ================================================================== *)

Section MoreI18nFacts.
Import Js I18n.

(** X14.  Of the three error types only [INVALID_PARAMS] has a message in
    the dictionaries.  For [TOOL_EXECUTION_ERROR] and [RESOURCE_NOT_FOUND]
    the lower-cased key is in neither dictionary (the entry is called
    [error.tool_execution_failed]), so in both locales the message of the
    error is the key itself. *)
Theorem createLocalizedError_messages (locale : SupportedLocale) :
  message (createLocalizedError INVALID_PARAMS locale)
  = match locale with
    | zh => "输入参数验证失败"
    | en => "Input parameter validation failed"
    end
  /\ message (createLocalizedError TOOL_EXECUTION_ERROR locale) = "error.tool_execution_error"
  /\ message (createLocalizedError RESOURCE_NOT_FOUND locale) = "error.resource_not_found".
Proof. destruct locale; repeat split. Qed.

End MoreI18nFacts.

Section MoreNewToolsFacts.
Import Js Schema Storage I18n Tools NewTools.
Context `{Runtime}.

Lemma lift_bind {S A B : Type} (o : outcome A) (k : A -> stateful S B) (st : S) :
  bind (lift o) k st = match o with Return a => k a st | Throw e => (Throw e, st) end.
Proof. unfold bind, lift. now destruct o. Qed.

Lemma handleFeatureTool_stateless (args : value) (st : state) :
  exists o, handleFeatureTool args st = (o, st).
Proof.
  unfold handleFeatureTool. rewrite lift_bind. destruct (get args "name") as [name|e]; [|eauto].
  rewrite lift_bind. destruct (get args "query") as [query|e]; [|eauto].
  destruct (negb (truthy name) && negb (truthy query)); [unfold bind, getCurrentLocale, ret; eauto|].
  rewrite lift_bind. destruct (get args "command") as [command|e]; [|eauto].
  repeat (match goal with |- context [if ?b then _ else _] => destruct b end);
    unfold ret; eauto.
Qed.

Lemma handleTrackingTool_stateless (args : value) (st : state) :
  exists o, handleTrackingTool args st = (o, st).
Proof.
  unfold handleTrackingTool. rewrite lift_bind. destruct (get args "command") as [command|e]; [|eauto].
  destruct (is_string _ "register").
  - repeat (rewrite lift_bind; match goal with |- context [get args ?k] => destruct (get args k) end;
            [|eauto]).
    destruct (_ || _); unfold ret; eauto.
  - repeat (match goal with |- context [if ?b then _ else _] => destruct b end);
      unfold ret; eauto.
Qed.

(** X15.  A call of any tool other than [tdd] always returns a result, never
    an exception, and leaves the handler as it was: no session is created
    and nothing is stored.  A name that is none of [tdd], [feature] and
    [tracking] is answered with the error result [Unknown tool: <name>]. *)
Theorem callTool_other_than_tdd (name : string) (args : value) (st : state) :
  name <> "tdd" ->
  exists r, callTool name args st = (Return r, st)
            /\ (name <> "feature" -> name <> "tracking" ->
                r = createErrorResult ("Unknown tool: " +:+ name)).
Proof.
  intros Htdd. unfold callTool, catch. apply String.eqb_neq in Htdd. rewrite Htdd.
  destruct (String.eqb_spec name "feature") as [->|Hf].
  - destruct (handleFeatureTool_stateless args st) as [[r|e] ->]; eexists; (split; [reflexivity|congruence]).
  - destruct (String.eqb_spec name "tracking") as [->|Ht].
    + destruct (handleTrackingTool_stateless args st) as [[r|e] ->]; eexists; (split; [reflexivity|congruence]).
    + eexists. split; reflexivity.
Qed.

Lemma ensureActiveSession_fresh (st : state) (fields : list (string * value)) :
  currentSessionId st = None ->
  assoc "developer" fields = None -> assoc "featureId" fields = None ->
  let w := the_world st in
  let sessionId := "session-" +:+ string_of_Z (ms (clock w (reads w))) in
  ensureActiveSession (VObj fields) st
  = (Return tt,
     {| locale := locale st;
        currentSessionId := Some sessionId;
        the_world :=
          appended (ticked (ticked (ticked w))) "auto-project" sessions_jsonl
            (auto_session sessionId (clock w (S (reads w))) (clock w (S (S (reads w))))) |}).
Proof.
  intros Hcur Hdev Hfeat. cbn zeta.
  unfold ensureActiveSession, bind at 1, get_currentSessionId. rewrite Hcur.
  unfold bind, in_world, now, lift. cbn [get the_world fst snd]. rewrite Hdev, Hfeat.
  cbn [default or_else truthy the_world].
  rewrite saveTDDSession_valid with (p := "auto-project"); [|reflexivity|reflexivity].
  reflexivity.
Qed.

(** X16.  The session is created before the arguments are checked.  A
    [tdd] call without command and without requirements, on a handler with
    no current session, is answered with the invalid-parameters error; yet
    the handler now holds the session [session-<clock in ms>], and the
    session record has been appended to [tdd-sessions.jsonl] of the project
    [auto-project].  The same call made again is answered the same way and
    changes nothing more. *)
Theorem callTool_tdd_rejected_session (st : state) (fields : list (string * value)) :
  currentSessionId st = None ->
  assoc "command" fields = None -> assoc "requirements" fields = None ->
  assoc "developer" fields = None -> assoc "featureId" fields = None ->
  let w := the_world st in
  let sessionId := "session-" +:+ string_of_Z (ms (clock w (reads w))) in
  let rejected := createErrorResult (message (createLocalizedError INVALID_PARAMS (locale st))) in
  exists st',
    callTool "tdd" (VObj fields) st = (Return rejected, st')
    /\ currentSessionId st' = Some sessionId
    /\ file_lines_of (the_world st') "auto-project" sessions_jsonl
       = file_lines_of w "auto-project" sessions_jsonl
         ++ [to_line (auto_session sessionId (clock w (S (reads w))) (clock w (S (S (reads w)))))]
    /\ callTool "tdd" (VObj fields) st' = (Return rejected, st').
Proof.
  intros Hcur Hcmd Hreq Hdev Hfeat. cbn zeta.
  eexists. split; [|split; [|split]].
  - unfold callTool, catch. cbn [String.eqb Ascii.eqb Bool.eqb].
    unfold handleTDDTool. unfold bind at 1. unfold lift at 1. cbn [get]. rewrite Hcmd. cbn [default].
    unfold bind at 1. rewrite (ensureActiveSession_fresh st fields Hcur Hdev Hfeat).
    unfold bind at 1. unfold lift at 1. cbn [get]. rewrite Hreq. cbn [default truthy negb andb].
    unfold bind, getCurrentLocale, ret. cbn [locale]. reflexivity.
  - reflexivity.
  - cbn [the_world]. rewrite file_lines_appended, !String.eqb_refl. reflexivity.
  - unfold callTool, catch. cbn [String.eqb Ascii.eqb Bool.eqb].
    unfold handleTDDTool. unfold bind at 1. unfold lift at 1. cbn [get]. rewrite Hcmd. cbn [default].
    unfold bind at 1. unfold ensureActiveSession at 1. unfold bind at 1, get_currentSessionId.
    cbn [currentSessionId]. unfold ret at 1.
    unfold bind at 1. unfold lift at 1. cbn [get]. rewrite Hreq. cbn [default truthy negb andb].
    unfold bind, getCurrentLocale, ret. cbn [locale]. reflexivity.
Qed.

Lemma first_with_ge (p : value -> bool) (items : list value) (j i : nat) (x : value) :
  first_with p items j = Some (i, x) -> (j <= i)%nat /\ p x = true.
Proof.
  revert j. induction items as [|a items IH]; intros j; cbn; [discriminate|].
  destruct (p a) eqn:Ha; [intros [= <- <-]; split; [lia|assumption]|].
  intros Hrest. destruct (IH _ Hrest). split; [lia|assumption].
Qed.

Lemma first_with_insert (p : value -> bool) (items : list value) (j i : nat) (x y : value) :
  first_with p items j = Some (i, x) -> p y = true ->
  first_with p (<[(i - j)%nat := y]> items) j = Some (i, y).
Proof.
  revert j. induction items as [|a items IH]; intros j; cbn [first_with]; [discriminate|].
  destruct (p a) eqn:Ha.
  - intros [= <- <-] Hy. rewrite Nat.sub_diag. cbn. now rewrite Hy.
  - intros Hrest Hy. destruct (first_with_ge _ _ _ _ _ Hrest) as [Hle _].
    replace (i - j)%nat with (S (i - S j)) by lia. cbn. rewrite Ha. now apply IH.
Qed.

Lemma has_prop_touch (k s k' : string) (item v : value) (t : time) :
  k <> "updatedAt" -> k <> k' -> is_object item = true ->
  has_prop k s (touch item k' v t) = has_prop k s item.
Proof.
  intros Hu Hk. destruct item as [ | | | | | | |fields]; try discriminate. intros _.
  unfold touch, has_prop. cbn [spread]. now rewrite !assoc_assign_ne by assumption.
Qed.

Lemma has_prop_touched (k s : string) (item : value) (t : time) :
  k <> "updatedAt" -> has_prop k s (touch item k (VStr s) t) = true.
Proof.
  intros Hu. unfold touch, has_prop. rewrite assoc_assign_ne by assumption.
  rewrite assoc_assign_eq. cbn. apply String.eqb_refl.
Qed.

Lemma updateSessionStage_step (stage : TDDStage) (st : state) (id stage0 : string) :
  session_at st id stage0 ->
  exists st', updateSessionStage stage st = (Return tt, st')
              /\ session_at st' id (TDDStage_value stage).
Proof.
  intros (Hcur & Hw & Hdir & Hother & i & session & Hfound & _).
  unfold updateSessionStage, bind at 1, get_currentSessionId. rewrite Hcur.
  unfold bind, in_world, updateTDDSessionStage, listProjects. unfold bind.
  rewrite (update_in_found sessions_jsonl _ _ (the_world st) _ id "auto-project" i session
             (json_objects_only _ Hw) Hother Hfound (listProjects_member _ _ Hdir) Hdir).
  unfold ret. eexists. split; [reflexivity|].
  set (items := records (the_world st) "auto-project" sessions_jsonl) in *.
  set (touched := touch session "stage" (VStr (TDDStage_value stage)) _).
  assert (Forall tidy items) as Hitems by now apply records_tidy.
  destruct (first_with_ge _ _ _ _ _ Hfound) as [_ Hsid].
  assert (tidy session) as Hsession.
  { rewrite List.Forall_forall in Hitems. eapply Hitems, first_with_member, Hfound. }
  assert (tidy touched) as Htouched by now apply tidy_touch.
  assert (Forall tidy (<[i := touched]> items)) as Hitems'.
  { apply Forall_insert; assumption. }
  unfold session_at. cbn [currentSessionId the_world]. split; [exact Hcur|].
  split; [apply json_objects_rewritten;
          [now apply json_objects_ticked|now apply Forall_tidy_objects]|].
  split; [now apply rewritten_directory|]. split.
  - intros p Hp. rewrite records_rewritten_other.
    + now apply Hother.
    + destruct (String.eqb_spec "auto-project" p); [congruence|reflexivity].
  - exists i, (reread touched). split.
    + rewrite records_rewritten by now apply Forall_tidy_objects.
      rewrite first_with_reread by assumption.
      replace i with (i - 0)%nat at 1 by lia.
      rewrite (first_with_insert _ _ _ _ _ touched Hfound); [reflexivity|].
      unfold has_id, touched. rewrite has_prop_touch; [exact Hsid|discriminate|discriminate|].
      now apply tidy_object.
    + rewrite has_prop_reread; [|reflexivity|assumption].
      now apply has_prop_touched.
Qed.

Lemma ensureActiveSession_session (st : state) (fields : list (string * value)) :
  currentSessionId st = None ->
  assoc "developer" fields = None -> assoc "featureId" fields = None ->
  let w := the_world st in
  let sessionId := "session-" +:+ string_of_Z (ms (clock w (reads w))) in
  json_objects w -> unknown_in sessions_jsonl w sessionId ->
  exists st', ensureActiveSession (VObj fields) st = (Return tt, st')
              /\ session_at st' sessionId "red".
Proof.
  intros Hcur Hdev Hfeat w sessionId Hw Hid.
  rewrite (ensureActiveSession_fresh st fields Hcur Hdev Hfeat). eexists. split; [reflexivity|].
  fold w sessionId. unfold session_at. cbn [currentSessionId the_world].
  set (session := auto_session _ _ _).
  assert (exists sf, session = VObj sf /\ assoc "id" sf = Some (VStr sessionId)
                     /\ assoc "stage" sf = Some (VStr "red")) as (sf & Hsf & Hsid & Hstage).
  { eexists. split; [reflexivity|]. split; reflexivity. }
  rewrite Hsf.
  split; [reflexivity|]. split; [|split; [|split]].
  - apply json_objects_appended. now do 3 apply json_objects_ticked.
  - apply appended_directory.
  - intros p Hp. rewrite records_appended_other.
    + exact (records_unknown_in sessions_jsonl w p sessionId Hid).
    + destruct (String.eqb_spec "auto-project" p); [congruence|reflexivity].
  - exists (length (records w "auto-project" sessions_jsonl)), (VObj (read_back sf)).
    destruct (object_read_back sf) as (doc & Hdoc & Hback).
    rewrite (records_appended _ _ _ _ _ Hdoc), Hback. split.
    + change (records (ticked (ticked (ticked w))) "auto-project" sessions_jsonl)
        with (records w "auto-project" sessions_jsonl).
      rewrite first_with_app by exact (records_unknown_in sessions_jsonl w _ sessionId Hid).
      cbn [first_with]. unfold has_id.
      now rewrite (has_prop_read_back "id" sessionId sf eq_refl Hsid).
    + exact (has_prop_read_back "stage" "red" sf eq_refl Hstage).
Qed.

(** X17.  The full workflow leaves its session at the stage [refactor].
    After a [tdd] call with non-empty requirements and no command, on a
    handler with no current session and a store of JSON objects in which
    the new session id is not yet used, the result is no error, the handler
    holds the new session, and [loadTDDSession] finds that session in the
    store with the stage [refactor]. *)
Theorem callTool_tdd_workflow_session (st : state) (s : string) :
  s <> EmptyString -> currentSessionId st = None ->
  json_objects (the_world st) ->
  unknown_in sessions_jsonl (the_world st)
    ("session-" +:+ string_of_Z (ms (clock (the_world st) (reads (the_world st))))) ->
  exists r st' session,
    callTool "tdd" (VObj [("requirements", VStr s)]) st = (Return r, st')
    /\ isError r = None
    /\ currentSessionId st'
       = Some ("session-" +:+ string_of_Z (ms (clock (the_world st) (reads (the_world st)))))
    /\ loadTDDSession
         ("session-" +:+ string_of_Z (ms (clock (the_world st) (reads (the_world st)))))
         (the_world st')
       = (Return session, the_world st')
    /\ has_prop "stage" "refactor" session = true.
Proof.
  intros Hs Hcur Hw Hid.
  set (sessionId := "session-" +:+ _) in *.
  destruct (ensureActiveSession_session st [("requirements", VStr s)] Hcur eq_refl eq_refl Hw Hid)
    as (st1 & Hensure & Hst1).
  fold sessionId in Hst1.
  destruct (updateSessionStage_step RED st1 _ _ Hst1) as (st2 & Hred & Hst2).
  destruct (updateSessionStage_step RED st2 _ _ Hst2) as (st3 & Hred' & Hst3).
  destruct (updateSessionStage_step GREEN st3 _ _ Hst3) as (st4 & Hgreen & Hst4).
  destruct (updateSessionStage_step REFACTOR st4 _ _ Hst4) as (st5 & Hrefactor & Hst5).
  assert (truthy (VStr s) = true) as Htruthy.
  { cbn. destruct (String.eqb_spec s EmptyString); [contradiction|reflexivity]. }
  unfold callTool, catch. cbn [String.eqb Ascii.eqb Bool.eqb].
  unfold handleTDDTool. unfold bind at 1. unfold lift at 1. cbn [get assoc default from_option Datatypes.id String.eqb Ascii.eqb Bool.eqb].
  rewrite (bind_return _ _ _ _ _ Hensure).
  unfold bind at 1. unfold lift at 1. cbn [get assoc default from_option Datatypes.id String.eqb Ascii.eqb Bool.eqb].
  rewrite Htruthy. cbn [truthy negb andb].
  unfold bind at 1. unfold lift at 1. cbn [get assoc default from_option Datatypes.id String.eqb Ascii.eqb Bool.eqb is_string andb].
  rewrite (bind_return _ _ _ _ _ Hred).
  unfold executeFullTDDWorkflow.
  unfold bind at 1. rewrite (bind_return _ _ _ _ _ Hred').
  rewrite (bind_return _ _ _ _ _ Hgreen). unfold ret at 1.
  rewrite (bind_return _ _ _ _ _ Hrefactor). unfold ret.
  destruct Hst5 as (Hcur5 & Hw5 & Hdir5 & Hother5 & i & session & Hfound & Hstage).
  exists (createSuccessResult
            ("完整TDD流程执行完成:" +:+ newline
             +:+ join (["✅ 生成测试用例"] ++ ["✅ 生成最小实现"]
                       ++ ["✅ 运行测试"; "✅ 分析覆盖率"; "✅ 提供重构建议"]) newline)),
    st5, session.
  split; [reflexivity|]. split; [reflexivity|]. split; [exact Hcur5|]. split; [|exact Hstage].
  unfold loadTDDSession, listProjects, bind.
  exact (loadTDDSession_in_found _ _ _ "auto-project" i session (json_objects_only _ Hw5)
           Hother5 Hfound (listProjects_member _ _ Hdir5)).
Qed.

End MoreNewToolsFacts.

(* ================================================================== *)
(** * More on the feature management service *)
(* ================================================================== *)

Section MoreFeatureManagementFacts.
Import Js Schema Storage FeatureManagement.
Context `{Runtime}.

Lemma trim_empty : trim EmptyString = EmptyString.
Proof. reflexivity. Qed.




(** The store after a valid record with a new id has been saved. *)
Lemma saved_object (w : world) (fields : list (string * value)) (id P : string) :
  json_objects w -> unknown_feature w id -> FeatureSchema (VObj fields) = true ->
  assoc "id" fields = Some (VStr id) -> assoc "projectId" fields = Some (VStr P) ->
  let w1 := appended w P features_jsonl (VObj fields) in
  saveFeature (VObj fields) w = (Return tt, w1)
  /\ json_objects w1
  /\ records w1 P features_jsonl = records w P features_jsonl ++ [VObj (read_back fields)]
  /\ (forall p, p <> P ->
        Forall (fun item => has_id id item = false) (records w1 p features_jsonl))
  /\ first_with (has_id id) (records w1 P features_jsonl) 0
     = Some (length (records w P features_jsonl), VObj (read_back fields))
  /\ In P (map fst (map_to_list (disk w1)))
  /\ is_Some (disk w1 !! P).
Proof.
  intros Hw Hid Hv Hfid Hfp. cbn zeta.
  assert (records (appended w P features_jsonl (VObj fields)) P features_jsonl
          = records w P features_jsonl ++ [VObj (read_back fields)]) as Hrec.
  { destruct (object_read_back fields) as (doc & Hdoc & Hback).
    now rewrite (records_appended _ _ _ _ _ Hdoc), Hback. }
  split; [now apply saveFeature_valid|]. split; [now apply json_objects_appended|].
  split; [exact Hrec|]. split; [|split; [|split]].
  - intros p Hp. rewrite records_appended_other.
    + now apply records_unknown.
    + destruct (String.eqb_spec P p); [congruence|reflexivity].
  - rewrite Hrec, first_with_app by now apply records_unknown.
    cbn [first_with]. unfold has_id. now rewrite (has_prop_read_back "id" id fields eq_refl Hfid).
  - apply listProjects_member, appended_directory.
  - apply appended_directory.
Qed.

Lemma loadFeature_saved (w : world) (fields : list (string * value)) (id P : string) :
  json_objects w -> unknown_feature w id -> FeatureSchema (VObj fields) = true ->
  assoc "id" fields = Some (VStr id) -> assoc "projectId" fields = Some (VStr P) ->
  let w1 := appended w P features_jsonl (VObj fields) in
  loadFeature id w1 = (Return (VObj (read_back fields)), w1).
Proof.
  intros Hw Hid Hv Hfid Hfp. cbn zeta.
  destruct (saved_object w fields id P Hw Hid Hv Hfid Hfp)
    as (_ & Hw1 & Hrec & Hother & Hfound & Hin & Hdir).
  apply (loadFeature_found _ _ P).
  - now apply json_objects_only.
  - exact Hdir.
  - intros p Hp. unfold features_of. apply Forall_filter_has_id. now apply Hother.
  - eexists. rewrite (features_of_appended_own _ _ _ Hfp).
    rewrite first_with_app by (apply features_of_unknown; exact Hid).
    cbn [first_with]. unfold has_id.
    now rewrite (has_prop_read_back "id" id fields eq_refl Hfid).
Qed.


(** X24.  One [deleteFeature] does not remove a feature whose status has
    been updated through the feature management service.  The update
    appended a second record with the same id; [deleteFeature] removes the
    first record with the id only and returns [true], and [loadFeature]
    still finds the feature afterwards, now with the updated status. *)
Theorem deleteFeature_after_update
    (w w1 w2 : world) (f : Feature) (params : UpdateFeatureStatusParams) (updated : value) :
  json_objects w -> unknown_feature w (id f) -> featureId params = id f ->
  saveFeature (Feature_object f) w = (Return tt, w1) ->
  FeatureManagement.updateFeatureStatus params w1 = (Return updated, w2) ->
  exists w3 survivor,
    deleteFeature (id f) w2 = (Return true, w3)
    /\ loadFeature (id f) w3 = (Return survivor, w3)
    /\ has_id (id f) survivor = true
    /\ has_prop "status" (FeatureStatus_value (new_status params)) survivor = true.
Proof.
  intros Hw Hid Hparams Hsave Hupd.
  pose proof (saveFeature_returned _ _ _ Hsave) as Hv.
  assert (exists fields, Feature_object f = VObj fields) as (fields & HF) by now eexists.
  assert (assoc "projectId" fields = Some (VStr (projectId f))) as HP
    by (injection HF as <-; reflexivity).
  assert (assoc "id" fields = Some (VStr (id f))) as HI
    by (injection HF as <-; reflexivity).
  rewrite HF in *. clear HF. set (P := projectId f) in *.
  destruct (saved_object w fields (id f) P Hw Hid Hv HI HP)
    as (Hsave' & Hw1 & Hrec1 & Hother1 & Hfound1 & Hin1 & Hdir1).
  rewrite Hsave' in Hsave. injection Hsave as <-.
  set (w1 := appended w P features_jsonl (VObj fields)) in *.
  set (a := records w P features_jsonl) in *.
  set (first := VObj (read_back fields)) in *.
  pose proof (loadFeature_saved w fields (id f) P Hw Hid Hv HI HP) as Hload1.
  cbn zeta in Hload1. fold w1 first in Hload1. rewrite <- Hparams in Hload1.
  rewrite (updateFeatureStatus_run _ _ _ Hload1 eq_refl) in Hupd.
  set (U := updated_fields params first (clock w1 (reads w1))) in *.
  assert (assoc "projectId" U = Some (VStr P)) as HPU.
  { unfold U. rewrite assoc_updated_fields by discriminate. now apply assoc_read_back_string. }
  assert (assoc "id" U = Some (VStr (id f))) as HIU.
  { unfold U. rewrite assoc_updated_fields by discriminate. now apply assoc_read_back_string. }
  destruct (FeatureSchema (VObj U)) eqn:HvU;
    [|rewrite (saveFeature_invalid _ _ HvU) in Hupd; discriminate].
  rewrite (saveFeature_valid _ _ _ HvU HPU) in Hupd. injection Hupd as <- <-.
  set (w2 := appended (ticked w1) P features_jsonl (VObj U)).
  set (newer := VObj (read_back U)).
  assert (json_objects w2) as Hw2.
  { apply json_objects_appended. now apply json_objects_ticked. }
  assert (records w2 P features_jsonl = a ++ [first; newer]) as Hrec2.
  { unfold w2. destruct (object_read_back U) as (doc & Hdoc & Hback).
    rewrite (records_appended _ _ _ _ _ Hdoc), Hback.
    change (records (ticked w1) P features_jsonl) with (records w1 P features_jsonl).
    now rewrite Hrec1, <- app_assoc. }
  assert (forall p, p <> P ->
            Forall (fun item => has_id (id f) item = false) (records w2 p features_jsonl))
    as Hother2.
  { intros p Hp. unfold w2. rewrite records_appended_other.
    - now apply Hother1.
    - destruct (String.eqb_spec P p); [congruence|reflexivity]. }
  assert (Forall (fun item => has_id (id f) item = false) a) as Ha_id by now apply records_unknown.
  assert (has_id (id f) first = true) as Hfirst
    by (apply has_prop_read_back; [reflexivity|assumption]).
  assert (is_Some (disk w2 !! P)) as Hdir2 by apply appended_directory.
  assert (deleteFeature (id f) w2 = (Return true, rewritten w2 P features_jsonl (a ++ [newer])))
    as Hdel.
  { unfold deleteFeature, listProjects, bind.
    rewrite (delete_in_found features_jsonl w2 _ (id f) P (length a) first
               (json_objects_only _ Hw2) Hother2).
    - rewrite Hrec2. now rewrite delete_middle.
    - rewrite Hrec2, first_with_app by assumption. cbn [first_with]. now rewrite Hfirst.
    - now apply listProjects_member.
    - exact Hdir2. }
  set (w3 := rewritten w2 P features_jsonl (a ++ [newer])) in *.
  assert (Forall tidy a) as Ha by now apply records_tidy.
  assert (tidy newer) as Hnewer.
  { unfold newer. rewrite <- reread_object. now apply tidy_reread. }
  assert (Forall tidy (a ++ [newer])) as Hitems.
  { apply Forall_app. split; [assumption|now constructor]. }
  assert (json_objects w3) as Hw3.
  { apply json_objects_rewritten; [assumption|now apply Forall_tidy_objects]. }
  assert (has_prop "projectId" P newer = true) as HnewerP
    by (apply has_prop_read_back; [reflexivity|assumption]).
  assert (has_id (id f) newer = true) as HnewerI
    by (apply has_prop_read_back; [reflexivity|assumption]).
  assert (has_prop "status" (FeatureStatus_value (new_status params)) newer = true) as HnewerS
    by (apply has_prop_read_back; [reflexivity|apply assoc_updated_status]).
  assert (features_of w3 P
          = List.filter (has_prop "projectId" P) (map reread a) ++ [reread newer]) as Hfeat.
  { unfold features_of, w3. rewrite records_rewritten by now apply Forall_tidy_objects.
    rewrite map_app, List.filter_app. cbn [map List.filter].
    now rewrite (has_prop_reread "projectId" P newer eq_refl Hnewer), HnewerP. }
  exists w3, (reread newer). split; [exact Hdel|]. split; [|split].
  - apply (loadFeature_found w3 (id f) P).
    + now apply json_objects_only.
    + unfold w3. now apply rewritten_directory.
    + intros p Hp. unfold features_of, w3. rewrite records_rewritten_other.
      * apply Forall_filter_has_id. now apply Hother2.
      * destruct (String.eqb_spec P p); [congruence|reflexivity].
    + eexists. rewrite Hfeat, first_with_app.
      * cbn [first_with]. unfold has_id.
        rewrite (has_prop_reread "id" (id f) newer eq_refl Hnewer). fold (has_id (id f) newer).
        rewrite HnewerI. reflexivity.
      * apply Forall_filter_has_id, Forall_reread; assumption.
  - unfold has_id. now rewrite (has_prop_reread "id" (id f) newer eq_refl Hnewer).
  - now rewrite (has_prop_reread "status" _ newer eq_refl Hnewer).
Qed.

Lemma prop_assoc (fields : list (string * value)) (k : string) :
  prop (VObj fields) k = default VUndefined (assoc k fields).
Proof. reflexivity. Qed.

Lemma assoc_app_l (k : string) (a b : list (string * value)) (x : value) :
  assoc k a = Some x -> assoc k (a ++ b) = Some x.
Proof.
  induction a as [|[k' y] a IH]; [discriminate|]. cbn.
  destruct (String.eqb k' k); [trivial|exact IH].
Qed.

Lemma assoc_app_r (k : string) (a b : list (string * value)) :
  assoc k a = None -> assoc k (a ++ b) = assoc k b.
Proof.
  induction a as [|[k' y] a IH]; [reflexivity|]. cbn.
  destruct (String.eqb k' k); [discriminate|exact IH].
Qed.

Lemma assoc_read_back_none (k : string) (fields : list (string * value)) :
  assoc k fields = None -> assoc k (read_back fields) = None.
Proof.
  induction fields as [|[k' y] fields IH]; [reflexivity|].
  change ((k', y) :: fields) with ([(k', y)] ++ fields). rewrite read_back_app.
  cbn [assoc app]. destruct (String.eqb_spec k' k) as [->|Hne]; [discriminate|].
  intros Hrest. unfold read_back at 1. cbn.
  destruct (serialize y); cbn; [|now apply IH].
  destruct (String.eqb_spec k' k); [contradiction|now apply IH].
Qed.

Lemma merged_existing (partial : PartialProgress) (fields : list (string * value))
    (existing : ProgressInfo) :
  assoc "progress" fields = Some (ProgressInfo_object existing) ->
  merged partial (VObj fields) = merge_progress partial existing.
Proof.
  intros Hp. unfold merged, merge_progress. rewrite prop_assoc, Hp.
  cbn [default from_option Datatypes.id]. unfold ProgressInfo_object. cbn [or_else truthy].
  rewrite !prop_assoc.
  cbn [assoc app String.eqb Ascii.eqb Bool.eqb default from_option Datatypes.id].
  f_equal. f_equal; [|f_equal; [|f_equal; [|f_equal]]].
  - now destruct (p_testsWritten partial).
  - now destruct (p_testsPass partial).
  - now destruct (p_implementationFiles partial).
  - destruct (p_coveragePercentage partial); [reflexivity|].
    now destruct (coveragePercentage existing).
Qed.

Lemma merged_none (partial : PartialProgress) (fields : list (string * value)) :
  assoc "progress" fields = None ->
  merged partial (VObj fields) = merge_progress partial no_progress.
Proof.
  intros Hp. unfold merged, merge_progress. rewrite prop_assoc, Hp.
  cbn [default from_option Datatypes.id or_else truthy]. unfold default_progress.
  rewrite !prop_assoc.
  cbn [assoc app String.eqb Ascii.eqb Bool.eqb default from_option Datatypes.id no_progress
       testsWritten testsPass implementationFiles coveragePercentage].
  f_equal. f_equal; [|f_equal; [|f_equal; [|f_equal]]].
  - now destruct (p_testsWritten partial).
  - now destruct (p_testsPass partial).
  - now destruct (p_implementationFiles partial).
  - now destruct (p_coveragePercentage partial).
Qed.

Lemma Feature_object_progress (f : Feature) (fields : list (string * value)) :
  Feature_object f = VObj fields ->
  assoc "progress" fields = option_map ProgressInfo_object (progress f).
Proof.
  intros [= <-].
  destruct (progress f), (tags f), (estimatedHours f), (actualHours f), (assignee f); reflexivity.
Qed.

(** X23.  The progress of an update is merged member by member.  When
    [updateFeatureStatus] is given a partial progress for a feature that
    was saved, each member of the progress of the returned feature is the
    given one where it is given, and else the one the feature had; a
    feature without progress counts as 0 tests written, 0 tests passing
    and no implementation files. *)
Theorem updateFeatureStatus_merges_progress
    (w w1 w2 : world) (f : Feature) (params : UpdateFeatureStatusParams)
    (partial : PartialProgress) (updated : value) :
  json_objects w -> unknown_feature w (id f) -> finite_numbers f = true ->
  featureId params = id f -> new_progress params = Some partial ->
  saveFeature (Feature_object f) w = (Return tt, w1) ->
  FeatureManagement.updateFeatureStatus params w1 = (Return updated, w2) ->
  get updated "progress"
  = Return (merge_progress partial (default no_progress (progress f))).
Proof.
  intros Hw Hid Hfin Hparams Hgiven Hsave Hupd.
  pose proof (saveFeature_returned _ _ _ Hsave) as Hv.
  destruct (feature_read_back f Hv Hfin) as (fields & HF & Hback).
  assert (assoc "projectId" fields = Some (VStr (projectId f))) as HP
    by (injection HF as <-; reflexivity).
  assert (assoc "id" fields = Some (VStr (id f))) as HI
    by (injection HF as <-; reflexivity).
  pose proof (Feature_object_progress f fields HF) as Hprog.
  rewrite HF in *. clear HF.
  pose proof (loadFeature_saved w fields (id f) (projectId f) Hw Hid Hv HI HP) as Hload1.
  cbn zeta in Hload1. rewrite Hback in Hload1.
  destruct (saved_object w fields (id f) (projectId f) Hw Hid Hv HI HP) as (Hsave' & _).
  rewrite Hsave' in Hsave. injection Hsave as <-. rewrite <- Hparams in Hload1.
  rewrite (updateFeatureStatus_run _ _ _ Hload1 eq_refl) in Hupd.
  destruct (saveFeature _ _) as [[[]|e] w']; [|discriminate]. injection Hupd as <- _.
  unfold updated_fields. rewrite Hgiven. cbn [get]. rewrite assoc_assign_eq.
  cbn [default from_option Datatypes.id]. f_equal.
  destruct (progress f) as [existing|]; cbn [option_map default from_option Datatypes.id] in *.
  - now apply merged_existing.
  - now apply merged_none.
Qed.

End MoreFeatureManagementFacts.

(* ================================================================== *)
(** * The further theorems at work on the reference runtime *)
(* ================================================================== *)

Section MoreOnReferenceRuntime.
Import Js Schema Storage Tools Examples.
#[local] Existing Instance reference_runtime.

Lemma json_objects_empty : json_objects empty_world.
Proof. intros p file doc (dir & content & Hdir & _). cbn in Hdir. now rewrite lookup_empty in Hdir. Qed.

Lemma unknown_in_empty (file id : string) : unknown_in file empty_world id.
Proof. intros p doc (dir & content & Hdir & _). cbn in Hdir. now rewrite lookup_empty in Hdir. Qed.

Lemma saveFeature_rejects_witness :
  exists e, saveFeature (Feature_object nameless_feature) empty_world = (Throw e, empty_world).
Proof. apply (saveFeature_rejects empty_world nameless_feature). left. reflexivity. Defined.



Lemma callTool_other_than_tdd_witness :
  exists r,
    NewTools.callTool "deploy" VNull fresh_handler = (Return r, fresh_handler)
    /\ ("deploy" <> "feature" -> "deploy" <> "tracking" ->
        r = createErrorResult ("Unknown tool: " +:+ "deploy")).
Proof. apply (callTool_other_than_tdd "deploy" VNull fresh_handler). discriminate. Defined.

Lemma callTool_tdd_rejected_session_witness :
  let rejected := createErrorResult "输入参数验证失败" in
  exists st',
    NewTools.callTool "tdd" (VObj []) fresh_handler = (Return rejected, st')
    /\ NewTools.currentSessionId st' = Some "session-0"
    /\ file_lines_of (NewTools.the_world st') "auto-project" sessions_jsonl
       = [to_line (NewTools.auto_session "session-0" epoch epoch)]
    /\ NewTools.callTool "tdd" (VObj []) st' = (Return rejected, st').
Proof.
  apply (callTool_tdd_rejected_session fresh_handler []); reflexivity.
Defined.

Lemma callTool_tdd_workflow_session_witness :
  exists r st' session,
    NewTools.callTool "tdd" (VObj [("requirements", VStr "x")]) fresh_handler = (Return r, st')
    /\ isError r = None
    /\ NewTools.currentSessionId st' = Some "session-0"
    /\ loadTDDSession "session-0" (NewTools.the_world st')
       = (Return session, NewTools.the_world st')
    /\ has_prop "stage" "refactor" session = true.
Proof.
  apply (callTool_tdd_workflow_session fresh_handler "x");
    [discriminate|reflexivity|exact json_objects_empty|exact (unknown_in_empty _ _)].
Defined.



Lemma updateFeatureStatus_merges_progress_witness :
  exists w1 w2 updated,
    saveFeature (Feature_object login_feature) empty_world = (Return tt, w1)
    /\ FeatureManagement.updateFeatureStatus start_login w1 = (Return updated, w2)
    /\ get updated "progress"
       = Return (FeatureManagement.merge_progress two_tests_written
                   FeatureManagement.no_progress).
Proof.
  do 3 eexists. split; [vm_compute; reflexivity|]. split; [vm_compute; reflexivity|].
  eapply (updateFeatureStatus_merges_progress empty_world _ _ login_feature start_login
            two_tests_written);
    [exact json_objects_empty|exact (unknown_feature_empty _)|reflexivity|reflexivity
    |reflexivity|vm_compute; reflexivity|vm_compute; reflexivity].
Defined.

Lemma deleteFeature_after_update_witness :
  exists w1 w2 updated,
    saveFeature (Feature_object login_feature) empty_world = (Return tt, w1)
    /\ FeatureManagement.updateFeatureStatus complete_login w1 = (Return updated, w2)
    /\ exists w3 survivor,
         deleteFeature "feature-123" w2 = (Return true, w3)
         /\ loadFeature "feature-123" w3 = (Return survivor, w3)
         /\ has_id "feature-123" survivor = true
         /\ has_prop "status" "completed" survivor = true.
Proof.
  do 3 eexists. split; [vm_compute; reflexivity|]. split; [vm_compute; reflexivity|].
  eapply (deleteFeature_after_update empty_world _ _ login_feature complete_login);
    [exact json_objects_empty|exact (unknown_feature_empty _)|reflexivity
    |vm_compute; reflexivity|vm_compute; reflexivity].
Defined.

End MoreOnReferenceRuntime.
